(** * Verification of the chat orchestration loop of mundi.ai

    Shallow embedding of [src/routes/message_routes.py]: the Redis lock and
    cancellation flag, the PostgreSQL tables the loop reads and writes, the
    tool dispatch of [process_chat_interaction_task], the geoprocessing
    bridge [run_geoprocessing_tool] and the two HTTP entry points
    [send_map_message] and [cancel_map_message].

    Python code is modelled in a state-and-exception monad over a record
    [World] holding the Redis store and the tables.  Collaborators whose code
    lives in other modules (the language model client, the QGIS service, S3,
    DuckDB, the user's PostGIS databases, style validation) are fields of a
    record [Env] of oracles.

    Conventions.  Exceptions are modelled where the code raises or catches
    them and where Python or asyncpg raise on the shape of the arguments the
    model sent; a statement on the application's own database succeeds when
    its parameters are accepted.  Rows keep their insertion order, which is
    the [ORDER BY created_at] of the queries.  Text is ASCII.  A JSON object
    lists each key once.  Spans and the sleep at the start of the task have
    no effect on the state and are left out. *)

From Stdlib Require Import ZArith QArith.QArith_base Ascii String.
From stdpp Require Import base tactics option list strings gmap pretty.

Local Open Scope string_scope.
Local Open Scope list_scope.
#[local] Set Warnings "-register-all".

(** ** JSON values and the Python operations the code applies to them *)

(** The result of [json.loads]: numbers are kept as exact rationals. *)
Inductive json : Type :=
| JNull
| JBool (b : bool)
| JNum (q : Q)
| JStr (s : string)
| JArr (items : list json)
| JObj (fields : list (string * json)).

(** Exception classes that the code raises, catches or lets through. *)
Inductive ExnClass : Type :=
| HTTPException (status_code : nat)
| JSONDecodeError
| ValueError
| StyleValidationError
| RecoverableToolCallError (tool_call_id : string)
| UnsupportedAlgorithmError
| InvalidInputFormatError
| IndexError
| KeyError
| TypeError
| AttributeError
| UnboundLocalError
| DataError
| UniqueViolationError
| OtherException.

(** An exception object: its class and [str(e)] (for [HTTPException],
    [e.detail]). *)
Record Exn : Type := mkExn { exn_class : ExnClass; exn_str : string }.

Inductive Res (A : Type) : Type :=
| Ok (a : A)
| Raise (e : Exn).
Arguments Ok {A} a.
Arguments Raise {A} e.

Definition is_ok {A} (r : Res A) : bool :=
  match r with Ok _ => true | Raise _ => false end.

Definition dq : string := String (ascii_of_nat 34) EmptyString.

Fixpoint assoc (k : string) (fields : list (string * json)) : option json :=
  match fields with
  | [] => None
  | (k', v) :: rest => if String.eqb k k' then Some v else assoc k rest
  end.

(** Python truthiness: [None], [False], [0], empty strings, lists and dicts
    are falsy. *)
Definition truthy (v : json) : bool :=
  match v with
  | JNull => false
  | JBool b => b
  | JNum q => negb (Qeq_bool q (inject_Z 0))
  | JStr s => negb (String.eqb s "")
  | JArr items => match items with [] => false | _ => true end
  | JObj fields => match fields with [] => false | _ => true end
  end.

(** [d.get(k, default)]; anything but a dict has no [get]. *)
Definition py_get_default (d : json) (k : string) (default : json) : Res json :=
  match d with
  | JObj fields => Ok (match assoc k fields with Some v => v | None => default end)
  | _ => Raise (mkExn AttributeError "object has no attribute 'get'")
  end.

Definition py_get (d : json) (k : string) : Res json := py_get_default d k JNull.

(** [x[0]] *)
Definition py_index0 (x : json) : Res json :=
  match x with
  | JArr (v :: _) => Ok v
  | JArr [] => Raise (mkExn IndexError "list index out of range")
  | JStr (String c _) => Ok (JStr (String c EmptyString))
  | JStr EmptyString => Raise (mkExn IndexError "string index out of range")
  | JObj _ => Raise (mkExn KeyError "0")
  | _ => Raise (mkExn TypeError "object is not subscriptable")
  end.

(** [len(x)] *)
Definition py_len (x : json) : Res nat :=
  match x with
  | JStr s => Ok (String.length s)
  | JArr items => Ok (length items)
  | JObj fields => Ok (length fields)
  | _ => Raise (mkExn TypeError "object has no len()")
  end.

(** [k in x] for a string [k] *)
Definition py_in (k : string) (x : json) : Res bool :=
  match x with
  | JObj fields => Ok (bool_decide (is_Some (assoc k fields)))
  | JArr items =>
      Ok (existsb (fun v => match v with JStr s => String.eqb s k | _ => false end) items)
  | JStr s => Ok (bool_decide (is_Some (String.index 0 k s)))
  | _ => Raise (mkExn TypeError "argument is not iterable")
  end.

(** [x[k]] for a string [k] *)
Definition py_getitem (x : json) (k : string) : Res json :=
  match x with
  | JObj fields =>
      match assoc k fields with
      | Some v => Ok v
      | None => Raise (mkExn KeyError k)
      end
  | JArr _ => Raise (mkExn TypeError "list indices must be integers or slices, not str")
  | JStr _ => Raise (mkExn TypeError "string indices must be integers, not 'str'")
  | _ => Raise (mkExn TypeError "object is not subscriptable")
  end.

(** The elements an iteration over [x] yields: the items of a list, the
    characters of a string, the keys of a dict. *)
Definition py_iter (x : json) : Res (list json) :=
  match x with
  | JArr items => Ok items
  | JStr s => Ok ((fun c => JStr (String c EmptyString)) <$> list_ascii_of_string s)
  | JObj fields => Ok ((fun kv => JStr (fst kv)) <$> fields)
  | _ => Raise (mkExn TypeError "object is not iterable")
  end.

(** [isinstance(x, (int, float))]: [bool] is a subclass of [int]. *)
Definition py_number (x : json) : option Q :=
  match x with
  | JNum q => Some q
  | JBool b => Some (inject_Z (if b then 1 else 0))
  | _ => None
  end.

Definition Qltb (x y : Q) : bool := negb (Qle_bool y x).

(** ** Text helpers: [str.strip] and the LIMIT pattern

    Query text is taken to be ASCII: the classes below are the ASCII part of
    Python's [\s], [\d] and [\w]. *)

Definition is_space (c : ascii) : bool :=
  let n := nat_of_ascii c in
  (((9 <=? n) && (n <=? 13)) || ((28 <=? n) && (n <=? 32)))%nat.

Definition is_digit (c : ascii) : bool :=
  let n := nat_of_ascii c in ((48 <=? n) && (n <=? 57))%nat.

Definition is_word (c : ascii) : bool :=
  let n := nat_of_ascii c in
  (is_digit c || ((65 <=? n) && (n <=? 90)) || ((97 <=? n) && (n <=? 122)) || (n =? 95))%nat.

Definition to_lower (c : ascii) : ascii :=
  let n := nat_of_ascii c in
  if ((65 <=? n) && (n <=? 90))%nat then ascii_of_nat (n + 32) else c.

Fixpoint span_while (p : ascii -> bool) (s : list ascii) : list ascii * list ascii :=
  match s with
  | c :: rest =>
      if p c then let '(a, b) := span_while p rest in (c :: a, b) else ([], s)
  | [] => ([], [])
  end.

(** [s.strip()] *)
Definition strip (s : string) : string :=
  let front := snd (span_while is_space (list_ascii_of_string s)) in
  string_of_list_ascii (rev (snd (span_while is_space (rev front)))).

(** [int(digits)] *)
Definition int_of_digits (ds : list ascii) : Z :=
  fold_left (fun acc c => (10 * acc + Z.of_nat (nat_of_ascii c - 48))%Z) ds 0%Z.

(** An attempt of [LIMIT\s+(\d+)\b] (ignoring case) at the head of [s]; the
    digits are taken greedily and must end at a word boundary. *)
Definition limit_here (s : list ascii) : option Z :=
  match s with
  | l :: i :: m :: i' :: t :: rest =>
      if String.eqb (string_of_list_ascii (to_lower <$> [l; i; m; i'; t])) "limit" then
        let '(spaces, after_spaces) := span_while is_space rest in
        let '(digits, after_digits) := span_while is_digit after_spaces in
        match spaces, digits with
        | _ :: _, _ :: _ =>
            match after_digits with
            | c :: _ => if is_word c then None else Some (int_of_digits digits)
            | [] => Some (int_of_digits digits)
            end
        | _, _ => None
        end
      else None
  | _ => None
  end.

(** [re.search(r"\bLIMIT\s+(\d+)\b", s, re.IGNORECASE)], giving
    [int(limit_match.group(1))] of the leftmost match. *)
Fixpoint limit_search (prev_is_word : bool) (s : list ascii) : option Z :=
  match s with
  | [] => None
  | c :: rest =>
      match (if prev_is_word then None else limit_here s) with
      | Some v => Some v
      | None => limit_search (is_word c) rest
      end
  end.

Definition limit_match (query : string) : option Z :=
  limit_search false (list_ascii_of_string query).

(** ** Messages *)

(** [tool_call.function.arguments] is JSON text; it is carried as what
    [json.loads] makes of it. *)
Inductive Arguments : Type :=
| Malformed (reason : string)
| Json (v : json).

Record ToolCall : Type := mkToolCall {
  tc_id : string;
  tc_name : string;
  tc_arguments : Arguments
}.

(** A chat-completion message; the [content] of a tool message is the
    [tool_result] dict that [json.dumps] serialises. *)
Inductive Message : Type :=
| SystemMessage (content : string)
| UserMessage (content : string)
| AssistantMessage (content : option string) (tool_calls : list ToolCall)
| ToolMessage (tool_call_id : string) (content : json).

(** ** The stores: Redis and the PostgreSQL tables *)

(** A Redis key's value and the [ex] it was set with.  Time is not advanced:
    the model covers what the code does inside an entry's time to live. *)
Record RedisEntry : Type := mkEntry { value : string; ex : option nat }.

(** [user_mundiai_maps]; [layers] may be NULL. *)
Record MapRow : Type := mkMapRow {
  m_id : string;
  m_owner_uuid : string;
  m_soft_deleted : bool;
  m_project_id : string;
  m_layers : option (list string)
}.

(** What [new_layer_from_postgis] measures on the user's database. *)
Record PgInfo : Type := mkPgInfo {
  feature_count : option Z;
  bounds : option (list Q);
  geometry_type : option string
}.

(** [map_layers] *)
Record LayerRow : Type := mkLayerRow {
  l_layer_id : string;
  l_owner_uuid : string;
  l_name : option string;
  l_type : string;
  l_s3_key : option string;
  l_postgis_connection_id : option string;
  l_postgis_query : option string;
  l_info : option PgInfo;
  l_source_map_id : option string
}.

(** [layer_styles] *)
Record StyleRow : Type := mkStyleRow {
  s_style_id : string;
  s_layer_id : string;
  s_style_json : json;
  s_created_by : string
}.

(** [project_postgres_connections] (the URI is never used by this code) *)
Record PgConnRow : Type := mkPgConnRow { c_id : string; c_user_id : string }.

(** [chat_completion_messages] *)
Record MessageRow : Type := mkMessageRow {
  r_id : nat;
  r_map_id : string;
  r_sender_id : string;
  r_message_json : Message
}.

Record UserContext : Type := mkSession { get_user_id : string }.

(** Arguments of a queued [process_chat_interaction_task]. *)
Record TaskArgs : Type := mkTask {
  t_map_id : string;
  t_session : UserContext;
  t_user_id : string
}.

(** Observable steps, in the order they happen. *)
Inductive Event : Type :=
| EvCancelCheck (i : nat) (hit : bool)
| EvModelCall (i : nat) (transcript : list Message) (tools : list string)
| EvNotifyError
| EvAppend (m : Message)
| EvToolCallStarted (tc : ToolCall)
| EvIngest (filename : string)
| EvLockDelete (key : string).

Record World : Type := mkWorld {
  redis : gmap string RedisEntry;
  user_mundiai_maps : list MapRow;
  map_layers : list LayerRow;
  layer_styles : list StyleRow;
  map_layer_styles : gmap (string * string) string;
  project_postgres_connections : list PgConnRow;
  chat_completion_messages : list MessageRow;
  message_seq : nat;
  id_seq : nat;
  background_tasks : list TaskArgs;
  (* the variable [limited_query] of the running task: it is local to the
     function, not to one tool call *)
  limited_query : option string;
  trace : list Event
}.

Definition set_redis (f : gmap string RedisEntry -> gmap string RedisEntry) (w : World) : World :=
  mkWorld (f (redis w)) (user_mundiai_maps w) (map_layers w) (layer_styles w)
    (map_layer_styles w) (project_postgres_connections w) (chat_completion_messages w)
    (message_seq w) (id_seq w) (background_tasks w) (limited_query w) (trace w).

Definition set_maps (f : list MapRow -> list MapRow) (w : World) : World :=
  mkWorld (redis w) (f (user_mundiai_maps w)) (map_layers w) (layer_styles w)
    (map_layer_styles w) (project_postgres_connections w) (chat_completion_messages w)
    (message_seq w) (id_seq w) (background_tasks w) (limited_query w) (trace w).

Definition set_map_layers (f : list LayerRow -> list LayerRow) (w : World) : World :=
  mkWorld (redis w) (user_mundiai_maps w) (f (map_layers w)) (layer_styles w)
    (map_layer_styles w) (project_postgres_connections w) (chat_completion_messages w)
    (message_seq w) (id_seq w) (background_tasks w) (limited_query w) (trace w).

Definition set_layer_styles (f : list StyleRow -> list StyleRow) (w : World) : World :=
  mkWorld (redis w) (user_mundiai_maps w) (map_layers w) (f (layer_styles w))
    (map_layer_styles w) (project_postgres_connections w) (chat_completion_messages w)
    (message_seq w) (id_seq w) (background_tasks w) (limited_query w) (trace w).

Definition set_map_layer_styles
    (f : gmap (string * string) string -> gmap (string * string) string) (w : World) : World :=
  mkWorld (redis w) (user_mundiai_maps w) (map_layers w) (layer_styles w)
    (f (map_layer_styles w)) (project_postgres_connections w) (chat_completion_messages w)
    (message_seq w) (id_seq w) (background_tasks w) (limited_query w) (trace w).

(** [INSERT INTO chat_completion_messages]: the row takes the next serial id. *)
Definition insert_message (map_id sender_id : string) (m : Message) (w : World) : World :=
  mkWorld (redis w) (user_mundiai_maps w) (map_layers w) (layer_styles w)
    (map_layer_styles w) (project_postgres_connections w)
    (chat_completion_messages w ++ [mkMessageRow (message_seq w) map_id sender_id m])
    (S (message_seq w)) (id_seq w) (background_tasks w) (limited_query w) (trace w).

Definition set_id_seq (n : nat) (w : World) : World :=
  mkWorld (redis w) (user_mundiai_maps w) (map_layers w) (layer_styles w)
    (map_layer_styles w) (project_postgres_connections w) (chat_completion_messages w)
    (message_seq w) n (background_tasks w) (limited_query w) (trace w).

Definition set_background_tasks (f : list TaskArgs -> list TaskArgs) (w : World) : World :=
  mkWorld (redis w) (user_mundiai_maps w) (map_layers w) (layer_styles w)
    (map_layer_styles w) (project_postgres_connections w) (chat_completion_messages w)
    (message_seq w) (id_seq w) (f (background_tasks w)) (limited_query w) (trace w).

Definition set_limited_query (q : string) (w : World) : World :=
  mkWorld (redis w) (user_mundiai_maps w) (map_layers w) (layer_styles w)
    (map_layer_styles w) (project_postgres_connections w) (chat_completion_messages w)
    (message_seq w) (id_seq w) (background_tasks w) (Some q) (trace w).

(** A call of the task starts with its local [limited_query] unbound. *)
Definition unbind_limited_query (w : World) : World :=
  mkWorld (redis w) (user_mundiai_maps w) (map_layers w) (layer_styles w)
    (map_layer_styles w) (project_postgres_connections w) (chat_completion_messages w)
    (message_seq w) (id_seq w) (background_tasks w) None (trace w).

Definition set_trace (f : list Event -> list Event) (w : World) : World :=
  mkWorld (redis w) (user_mundiai_maps w) (map_layers w) (layer_styles w)
    (map_layer_styles w) (project_postgres_connections w) (chat_completion_messages w)
    (message_seq w) (id_seq w) (background_tasks w) (limited_query w) (f (trace w)).

(** ** The monad: state passing, with exceptions that keep the state *)

Definition M (A : Type) : Type := World -> Res A * World.

Definition ret {A} (a : A) : M A := fun w => (Ok a, w).

Definition raise {A} (e : Exn) : M A := fun w => (Raise e, w).

Definition bind {A B} (m : M A) (f : A -> M B) : M B :=
  fun w =>
    match m w with
    | (Ok a, w') => f a w'
    | (Raise e, w') => (Raise e, w')
    end.

(** [try: m except Exception as e: handler e]; a handler re-raises what its
    [except] clauses do not name. *)
Definition try_except {A} (m : M A) (handler : Exn -> M A) : M A :=
  fun w =>
    match m w with
    | (Ok a, w') => (Ok a, w')
    | (Raise e, w') => handler e w'
    end.

Definition lift {A} (r : Res A) : M A := fun w => (r, w).

Definition gets {A} (f : World -> A) : M A := fun w => (Ok (f w), w).

Definition modify (f : World -> World) : M unit := fun w => (Ok tt, f w).

#[global] Instance M_ret : MRet M := @ret.
#[global] Instance M_bind : MBind M := fun A B f m => bind m f.

Definition emit (e : Event) : M unit := modify (set_trace (fun t => t ++ [e])).

(** [for x in xs: body x] *)
Fixpoint for_each {A} (xs : list A) (body : A -> M unit) : M unit :=
  match xs with
  | [] => ret tt
  | x :: rest => body x;; for_each rest body
  end.

Inductive LoopControl : Type := Continue | Break.

(** [for i in range(start, start + n): body i], where the body may [break]. *)
Fixpoint for_range (start n : nat) (body : nat -> M LoopControl) : M unit :=
  match n with
  | O => ret tt
  | S n' =>
      c ← body start;
      match c with
      | Break => ret tt
      | Continue => for_range (S start) n' body
      end
  end.

(** *** Redis *)

Definition redis_get (key : string) : M (option string) :=
  gets (fun w => value <$> redis w !! key).

Definition redis_set (key v : string) (ex : option nat) : M unit :=
  modify (set_redis (fun r => <[key := mkEntry v ex]> r)).

Definition redis_delete (key : string) : M unit :=
  modify (set_redis (fun r => delete key r)).

(** Truthiness of what [redis.get] returns ([decode_responses=True]). *)
Definition truthy_reply (o : option string) : bool :=
  match o with
  | Some s => negb (String.eqb s "")
  | None => false
  end.

Definition lock_key (map_id : string) : string := "map_lock:" +:+ map_id.
Definition cancelled_key (map_id : string) : string := "messages:" +:+ map_id +:+ ":cancelled".

(** ** Collaborators outside this module *)

Record GeoTool : Type := mkGeoTool { g_name : string; g_description : string }.

Record QgisRequest : Type := mkQgisRequest {
  algorithm_id : string;
  qgis_inputs : list (string * string);
  output_presigned_put_urls : list (string * string);
  input_urls : list (string * string)
}.

(** An HTTP response of the QGIS service; [resp_json] is [response.json()]. *)
Record QgisResponse : Type := mkQgisResponse {
  status_code : nat;
  text : string;
  resp_json : Res json
}.

Record Env : Type := mkEnv {
  (* client.chat.completions.create, at iteration i, on the transcript (system
     prompt first) and the names of the tools offered *)
  chat_completions_create : nat -> list Message -> list string -> Res (option string * list ToolCall);
  get_system_prompt : string;
  has_openstreetmap_api_key : bool;
  get_tools : list GeoTool;
  generate_id : string -> nat -> string;
  (* str(v) of a value that is not a string, None or a bool *)
  py_str_other : json -> string;
  (* the text  type(v).__name__: repr(v)[:200] *)
  type_and_repr : json -> string;
  (* json.loads of a string found inside the arguments *)
  json_loads : string -> Res json;
  (* new_layer_from_postgis: connect, EXPLAIN, geometry checks, measures *)
  inspect_postgis_query : option string -> json -> Res PgInfo;
  generate_maplibre_layers_for_layer_id : string -> string -> Res json;
  (* execute_duckdb_query, then DataFrame.to_csv: the text and row_count *)
  execute_duckdb_query : json -> option string -> json -> Res (string * json);
  (* get_map_style_internal with the layers overridden, then verify_style_json_str *)
  verify_map_style : string -> json -> json -> Res unit;
  download_from_openstreetmap : string -> json -> json -> json -> UserContext -> Res json;
  (* connect_to_postgres and fetch: each row as its columns with str(value) *)
  fetch_postgis : option string -> string -> Res (list (list (string * string)));
  generate_presigned_url : string -> string -> string;
  qgis_post : QgisRequest -> Res QgisResponse;
  s3_get_object : string -> Res string;
  (* internal_upload_layer of postgres_routes, on map_id, the file name, the
     file content, user_id and project_id: the map_layers row it writes *)
  internal_upload_layer : string -> string -> string -> string -> string -> Res LayerRow;
  get_map_description : string -> string;
  get_system_messages : list Message -> string -> list string
}.

(** ** Database access *)

(** A value passed for a [text] query parameter: asyncpg takes [None] as
    NULL and refuses anything that is not a string. *)
Definition db_text (v : json) : Res (option string) :=
  match v with
  | JStr s => Ok (Some s)
  | JNull => Ok None
  | _ => Raise (mkExn DataError "invalid input for query argument (expected str)")
  end.

Definition opt_eqb (o : option string) (s : string) : bool :=
  match o with Some x => String.eqb x s | None => false end.

(** [SELECT layer_id FROM map_layers WHERE layer_id = $1 AND owner_uuid = $2] *)
Definition select_layer (layer_id : option string) (user_id : string) (w : World) : option LayerRow :=
  find (fun l => opt_eqb layer_id (l_layer_id l) && String.eqb (l_owner_uuid l) user_id) (map_layers w).

(** [SELECT connection_uri FROM project_postgres_connections WHERE id = $1 AND user_id = $2] *)
Definition select_connection (id : option string) (user_id : string) (w : World) : option PgConnRow :=
  find (fun c => opt_eqb id (c_id c) && String.eqb (c_user_id c) user_id)
    (project_postgres_connections w).

(** [SELECT ... FROM user_mundiai_maps WHERE id = $1 AND soft_deleted_at IS NULL] *)
Definition select_live_map (map_id : string) (w : World) : option MapRow :=
  find (fun m => String.eqb (m_id m) map_id && negb (m_soft_deleted m)) (user_mundiai_maps w).

(** [SELECT project_id FROM user_mundiai_maps WHERE id = $1] *)
Definition select_map (map_id : string) (w : World) : option MapRow :=
  find (fun m => String.eqb (m_id m) map_id) (user_mundiai_maps w).

(** [UPDATE map_layers SET name = $1 WHERE layer_id = $2] *)
Definition update_layer_name (name : option string) (layer_id : string) (w : World) : World :=
  set_map_layers
    (fun rows =>
       (fun l =>
          if String.eqb (l_layer_id l) layer_id
          then mkLayerRow (l_layer_id l) (l_owner_uuid l) name (l_type l) (l_s3_key l)
                 (l_postgis_connection_id l) (l_postgis_query l) (l_info l) (l_source_map_id l)
          else l) <$> rows) w.

Definition mem (x : string) (xs : list string) : bool := existsb (String.eqb x) xs.

(** [UPDATE user_mundiai_maps
     SET layers = CASE WHEN layers IS NULL THEN ARRAY[$1] ELSE array_append(layers, $1) END
     WHERE id = $2 AND (layers IS NULL OR NOT ($1 = ANY(layers)))] *)
Definition append_layer_row (layer_id map_id : string) (m : MapRow) : MapRow :=
  if String.eqb (m_id m) map_id then
    match m_layers m with
    | None =>
        mkMapRow (m_id m) (m_owner_uuid m) (m_soft_deleted m) (m_project_id m) (Some [layer_id])
    | Some layers =>
        if mem layer_id layers then m
        else mkMapRow (m_id m) (m_owner_uuid m) (m_soft_deleted m) (m_project_id m)
               (Some (layers ++ [layer_id]))
    end
  else m.

Definition append_layer (layer_id map_id : string) (w : World) : World :=
  set_maps (fun rows => append_layer_row layer_id map_id <$> rows) w.

Section Routes.

Context (env : Env).

(** [generate_id(prefix=...)] *)
Definition new_id (prefix : string) : M string :=
  fun w => (Ok (generate_id env prefix (id_seq w)), set_id_seq (S (id_seq w)) w).

(** [str(v)], as an f-string renders it *)
Definition py_str (v : json) : string :=
  match v with
  | JStr s => s
  | JNull => "None"
  | JBool true => "True"
  | JBool false => "False"
  | _ => py_str_other env v
  end.

(** ** [get_all_map_messages] *)
Definition get_all_map_messages (map_id : string) (session : UserContext) : M (list MessageRow) :=
  map_result ← gets (select_live_map map_id);
  match map_result with
  | None => raise (mkExn (HTTPException 404) "Map not found")
  | Some row =>
      if negb (String.eqb (get_user_id session) (m_owner_uuid row))
      then raise (mkExn (HTTPException 401) "Authentication required")
      else gets (fun w => filter (fun r => r_map_id r = map_id) (chat_completion_messages w))
  end.

(** ** [process_chat_interaction_task]: the parts of one run *)

Section Task.

Context (map_id : string) (session : UserContext) (user_id : string).

(** The nested [add_chat_completion_message]. *)
Definition add_chat_completion_message (message : Message) : M unit :=
  modify (insert_message map_id user_id message);;
  emit (EvAppend message).

(** [async with kue_ephemeral_action(map_id, ...)]: the notifier only
    publishes on the websocket channel and lets exceptions through. *)
Definition kue_ephemeral_action {A} (action : string) (body : M A) : M A := body.

Definition error_result (msg : string) : json :=
  JObj [("status", JStr "error"); ("error", JStr msg)].

Definition tool_message (tool_call : ToolCall) (tool_result : json) : Message :=
  ToolMessage (tc_id tool_call) tool_result.

(** *** new_layer_from_postgis *)

Definition insert_postgis_layer (layer_id : string) (layer_name : option string)
    (postgis_connection_id query : option string) (info : PgInfo) : M unit :=
  modify (set_map_layers (fun rows =>
    rows ++ [mkLayerRow layer_id user_id layer_name "postgis" None
               postgis_connection_id query (Some info) (Some map_id)])).

Definition insert_layer_style (style_id : string) (layer_id : string) (style : json) : M unit :=
  modify (set_layer_styles (fun rows => rows ++ [mkStyleRow style_id layer_id style user_id])).

(** [INSERT INTO map_layer_styles (map_id, layer_id, style_id)] *)
Definition insert_map_layer_style (layer_id style_id : string) : M unit :=
  styles ← gets map_layer_styles;
  match styles !! (map_id, layer_id) with
  | Some _ => raise (mkExn UniqueViolationError "duplicate key value violates unique constraint")
  | None => modify (set_map_layer_styles (fun t => <[(map_id, layer_id) := style_id]> t))
  end.

Definition create_postgis_layer (postgis_connection_id : option string)
    (query layer_name : json) : M json :=
  info ← lift (inspect_postgis_query env postgis_connection_id query);
  layer_id ← new_id "L";
  let maplibre_layers :=
    match geometry_type info with
    | Some g =>
        if negb (String.eqb g "") then
          match generate_maplibre_layers_for_layer_id env layer_id g with
          | Ok layers => layers
          | Raise _ => JNull
          end
        else JNull
    | None => JNull
    end in
  name ← lift (db_text layer_name);
  query_text ← lift (db_text query);
  insert_postgis_layer layer_id name postgis_connection_id query_text info;;
  (if truthy maplibre_layers then
     style_id ← new_id "S";
     insert_layer_style style_id layer_id maplibre_layers;;
     insert_map_layer_style layer_id style_id
   else ret tt);;
  modify (append_layer layer_id map_id);;
  ret (JObj [("status", JStr "success");
             ("message", JStr ("PostGIS layer created successfully with ID: " +:+ layer_id
                               +:+ " and added to map"));
             ("layer_id", JStr layer_id);
             ("query", query);
             ("added_to_map", JBool true)]).

Definition new_layer_from_postgis (tool_call : ToolCall) (tool_args : json) : M unit :=
  postgis_connection_id ← lift (py_get tool_args "postgis_connection_id");
  query ← lift (py_get tool_args "query");
  layer_name ← lift (py_get tool_args "layer_name");
  tool_result ←
    (if negb (truthy postgis_connection_id) || negb (truthy query) then
       ret (error_result "Missing required parameters (postgis_connection_id or query).")
     else
       connection_id ← lift (db_text postgis_connection_id);
       connection_result ← gets (select_connection connection_id user_id);
       match connection_result with
       | None =>
           ret (error_result ("PostGIS connection '" +:+ py_str postgis_connection_id
                              +:+ "' not found or you do not have access to it."))
       | Some _ =>
           kue_ephemeral_action "Adding layer from PostGIS..."
             (try_except (create_postgis_layer connection_id query layer_name)
                (fun e => ret (error_result ("Query validation failed: " +:+ exn_str e))))
       end);
  add_chat_completion_message (tool_message tool_call tool_result).

(** *** add_layer_to_map *)

Definition add_layer_to_map (tool_call : ToolCall) (tool_args : json) : M unit :=
  layer_id_to_add ← lift (py_get tool_args "layer_id");
  new_name ← lift (py_get tool_args "new_name");
  kue_ephemeral_action "Adding layer to map..."
    (layer_id ← lift (db_text layer_id_to_add);
     layer_exists ← gets (select_layer layer_id user_id);
     tool_result ←
       match layer_exists, layer_id with
       | Some _, Some id =>
           name ← lift (db_text new_name);
           modify (update_layer_name name id);;
           modify (append_layer id map_id);;
           ret (JObj [("status", JStr ("Layer '" +:+ py_str new_name +:+ "' (ID: " +:+ id
                                       +:+ ") added to map '" +:+ map_id +:+ "'."));
                      ("layer_id", layer_id_to_add);
                      ("name", new_name)])
       | _, _ =>
           ret (error_result ("Layer ID '" +:+ py_str layer_id_to_add
                              +:+ "' not found or you do not have permission to use it."))
       end;
     add_chat_completion_message (tool_message tool_call tool_result)).

(** *** query_duckdb_sql *)

Definition query_duckdb_sql (tool_call : ToolCall) (tool_args : json) : M unit :=
  layer_ids ← lift (py_get_default tool_args "layer_ids" (JArr [JNull]));
  first_layer ← lift (py_index0 layer_ids);
  sql_query ← lift (py_get tool_args "sql_query");
  head_n_rows ← lift (py_get_default tool_args "head_n_rows" (JNum (inject_Z 20)));
  layer_id ← lift (db_text first_layer);
  layer_exists ← gets (select_layer layer_id user_id);
  match layer_exists with
  | None =>
      add_chat_completion_message
        (tool_message tool_call
           (error_result ("Layer ID '" +:+ py_str first_layer
                          +:+ "' not found or you do not have permission to access it.")))
      (* continue *)
  | Some _ =>
      tool_result ←
        try_except
          (result ← kue_ephemeral_action "Querying with SQL..."
                      (lift (execute_duckdb_query env sql_query layer_id head_n_rows));
           let '(result_text, row_count) := result in
           if (25000 <? N.of_nat (String.length result_text))%N then
             ret (error_result ("DuckDB CSV result too large: "
                                +:+ pretty (String.length result_text)
                                +:+ " characters exceeds 25,000 character limit, try reducing columns or head_n_rows"))
           else
             ret (JObj [("status", JStr "success"); ("result", JStr result_text);
                        ("row_count", row_count); ("query", sql_query)]))
          (fun e =>
             match exn_class e with
             | HTTPException _ => ret (error_result ("DuckDB query error: " +:+ exn_str e))
             | _ => ret (error_result ("Error executing SQL query: " +:+ exn_str e))
             end);
      add_chat_completion_message (tool_message tool_call tool_result)
  end.

(** *** create_layer_style *)

Fixpoint dict_set (k : string) (v : json) (fields : list (string * json)) : list (string * json) :=
  match fields with
  | [] => [(k, v)]
  | (k', v') :: rest =>
      if String.eqb k k' then (k, v) :: rest else (k', v') :: dict_set k v rest
  end.

(** The loop that sets ["source-layer"] on every layer object. *)
Fixpoint set_source_layer (layers : list json) : Res (list json) :=
  match layers with
  | [] => Ok []
  | JObj fields :: rest =>
      match set_source_layer rest with
      | Ok rest' => Ok (JObj (dict_set "source-layer" (JStr "reprojectedfgb") fields) :: rest')
      | Raise e => Raise e
      end
  | other :: _ =>
      Raise (mkExn ValueError
               ("Expected layer object to be a dict, but got " +:+ type_and_repr env other))
  end.

Definition store_layer_style (style_id : string) (layer_id maplibre_json_layers_str : json) : M json :=
  layers ← match maplibre_json_layers_str with
            | JStr s => lift (json_loads env s)
            | _ => raise (mkExn TypeError "the JSON object must be str, bytes or bytearray")
            end;
  items ← match layers with
           | JArr items => lift (set_source_layer items)
           | other =>
               raise (mkExn ValueError
                        ("Expected a JSON array of layer objects, but got "
                         +:+ type_and_repr env other))
           end;
  lift (verify_map_style env map_id layer_id (JArr items));;
  layer ← lift (db_text layer_id);
  (* layer_id is truthy here, so the parameter is never NULL *)
  insert_layer_style style_id (default "" layer) (JArr items);;
  ret (JObj [("status", JStr "success"); ("style_id", JStr style_id); ("layer_id", layer_id)]).

Definition create_layer_style (tool_call : ToolCall) (tool_args : json) : M unit :=
  layer_id ← lift (py_get tool_args "layer_id");
  maplibre_json_layers_str ← lift (py_get tool_args "maplibre_json_layers_str");
  tool_result ←
    (if negb (truthy layer_id) || negb (truthy maplibre_json_layers_str) then
       ret (error_result "Missing required parameters (layer_id or maplibre_json_layers_str).")
     else
       style_id ← new_id "S";
       try_except (store_layer_style style_id layer_id maplibre_json_layers_str)
         (fun e =>
            match exn_class e with
            | JSONDecodeError =>
                ret (JObj [("status", JStr "error");
                           ("error", JStr ("Invalid JSON format: " +:+ exn_str e));
                           ("layer_id", layer_id)])
            | ValueError =>
                ret (JObj [("status", JStr "error"); ("error", JStr (exn_str e));
                           ("layer_id", layer_id)])
            | StyleValidationError =>
                ret (JObj [("status", JStr "error");
                           ("error", JStr ("Style validation failed: " +:+ exn_str e));
                           ("layer_id", layer_id)])
            | _ => raise e
            end));
  add_chat_completion_message (tool_message tool_call tool_result).

(** *** set_active_style *)

Definition set_active_style (tool_call : ToolCall) (tool_args : json) : M unit :=
  layer_id ← lift (py_get tool_args "layer_id");
  style_id ← lift (py_get tool_args "style_id");
  tool_result ←
    (if negb (truthy layer_id && truthy style_id) then
       ret (error_result "Missing required parameters (layer_id, or style_id).")
     else
       kue_ephemeral_action "Choosing a new style"
         (layer ← lift (db_text layer_id);
          style ← lift (db_text style_id);
          (* INSERT ... ON CONFLICT (map_id, layer_id) DO UPDATE SET style_id = $3;
             both values are truthy here, so neither parameter is NULL *)
          modify (set_map_layer_styles
                    (fun t => <[(map_id, default "" layer) := default "" style]> t)));;
       ret (JObj [("status", JStr "success");
                  ("message", JStr ("Style " +:+ py_str style_id +:+ " set as active for layer "
                                    +:+ py_str layer_id +:+ ", user can now see it"));
                  ("layer_id", layer_id); ("style_id", style_id)]));
  add_chat_completion_message (tool_message tool_call tool_result).

(** *** download_from_openstreetmap *)

Fixpoint join (sep : string) (parts : list string) : string :=
  match parts with
  | [] => ""
  | [x] => x
  | x :: rest => x +:+ sep +:+ join sep rest
  end.

(** [[f(layer) for layer in uploaded_layers]] where [f] may raise *)
Fixpoint map_res {A B} (f : A -> Res B) (xs : list A) : Res (list B) :=
  match xs with
  | [] => Ok []
  | x :: rest =>
      match f x with
      | Ok y => match map_res f rest with Ok ys => Ok (y :: ys) | Raise e => Raise e end
      | Raise e => Raise e
      end
  end.

(** An item of [', '.join(...)] has to be a string. *)
Definition join_item (v : json) : Res string :=
  match v with
  | JStr s => Ok s
  | _ => Raise (mkExn TypeError "sequence item: expected str instance")
  end.

Definition res_bind {A B} (r : Res A) (f : A -> Res B) : Res B :=
  match r with Ok a => f a | Raise e => Raise e end.

(** The instructions added to a successful download. *)
Definition add_kue_instructions (new_layer_name tool_result : json) : Res json :=
  res_bind (py_get tool_result "status") (fun status_value =>
  res_bind (py_get tool_result "uploaded_layers") (fun uploaded_layers =>
  if match status_value with JStr s => String.eqb s "success" | _ => false end
     && truthy uploaded_layers
  then
    res_bind (py_iter uploaded_layers) (fun layers =>
    res_bind (map_res (fun layer =>
                res_bind (py_getitem layer "geometry_type") (fun g =>
                Ok (py_str new_layer_name +:+ "_" +:+ py_str g))) layers) (fun layer_names =>
    res_bind (map_res (fun layer => py_getitem layer "layer_id") layers) (fun ids =>
    res_bind (map_res join_item ids) (fun layer_ids =>
    match tool_result with
    | JObj fields =>
        Ok (JObj (dict_set "kue_instructions"
                    (JStr ("New layers available: " +:+ join ", " layer_names
                           +:+ " (IDs: " +:+ join ", " layer_ids
                           +:+ "), all currently invisible. To make any of these visible to the user on their map, use "
                           +:+ dq +:+ "add_layer_to_map" +:+ dq
                           +:+ " with the layer_id and a descriptive new_name."))
                    fields))
    | _ => Raise (mkExn TypeError "object does not support item assignment")
    end))))
  else Ok tool_result)).

Definition handle_download_from_openstreetmap (tool_call : ToolCall) (tool_args : json) : M unit :=
  tags ← lift (py_get tool_args "tags");
  bbox ← lift (py_get tool_args "bbox");
  new_layer_name ← lift (py_get tool_args "new_layer_name");
  tool_result ←
    (if negb (truthy tags && truthy bbox && truthy new_layer_name) then
       ret (error_result "Missing required parameters for OpenStreetMap download.")
     else
       try_except
         (kue_ephemeral_action ("Downloading data from OpenStreetMap: " +:+ py_str tags)
            (lift (download_from_openstreetmap env map_id bbox tags new_layer_name session)))
         (fun e => ret (error_result ("Error downloading from OpenStreetMap: " +:+ exn_str e))));
  tool_result ← lift (add_kue_instructions new_layer_name tool_result);
  add_chat_completion_message (tool_message tool_call tool_result).

(** *** query_postgis_database *)

(** The text built from the fetched rows. *)
Definition format_rows (result_data : list (list (string * string))) : string :=
  match result_data with
  | [[(_, single_value)]] => "Query result: " +:+ single_value
  | [] => "No results"
  | first :: _ =>
      let headers := fst <$> first in
      let lookup (row : list (string * string)) (h : string) : string :=
        match find (fun kv => String.eqb (fst kv) h) row with
        | Some kv => snd kv
        | None => ""
        end in
      let tab := String (ascii_of_nat 9) EmptyString in
      let newline := String (ascii_of_nat 10) EmptyString in
      join newline (join tab headers :: ((fun row => join tab (lookup row <$> headers)) <$> result_data))
  end.

Definition run_postgis_query (connection_id : option string) (limited : string) : M json :=
  kue_ephemeral_action "Querying PostgreSQL database..."
    (rows ← lift (fetch_postgis env connection_id limited);
     match rows with
     | [] =>
         ret (JObj [("status", JStr "success");
                    ("message", JStr "Query executed successfully but returned no rows");
                    ("row_count", JNum (inject_Z 0)); ("query", JStr limited)])
     | _ =>
         let result_text := format_rows rows in
         if (25000 <? N.of_nat (String.length result_text))%N then
           ret (error_result ("Query result too large: " +:+ pretty (String.length result_text)
                              +:+ " characters exceeds 25,000 character limit. Try reducing the number of columns or rows."))
         else
           ret (JObj [("status", JStr "success"); ("result", JStr result_text);
                      ("row_count", JNum (inject_Z (Z.of_nat (length rows))));
                      ("query", JStr limited)])
     end).

(** The [except Exception] clause of the query: it reads [limited_query],
    which is unbound when [strip] itself raised in the first such call. *)
Definition postgis_query_failed (e : Exn) : M json :=
  bound ← gets limited_query;
  match bound with
  | Some q =>
      ret (JObj [("status", JStr "error");
                 ("error", JStr ("PostgreSQL query error: " +:+ exn_str e));
                 ("query", JStr q)])
  | None =>
      raise (mkExn UnboundLocalError
               "cannot access local variable 'limited_query' where it is not associated with a value")
  end.

Definition query_postgis_database (tool_call : ToolCall) (tool_args : json) : M unit :=
  postgis_connection_id ← lift (py_get tool_args "postgis_connection_id");
  sql_query ← lift (py_get tool_args "sql_query");
  let finish (tool_result : json) := add_chat_completion_message (tool_message tool_call tool_result) in
  if negb (truthy postgis_connection_id) || negb (truthy sql_query) then
    finish (error_result "Missing required parameters (postgis_connection_id or sql_query)")
  else
    connection_id ← lift (db_text postgis_connection_id);
    connection_result ← gets (select_connection connection_id user_id);
    match connection_result with
    | None =>
        finish (error_result ("PostGIS connection '" +:+ py_str postgis_connection_id
                              +:+ "' not found or you do not have access to it."))
    | Some _ =>
        match sql_query with
        | JStr text =>
            let limited := strip text in
            modify (set_limited_query limited);;
            match limit_match limited with
            | Some limit_value =>
                if (1000 <? limit_value)%Z then
                  add_chat_completion_message
                    (tool_message tool_call
                       (error_result ("LIMIT value " +:+ pretty limit_value
                                      +:+ " exceeds maximum allowed limit of 1000")))
                  (* continue *)
                else
                  tool_result ← try_except (run_postgis_query connection_id limited)
                                  postgis_query_failed;
                  finish tool_result
            | None =>
                add_chat_completion_message
                  (tool_message tool_call
                     (error_result "Query must include a LIMIT clause with a value less than 1000"))
                (* continue *)
            end
        | _ =>
            (* sql_query.strip() raises AttributeError inside the try *)
            tool_result ← postgis_query_failed (mkExn AttributeError "object has no attribute 'strip'");
            finish tool_result
        end
    end.

(** *** zoom_to_bounds *)

Definition check_bounds (bounds : json) : M json :=
  coords ← lift (py_iter bounds);
  match coords with
  | [west; south; east; north] =>
      match py_number west, py_number south, py_number east, py_number north with
      | Some w, Some s, Some e, Some n =>
          if Qle_bool e w || Qle_bool n s then
            raise (mkExn ValueError "Invalid bounds: west must be < east and south must be < north")
          else if negb (Qle_bool (inject_Z (-180)) w && Qle_bool w (inject_Z 180)
                        && Qle_bool (inject_Z (-180)) e && Qle_bool e (inject_Z 180)
                        && Qle_bool (inject_Z (-90)) s && Qle_bool s (inject_Z 90)
                        && Qle_bool (inject_Z (-90)) n && Qle_bool n (inject_Z 90)) then
            raise (mkExn ValueError "Bounds must be in valid WGS84 range")
          else
            (* the ephemeral action carries the bounds to the frontend *)
            ret (JObj [("status", JStr "success"); ("bounds", bounds)])
      | _, _, _, _ => raise (mkExn ValueError "All bounds coordinates must be numbers")
      end
  | _ => raise (mkExn ValueError "not enough values to unpack")
  end.

Definition zoom_to_bounds (tool_call : ToolCall) (tool_args : json) : M unit :=
  bounds ← lift (py_get tool_args "bounds");
  description ← lift (py_get_default tool_args "zoom_description" (JStr ""));
  tool_result ←
    (if negb (truthy bounds) then
       ret (error_result "Invalid bounds. Must be an array of 4 numbers [west, south, east, north]")
     else
       n ← lift (py_len bounds);
       if negb (n =? 4)%nat then
         ret (error_result "Invalid bounds. Must be an array of 4 numbers [west, south, east, north]")
       else
         try_except (check_bounds bounds)
           (fun e =>
              match exn_class e with
              | ValueError => ret (error_result (exn_str e))
              | _ => ret (error_result ("Error zooming to bounds: " +:+ exn_str e))
              end));
  add_chat_completion_message (tool_message tool_call tool_result).

(** *** [run_geoprocessing_tool] *)

Definition loads (a : Arguments) : Res json :=
  match a with
  | Json v => Ok v
  | Malformed reason => Raise (mkExn JSONDecodeError reason)
  end.

(** [is_layer_id] *)
Definition is_layer_id (s : json) : Res bool :=
  match s with
  | JStr EmptyString => Raise (mkExn IndexError "string index out of range")
  | JStr (String c rest) =>
      Ok (Ascii.eqb c "L"%char && (String.length (String c rest) =? 12)%nat)
  | _ => Ok false
  end.

(** [name.replace("_", ":")] *)
Definition underscores_to_colons (name : string) : string :=
  string_of_list_ascii
    ((fun c => if Ascii.eqb c "_"%char then ":"%char else c) <$> list_ascii_of_string name).

(** [text.count(pattern)]: occurrences that do not overlap. *)
Fixpoint count_from (pattern : string) (skip : nat) (text : string) : nat :=
  match text with
  | EmptyString => 0
  | String _ rest =>
      match skip with
      | S k => count_from pattern k rest
      | O =>
          if String.prefix pattern text
          then S (count_from pattern (String.length pattern - 1) rest)
          else count_from pattern 0 rest
      end
  end.

Definition lower (text : string) : string :=
  string_of_list_ascii (to_lower <$> list_ascii_of_string text).

Record OutputInfo : Type := mkOutput {
  o_layer_id : string;
  o_s3_key : string;
  o_layer_type : string;
  o_file_extension : string
}.

(** The loop over [mapped_args.items()]: layer ids become presigned input
    URLs, everything else a string parameter. *)
Fixpoint resolve_inputs (tool_call : ToolCall) (items : list (string * json))
    : M (list (string * string) * list (string * string)) :=
  match items with
  | [] => ret ([], [])
  | (key, val) :: rest =>
      if String.eqb key "OUTPUT" then resolve_inputs tool_call rest
      else
        layer_like ← lift (is_layer_id val);
        if (layer_like : bool) then
          layer_data ← gets (select_layer (Some (py_str val)) user_id);
          match layer_data ≫= l_s3_key with
          | Some s3_key =>
              if String.eqb s3_key "" then
                raise (mkExn (RecoverableToolCallError (tc_id tool_call))
                         ("Layer " +:+ py_str val +:+ " not found or has no S3 key"))
              else
                others ← resolve_inputs tool_call rest;
                ret (fst others, (key, generate_presigned_url env "get_object" s3_key) :: snd others)
          | None =>
              raise (mkExn (RecoverableToolCallError (tc_id tool_call))
                       ("Layer " +:+ py_str val +:+ " not found or has no S3 key"))
          end
        else
          others ← resolve_inputs tool_call rest;
          ret ((key, py_str val) :: fst others, snd others)
  end.

(** The check that every declared output was uploaded; [Some] is the error
    the function returns. *)
Fixpoint check_uploaded (params : list string) (upload_results qgis_result : json)
    : Res (option json) :=
  match params with
  | [] => Ok None
  | param_name :: rest =>
      let not_uploaded :=
        Ok (Some (JObj [("status", JStr "error");
                        ("error", JStr ("QGIS processing completed but output file " +:+ param_name
                                        +:+ " was not uploaded successfully"));
                        ("qgis_result", qgis_result)])) in
      res_bind (py_in param_name upload_results) (fun present =>
      if (present : bool) then
        res_bind (py_getitem upload_results param_name) (fun entry =>
        res_bind (py_getitem entry "uploaded") (fun uploaded =>
        if truthy uploaded then check_uploaded rest upload_results qgis_result
        else not_uploaded))
      else not_uploaded)
  end.

(** Modelled from the spec: [internal_upload_layer] of
    [src/routes/postgres_routes.py], which is not among the sources.  It is
    the ingestion path of direct uploads: it produces one new layer with its
    metadata and, called with [add_layer_to_map=True], attaches it to the
    map.  The row itself is the collaborator's. *)
Definition upload_layer (filename file_content project_id : string) : M LayerRow :=
  emit (EvIngest filename);;
  row ← lift (internal_upload_layer env map_id filename file_content user_id project_id);
  modify (set_map_layers (fun rows => rows ++ [row]));;
  modify (append_layer (l_layer_id row) map_id);;
  ret row.

(** The loop that ingests every uploaded output as a new layer. *)
Fixpoint create_layers (project_id : string) (mappings : list (string * OutputInfo))
    : M (list json) :=
  match mappings with
  | [] => ret []
  | (param_name, layer_info) :: rest =>
      file_content ← lift (s3_get_object env (o_s3_key layer_info));
      let filename := o_layer_id layer_info +:+ o_file_extension layer_info in
      upload_result ← upload_layer filename file_content project_id;
      created ← create_layers project_id rest;
      ret (JObj [("param_name", JStr param_name); ("layer_id", JStr (l_layer_id upload_result));
                 ("layer_name", JStr filename); ("layer_type", JStr (o_layer_type layer_info))]
           :: created)
  end.

Definition geoprocessing_body (tool_call : ToolCall) (tool_def : GeoTool)
    (algorithm : string) (mapped_args : list (string * json)) : M json :=
  inputs ← resolve_inputs tool_call mapped_args;
  let '(input_params, input_url_map) := inputs in
  map_data ← gets (select_map map_id);
  project_id ← match map_data with
                | Some row => ret (m_project_id row)
                | None => raise (mkExn TypeError "'NoneType' object is not subscriptable")
                end;
  output_layer_id ← new_id "L";
  let tool_description := lower (g_description tool_def) in
  let vector_count := count_from "vector" 0 tool_description in
  let raster_count := count_from "raster" 0 tool_description in
  let '(file_extension, layer_type) :=
    if (raster_count <? vector_count)%nat then (".fgb", "vector") else (".tif", "raster") in
  let output_s3_key :=
    "uploads/" +:+ user_id +:+ "/" +:+ project_id +:+ "/" +:+ output_layer_id +:+ file_extension in
  let output_presigned_url := generate_presigned_url env "put_object" output_s3_key in
  let output_layer_mappings :=
    [("OUTPUT", mkOutput output_layer_id output_s3_key layer_type file_extension)] in
  let qgis_request :=
    mkQgisRequest algorithm input_params [("OUTPUT", output_presigned_url)] input_url_map in
  kue_ephemeral_action ("QGIS running " +:+ algorithm +:+ "...")
    (response ← lift (qgis_post env qgis_request);
     if negb (status_code response =? 200)%nat then
       ret (JObj [("status", JStr "error");
                  ("error", JStr ("QGIS processing failed: " +:+ pretty (status_code response)
                                  +:+ " - " +:+ text response));
                  ("algorithm_id", JStr algorithm)])
     else
       qgis_result ← lift (resp_json response);
       upload_results ← lift (py_get_default qgis_result "upload_results" (JObj []));
       missing ← lift (check_uploaded (fst <$> output_layer_mappings) upload_results qgis_result);
       match missing with
       | Some failure => ret failure
       | None =>
           created_layers ← create_layers project_id output_layer_mappings;
           ret (JObj [("status", JStr "success");
                      ("message", JStr (tc_name tool_call +:+ " completed successfully"));
                      ("algorithm_id", JStr algorithm);
                      ("qgis_result", qgis_result);
                      ("created_layers", JArr created_layers)])
       end).

Definition run_geoprocessing_tool (tool_call : ToolCall) : M json :=
  let function_name := tc_name tool_call in
  tool_args ← lift (loads (tc_arguments tool_call));
  tool_def ← match find (fun tool => String.eqb function_name (g_name tool)) (get_tools env) with
              | Some tool => ret tool
              | None =>
                  raise (mkExn UnboundLocalError
                           "cannot access local variable 'tool_def' where it is not associated with a value")
              end;
  let algorithm := underscores_to_colons (g_name tool_def) in
  mapped_args ← match tool_args with
                 | JObj fields =>
                     ret (dict_set "user_uuid" (JStr user_id) (dict_set "map_id" (JStr map_id) fields))
                 | JArr _ => raise (mkExn TypeError "list indices must be integers or slices, not str")
                 | _ => raise (mkExn AttributeError "object has no attribute 'copy'")
                 end;
  try_except (geoprocessing_body tool_call tool_def algorithm mapped_args)
    (fun e =>
       match exn_class e with
       | UnsupportedAlgorithmError =>
           ret (error_result ("Unsupported algorithm parameter: " +:+ exn_str e))
       | InvalidInputFormatError =>
           ret (error_result ("Invalid input format: " +:+ exn_str e))
       | _ =>
           ret (JObj [("status", JStr "error");
                      ("error", JStr ("Unexpected error running geoprocessing: " +:+ dq +:+ exn_str e
                                      +:+ dq +:+ ", this is likely a Mundi bug."));
                      ("algorithm_id", JStr algorithm)])
       end).

(** *** The dispatch of one tool call *)

Definition dispatch_tool_call (geoprocessing_function_names : list string)
    (tool_call : ToolCall) : M unit :=
  let function_name := tc_name tool_call in
  tool_args ← lift (loads (tc_arguments tool_call));
  emit (EvToolCallStarted tool_call);;
  if String.eqb function_name "new_layer_from_postgis" then
    new_layer_from_postgis tool_call tool_args
  else if String.eqb function_name "add_layer_to_map" then
    add_layer_to_map tool_call tool_args
  else if String.eqb function_name "query_duckdb_sql" then
    query_duckdb_sql tool_call tool_args
  else if String.eqb function_name "create_layer_style" then
    create_layer_style tool_call tool_args
  else if String.eqb function_name "set_active_style" then
    set_active_style tool_call tool_args
  else if String.eqb function_name "download_from_openstreetmap" then
    handle_download_from_openstreetmap tool_call tool_args
  else if String.eqb function_name "query_postgis_database" then
    query_postgis_database tool_call tool_args
  else if String.eqb function_name "zoom_to_bounds" then
    zoom_to_bounds tool_call tool_args
  else if mem function_name geoprocessing_function_names then
    tool_result ← run_geoprocessing_tool tool_call;
    add_chat_completion_message (tool_message tool_call tool_result)
  else
    raise (mkExn (HTTPException 400) "Bad Request").

(** *** The tools offered to the model (their names) *)

Definition core_tool_names : list string :=
  ["new_layer_from_postgis"; "add_layer_to_map"; "create_layer_style"; "set_active_style";
   "query_duckdb_sql"; "query_postgis_database"; "zoom_to_bounds"].

Definition geoprocessing_names : list string := g_name <$> get_tools env.

Definition tools_payload : list string :=
  core_tool_names
  ++ (if has_openstreetmap_api_key env then ["download_from_openstreetmap"] else [])
  ++ geoprocessing_names.

Definition kue_notify_error : M unit := emit EvNotifyError.

(** *** One iteration of [for i in range(25)] *)

Definition loop_iteration (i : nat) : M LoopControl :=
  cancelled ← redis_get (cancelled_key map_id);
  emit (EvCancelCheck i (truthy_reply cancelled));;
  if truthy_reply cancelled then
    redis_delete (cancelled_key map_id);;
    ret Break
  else
    updated_messages_response ← get_all_map_messages map_id session;
    let openai_messages := r_message_json <$> updated_messages_response in
    let transcript := SystemMessage (get_system_prompt env) :: openai_messages in
    emit (EvModelCall i transcript tools_payload);;
    match chat_completions_create env i transcript tools_payload with
    | Raise e =>
        kue_notify_error;;
        ret Break
    | Ok (content, tool_calls) =>
        let assistant_message := AssistantMessage content tool_calls in
        add_chat_completion_message assistant_message;;
        match tool_calls with
        | [] => ret Break
        | _ =>
            for_each tool_calls (dispatch_tool_call geoprocessing_names);;
            ret Continue
        end
    end.

(** [redis.delete(f"map_lock:{map_id}")], the last statement of the task. *)
Definition unlock : M unit :=
  redis_delete (lock_key map_id);;
  emit (EvLockDelete (lock_key map_id)).

End Task.

(** ** [cancel_map_message] *)
Definition cancel_map_message (map_id : string) (session : UserContext) : M json :=
  map_result ← gets (select_live_map map_id);
  match map_result with
  | None => raise (mkExn (HTTPException 404) "Map not found")
  | Some row =>
      if negb (String.eqb (get_user_id session) (m_owner_uuid row))
      then raise (mkExn (HTTPException 401) "Authentication required")
      else
        redis_set (cancelled_key map_id) "true" (Some 300);;
        ret (JObj [("status", JStr "cancelled")])
  end.

(** Another request served while the task runs: what it raises goes to its
    own caller, not to the task. *)
Definition serve {A} (request : M A) : M unit :=
  try_except (request;; ret tt) (fun _ => ret tt).

(** ** [process_chat_interaction_task]

    [cancels i] lists the callers whose cancel request is served after
    iteration [i - 1] has read the flag and before iteration [i] reads it;
    the flag is read nowhere else, so when in between the request lands
    makes no difference. *)
Definition task_with_cancels (cancels : nat -> list UserContext)
    (map_id : string) (session : UserContext) (user_id : string) : M unit :=
  modify unbind_limited_query;;
  for_range 0 25
    (fun i =>
       for_each (cancels i) (fun caller => serve (cancel_map_message map_id caller));;
       loop_iteration map_id session user_id i);;
  unlock map_id.

Definition process_chat_interaction_task (map_id : string) (session : UserContext)
    (user_id : string) : M unit :=
  modify unbind_limited_query;;
  for_range 0 25 (loop_iteration map_id session user_id);;
  unlock map_id.

(** ** [send_map_message] *)

Record MessageSendResponse : Type := mkResponse { message_id : string; status : string }.

Definition send_map_message (map_id : string) (message : Message) (session : UserContext)
    : M MessageSendResponse :=
  map_result ← gets (select_live_map map_id);
  match map_result with
  | None => raise (mkExn (HTTPException 404) "Map not found")
  | Some row =>
      let user_id := get_user_id session in
      if negb (String.eqb user_id (m_owner_uuid row))
      then raise (mkExn (HTTPException 401) "Authentication required")
      else
        locked ← redis_get (lock_key map_id);
        if truthy_reply locked then
          raise (mkExn (HTTPException 409) "Map is currently being processed by another request")
        else
          redis_set (lock_key map_id) "locked" (Some 60);;
          messages_response ← get_all_map_messages map_id session;
          let current_messages := r_message_json <$> messages_response in
          let description_text := get_map_description env map_id in
          let system_messages := get_system_messages env current_messages description_text in
          for_each system_messages
            (fun content => modify (insert_message map_id user_id (SystemMessage content)));;
          user_msg_id ← gets message_seq;
          modify (insert_message map_id user_id message);;
          modify (set_background_tasks (fun tasks => tasks ++ [mkTask map_id session user_id]));;
          ret (mkResponse (pretty user_msg_id) "processing_started")
  end.

End Routes.

(** * Specification vocabulary *)

(** The columns of a map row that authentication reads. *)
Definition map_auth (m : MapRow) : string * string * bool :=
  (m_id m, m_owner_uuid m, m_soft_deleted m).

(** The transcript of a map: the messages [get_all_map_messages] returns. *)
Definition log_of (map_id : string) (w : World) : list Message :=
  r_message_json <$> filter (fun r => r_map_id r = map_id) (chat_completion_messages w).

(** The messages passed to [add_chat_completion_message], in order. *)
Fixpoint appended (evs : list Event) : list Message :=
  match evs with
  | [] => []
  | EvAppend m :: rest => m :: appended rest
  | _ :: rest => appended rest
  end.

Fixpoint count (p : Event -> bool) (evs : list Event) : nat :=
  match evs with
  | [] => 0
  | e :: rest => (if p e then 1 else 0) + count p rest
  end.

Definition is_model_call (e : Event) : bool :=
  match e with EvModelCall _ _ _ => true | _ => false end.

Definition is_lock_delete (e : Event) : bool :=
  match e with EvLockDelete _ => true | _ => false end.

Definition is_cancel_check (e : Event) : bool :=
  match e with EvCancelCheck _ _ => true | _ => false end.

Definition is_ingest (e : Event) : bool :=
  match e with EvIngest _ => true | _ => false end.

(** Rounds run: the number of model calls issued. *)
Definition model_calls (evs : list Event) : nat := count is_model_call evs.

Definition lock_deletes (evs : list Event) : nat := count is_lock_delete evs.

(** The cancellation flag as the loop reads it. *)
Definition flag_set (map_id : string) (w : World) : bool :=
  truthy_reply (value <$> redis w !! cancelled_key map_id).

(** The lock as [send_map_message] reads it. *)
Definition lock_held (map_id : string) (w : World) : bool :=
  truthy_reply (value <$> redis w !! lock_key map_id).

(** The caller passes the checks of [cancel_map_message] and
    [send_map_message]: the map is live and the caller owns it. *)
Definition authorised (map_id : string) (w : World) (caller : UserContext) : bool :=
  match select_live_map map_id w with
  | Some row => String.eqb (get_user_id caller) (m_owner_uuid row)
  | None => false
  end.

(** [w'] comes from [w] by steps that emit [evs]: Redis and the
    authentication columns are as before, and the transcript grew by the
    appended messages. *)
Definition grows (map_id : string) (w w' : World) (evs : list Event) : Prop :=
  redis w' = redis w /\
  map_auth <$> user_mundiai_maps w' = map_auth <$> user_mundiai_maps w /\
  trace w' = trace w ++ evs /\
  log_of map_id w' = log_of map_id w ++ appended evs.

(** ** The events of a run, by construct *)

(** One handler: ingestions, then the one tool message when it returns. *)
Definition handler_events (tc : ToolCall) (r : Res unit) (evs : list Event) : Prop :=
  exists ingests,
    match r with
    | Ok _ => exists res, evs = (EvIngest <$> ingests) ++ [EvAppend (ToolMessage (tc_id tc) res)]
    | Raise _ => evs = EvIngest <$> ingests
    end.

Definition handled (map_id : string) (tc : ToolCall) (h : M unit) : Prop :=
  forall w r w', h w = (r, w') -> exists evs, grows map_id w w' evs /\ handler_events tc r evs.

(** One dispatch: nothing when the arguments do not parse, else the start
    event and the handler's events. *)
Definition dispatch_events (tc : ToolCall) (r : Res unit) (evs : list Event) : Prop :=
  (is_ok r = false /\ evs = []) \/
  (exists rest, evs = EvToolCallStarted tc :: rest /\ handler_events tc r rest).

(** The dispatch loop of one round: it stops at the first call that raises. *)
Inductive round_events : list ToolCall -> Res unit -> list Event -> Prop :=
| round_done : round_events [] (Ok tt) []
| round_next tc tcs r evs1 evs2 :
    dispatch_events tc (Ok tt) evs1 ->
    round_events tcs r evs2 ->
    round_events (tc :: tcs) r (evs1 ++ evs2)
| round_abort tc tcs e evs1 :
    dispatch_events tc (Raise e) evs1 ->
    round_events (tc :: tcs) (Raise e) evs1.

Definition continue_or_raise (r : Res unit) : Res LoopControl :=
  match r with Ok _ => Ok Continue | Raise e => Raise e end.

(** One iteration, from transcript [log] with the flag read as [flag]. *)
Inductive iteration_events (env : Env) (i : nat) (log : list Message)
    : bool -> Res LoopControl -> list Event -> Prop :=
| it_cancelled :
    iteration_events env i log true (Ok Break) [EvCancelCheck i true]
| it_denied e :
    iteration_events env i log false (Raise e) [EvCancelCheck i false]
| it_model_failed e :
    chat_completions_create env i (SystemMessage (get_system_prompt env) :: log) (tools_payload env)
      = Raise e ->
    iteration_events env i log false (Ok Break)
      [EvCancelCheck i false;
       EvModelCall i (SystemMessage (get_system_prompt env) :: log) (tools_payload env);
       EvNotifyError]
| it_final content :
    chat_completions_create env i (SystemMessage (get_system_prompt env) :: log) (tools_payload env)
      = Ok (content, []) ->
    iteration_events env i log false (Ok Break)
      [EvCancelCheck i false;
       EvModelCall i (SystemMessage (get_system_prompt env) :: log) (tools_payload env);
       EvAppend (AssistantMessage content [])]
| it_tools content tcs r evs :
    chat_completions_create env i (SystemMessage (get_system_prompt env) :: log) (tools_payload env)
      = Ok (content, tcs) ->
    tcs <> [] ->
    round_events tcs r evs ->
    iteration_events env i log false (continue_or_raise r)
      (EvCancelCheck i false
       :: EvModelCall i (SystemMessage (get_system_prompt env) :: log) (tools_payload env)
       :: EvAppend (AssistantMessage content tcs) :: evs).

(** [n] iterations from index [start]. *)
Inductive loop_events (env : Env) : nat -> nat -> list Message -> Res unit -> list Event -> Prop :=
| loop_exhausted start log : loop_events env start 0 log (Ok tt) []
| loop_break start n log flag evs :
    iteration_events env start log flag (Ok Break) evs ->
    loop_events env start (S n) log (Ok tt) evs
| loop_raise start n log flag e evs :
    iteration_events env start log flag (Raise e) evs ->
    loop_events env start (S n) log (Raise e) evs
| loop_continue start n log flag evs1 r evs2 :
    iteration_events env start log flag (Ok Continue) evs1 ->
    loop_events env (S start) n (log ++ appended evs1) r evs2 ->
    loop_events env start (S n) log r (evs1 ++ evs2).

(** ** Every invocation answered, in order, before the next model call

    [scan pending evs] reads the events with the invocation ids that still
    await their result: an assistant message may only be appended, and a
    model call only be issued, when none is pending; the assistant message
    makes its invocations pending in the order emitted; a tool message must
    answer the first pending invocation, which it removes; a dispatch must
    be that of the first pending invocation. *)
Definition scan_step (pending : list string) (e : Event) : option (list string) :=
  match e with
  | EvModelCall _ _ _ => match pending with [] => Some [] | _ => None end
  | EvAppend (AssistantMessage _ tcs) =>
      match pending with [] => Some (tc_id <$> tcs) | _ => None end
  | EvAppend (ToolMessage id _) =>
      match pending with
      | p :: rest => if String.eqb p id then Some rest else None
      | [] => None
      end
  | EvToolCallStarted tc =>
      match pending with
      | p :: _ => if String.eqb p (tc_id tc) then Some pending else None
      | [] => None
      end
  | _ => Some pending
  end.

Fixpoint scan (pending : list string) (evs : list Event) : option (list string) :=
  match evs with
  | [] => Some pending
  | e :: rest =>
      match scan_step pending e with
      | Some pending' => scan pending' rest
      | None => None
      end
  end.

(** The invocations dispatched, in the order of their dispatch. *)
Fixpoint dispatched (evs : list Event) : list ToolCall :=
  match evs with
  | [] => []
  | EvToolCallStarted tc :: rest => tc :: dispatched rest
  | _ :: rest => dispatched rest
  end.

(** The dispatch step of [tc] returns: the arguments parse, a branch of the
    dispatch knows the name and no exception leaves the handler. *)
Definition dispatch_returns (env : Env) (map_id : string) (session : UserContext)
    (user_id : string) (tc : ToolCall) : Prop :=
  forall w,
    is_ok (fst (dispatch_tool_call env map_id session user_id (geoprocessing_names env) tc w))
    = true.

(** The model always asks for at least one tool. *)
Definition always_calls_tools (env : Env) : Prop :=
  forall i transcript tools,
    exists content tc tcs, chat_completions_create env i transcript tools = Ok (content, tc :: tcs).

(** The value under ["status"] of a tool result. *)
Definition status_of (tool_result : json) : option json :=
  match tool_result with
  | JObj fields => assoc "status" fields
  | _ => None
  end.

Definition count_layer (layer_id : string) (layers : option (list string)) : nat :=
  match layers with
  | Some ids => length (List.filter (String.eqb layer_id) ids)
  | None => 0
  end.

(** The [tool_result] of [add_layer_to_map] when the layer is found. *)
Definition attach_report (env : Env) (map_id layer_id : string) (new_name : json) : json :=
  JObj [("status", JStr ("Layer '" +:+ py_str env new_name +:+ "' (ID: " +:+ layer_id
                         +:+ ") added to map '" +:+ map_id +:+ "'."));
        ("layer_id", JStr layer_id);
        ("name", new_name)].

(** The world after [add_layer_to_map] found the layer. *)
Definition attached (env : Env) (map_id user_id : string) (tc : ToolCall)
    (layer_id : string) (new_name : json) (name : option string) (w : World) : World :=
  set_trace
    (fun t => t ++ [EvAppend (ToolMessage (tc_id tc) (attach_report env map_id layer_id new_name))])
    (insert_message map_id user_id
       (ToolMessage (tc_id tc) (attach_report env map_id layer_id new_name))
       (append_layer layer_id map_id (update_layer_name name layer_id w))).

(** ** The remote service's answer, as the claim reads it *)

(** The output parameters a geoprocessing call declares. *)
Definition declared_outputs : list string := ["OUTPUT"].

(** [qgis_result["upload_results"][param]["uploaded"]] is there and truthy. *)
Definition output_confirmed (qgis_result : json) (param : string) : bool :=
  match qgis_result with
  | JObj fields =>
      match assoc "upload_results" fields with
      | Some (JObj results) =>
          match assoc param results with
          | Some (JObj entry) =>
              match assoc "uploaded" entry with
              | Some uploaded => truthy uploaded
              | None => false
              end
          | _ => false
          end
      | _ => false
      end
  | _ => false
  end.

(** The service answered 200 and confirmed every declared output. *)
Definition remote_success (response : QgisResponse) : bool :=
  (status_code response =? 200)%nat
  && match resp_json response with
     | Ok qgis_result => forallb (output_confirmed qgis_result) declared_outputs
     | Raise _ => false
     end.

Definition created_layers_of (tool_result : json) : option json :=
  match tool_result with
  | JObj fields => assoc "created_layers" fields
  | _ => None
  end.

(** * Concrete runs *)

Definition out_of_service {A} : Res A := Raise (mkExn OtherException "service unavailable").

(** An environment whose model follows a script, by iteration, and whose
    QGIS service answers as [qgis] says; one geoprocessing tool is offered. *)
Definition scripted (reply : nat -> Res (option string * list ToolCall))
    (qgis : QgisRequest -> Res QgisResponse) : Env :=
  mkEnv (fun i _ _ => reply i) "You are Kue, an AI GIS assistant." false
    [mkGeoTool "native_buffer" "Computes a buffer area for all the features in a vector layer"]
    (fun prefix n => prefix +:+ pretty n)
    (fun _ => "<value>") (fun _ => "<type>: <value>")
    (fun _ => Raise (mkExn JSONDecodeError "Expecting value"))
    (fun _ _ => out_of_service)
    (fun _ _ => out_of_service)
    (fun _ _ _ => out_of_service)
    (fun _ _ _ => Ok tt)
    (fun _ _ _ _ _ => out_of_service)
    (fun _ _ => Ok [])
    (fun operation key => "https://s3.example/" +:+ key +:+ "?" +:+ operation)
    qgis
    (fun key => Ok "bytes")
    (fun map_id filename _ user_id _ =>
       Ok (mkLayerRow ("L-" +:+ filename) user_id (Some filename) "vector" None None None None
             (Some map_id)))
    (fun _ => "A map with one layer")
    (fun _ _ => ["The map has one layer."]).

Definition qgis_down : QgisRequest -> Res QgisResponse :=
  fun _ => Ok (mkQgisResponse 500 "Internal Server Error" (Raise (mkExn JSONDecodeError "Expecting value"))).

Definition owner : UserContext := mkSession "user-1".

Definition roads : LayerRow :=
  mkLayerRow "L0123456789a" "user-1" (Some "roads.fgb") "vector"
    (Some "uploads/user-1/P1/L0123456789a.fgb") None None None None.

(** A map that [owner] owns, with its lock taken by [send_map_message]. *)
Definition locked_world : World :=
  mkWorld {[ lock_key "M1" := mkEntry "locked" (Some 60) ]}
    [mkMapRow "M1" "user-1" false "P1" None] [roads] [] ∅ [] [] 0 0 [] None [].

Definition run (reply : nat -> Res (option string * list ToolCall)) : Res unit * World :=
  process_chat_interaction_task (scripted reply qgis_down) "M1" owner "user-1" locked_world.

Definition zoom_call (id : string) : ToolCall :=
  mkToolCall id "zoom_to_bounds"
    (Json (JObj [("bounds", JArr [JNum (inject_Z (-10)); JNum (inject_Z (-5));
                                   JNum (inject_Z 10); JNum (inject_Z 5)]);
                 ("zoom_description", JStr "Zooming to the study area")])).

(** The model names a tool that no branch of the dispatch knows. *)
Definition unknown_call (id : string) : ToolCall :=
  mkToolCall id "summarize_map" (Json (JObj [])).

Definition unknown_tool_reply (i : nat) : Res (option string * list ToolCall) :=
  Ok (None, [unknown_call "call_1"]).

(** [query_duckdb_sql] with an empty list of layers. *)
Definition empty_layer_ids_call : ToolCall :=
  mkToolCall "call_1" "query_duckdb_sql"
    (Json (JObj [("layer_ids", JArr []); ("sql_query", JStr "SELECT 1");
                 ("head_n_rows", JNum (inject_Z 20))])).

Definition empty_layer_ids_reply (i : nat) : Res (option string * list ToolCall) :=
  Ok (None, [empty_layer_ids_call]).

(** An unknown tool between two good invocations. *)
Definition mixed_reply (i : nat) : Res (option string * list ToolCall) :=
  Ok (None, [zoom_call "call_1"; unknown_call "call_2"; zoom_call "call_3"]).

Definition zoom_reply (i : nat) : Res (option string * list ToolCall) :=
  Ok (None, [zoom_call "call_1"]).

(** Two invocations in the first reply, then the final answer. *)
Definition two_zooms_reply (i : nat) : Res (option string * list ToolCall) :=
  match i with
  | 0 => Ok (None, [zoom_call "call_1"; zoom_call "call_2"])
  | _ => Ok (Some "Done.", [])
  end.

(** The owner asks to cancel while the first round runs. *)
Definition cancel_during_first_round (i : nat) : list UserContext :=
  match i with 1 => [owner] | _ => [] end.

Definition attach_call (id name : string) : ToolCall :=
  mkToolCall id "add_layer_to_map"
    (Json (JObj [("layer_id", JStr "L0123456789a"); ("new_name", JStr name)])).

Definition attach_args (name : string) : json :=
  JObj [("layer_id", JStr "L0123456789a"); ("new_name", JStr name)].

(** The map with [roads] attached under the name "Roads". *)
Definition roads_attached : World :=
  attached (scripted zoom_reply qgis_down) "M1" "user-1" (attach_call "call_1" "Roads")
    "L0123456789a" (JStr "Roads") (Some "Roads") locked_world.

Definition buffer_call : ToolCall :=
  mkToolCall "call_1" "native_buffer"
    (Json (JObj [("INPUT", JStr "L0123456789a"); ("DISTANCE", JNum (inject_Z 100));
                 ("OUTPUT", JStr "TEMPORARY_OUTPUT")])).

(** A QGIS service that answers 200 and confirms the upload of OUTPUT. *)
Definition qgis_up : QgisRequest -> Res QgisResponse :=
  fun _ =>
    Ok (mkQgisResponse 200 "OK"
          (Ok (JObj [("upload_results",
                      JObj [("OUTPUT", JObj [("uploaded", JBool true)])])]))).

(** A PostGIS connection of the owner, and queries against it. *)
Definition connected_world : World :=
  mkWorld {[ lock_key "M1" := mkEntry "locked" (Some 60) ]}
    [mkMapRow "M1" "user-1" false "P1" None] [roads] [] ∅ [mkPgConnRow "C1" "user-1"]
    [] 0 0 [] None [].

Definition postgis_args (query : string) : json :=
  JObj [("postgis_connection_id", JStr "C1"); ("sql_query", JStr query)].

(** * Further code of the module, and the vocabulary of its properties *)

(** ** [get_map_messages] *)

(** [message_json.get("role")] *)
Definition message_role (m : Message) : string :=
  match m with
  | SystemMessage _ => "system"
  | UserMessage _ => "user"
  | AssistantMessage _ _ => "assistant"
  | ToolMessage _ _ => "tool"
  end.

(** [message_json.get("tool_calls")]: only an assistant message has the key. *)
Definition message_tool_calls (m : Message) : list ToolCall :=
  match m with
  | AssistantMessage _ tool_calls => tool_calls
  | _ => []
  end.

(** The condition of the comprehension that builds [filtered_messages]. *)
Definition filtered_message (m : Message) : bool :=
  mem (message_role m) ["user"; "assistant"]
  && negb (match message_tool_calls m with [] => false | _ => true end).

(** The route returns the map id with the messages; the messages are what
    is modelled. *)
Definition get_map_messages (map_id : string) (session : UserContext) : M (list MessageRow) :=
  all_messages ← get_all_map_messages map_id session;
  ret (filter (fun msg => filtered_message (r_message_json msg) = true) all_messages).

(** ** The unattached layers named in the schema of [add_layer_to_map] *)

(** [EXISTS (SELECT 1 FROM user_mundiai_maps m
             WHERE ml.layer_id = ANY(m.layers) AND m.owner_uuid = $2)];
    a NULL [layers] holds nothing, and a soft-deleted map counts. *)
Definition in_a_map_of (user_id layer_id : string) (w : World) : bool :=
  existsb
    (fun m =>
       match m_layers m with
       | Some layers => mem layer_id layers
       | None => false
       end && String.eqb (m_owner_uuid m) user_id)
    (user_mundiai_maps w).

(** The query of the span [kue.fetch_unattached_layers]: the caller's layers
    that are in none of the caller's maps, [ORDER BY ml.created_on DESC
    LIMIT 10].  Rows are kept in the order of their creation. *)
Definition unattached_layers (user_id : string) (w : World) : list LayerRow :=
  take 10
    (rev (List.filter
            (fun ml =>
               String.eqb (l_owner_uuid ml) user_id
               && negb (in_a_map_of user_id (l_layer_id ml) w))
            (map_layers w))).

(** The keys of [layer_enum] after the loop over [unattached_layers]: a dict
    keeps a key where it was first set.  The labels stored under the keys
    are never read. *)
Definition layer_enum (user_id : string) (w : World) : list string :=
  foldl
    (fun keys layer =>
       if mem (l_layer_id layer) keys then keys else keys ++ [l_layer_id layer])
    [] (unattached_layers user_id w).

(** The ["enum"] of [layer_id] in the schema of [add_layer_to_map], as the
    model receives it: [list(layer_enum.keys()) if layer_enum else
    ["NO_UNATTACHED_LAYERS"]] when the payload is built, then
    [.pop("enum", None)] under [if not layer_enum]. *)
Definition layer_id_enum (user_id : string) (w : World) : option (list string) :=
  let keys := layer_enum user_id w in
  let enum := match keys with [] => ["NO_UNATTACHED_LAYERS"] | _ => keys end in
  match keys with
  | [] => None
  | _ => Some enum
  end.

(** ** Vocabulary *)

(** The rows that storing [messages] adds, numbered from [start]. *)
Fixpoint message_rows (map_id sender_id : string) (start : nat) (messages : list Message)
    : list MessageRow :=
  match messages with
  | [] => []
  | m :: rest =>
      mkMessageRow start map_id sender_id m :: message_rows map_id sender_id (S start) rest
  end.

(** The world after [messages] were inserted one after the other. *)
Definition store_messages (map_id sender_id : string) (messages : list Message) (w : World)
    : World :=
  mkWorld (redis w) (user_mundiai_maps w) (map_layers w) (layer_styles w)
    (map_layer_styles w) (project_postgres_connections w)
    (chat_completion_messages w ++ message_rows map_id sender_id (message_seq w) messages)
    (message_seq w + length messages) (id_seq w) (background_tasks w) (limited_query w)
    (trace w).

(** The system messages that [send_map_message] stores before the user's. *)
Definition system_messages_for (env : Env) (map_id : string) (w : World) : list Message :=
  SystemMessage <$> get_system_messages env (log_of map_id w) (get_map_description env map_id).

(** The error of the two checks that open every route. *)
Definition denied (map_id : string) (w : World) : Exn :=
  match select_live_map map_id w with
  | Some _ => mkExn (HTTPException 401) "Authentication required"
  | None => mkExn (HTTPException 404) "Map not found"
  end.

(** Every stored message has an id below the next serial id. *)
Definition ids_below_seq (w : World) : Prop :=
  Forall (fun r => r_id r < message_seq w) (chat_completion_messages w).

(** What a task on [map_id] for [user_id] may do to the tables it does not
    own: it adds message rows at the end, for this map and this sender,
    numbered from the next serial id on; it leaves the connections and the
    queued tasks alone. *)
Definition extends (map_id user_id : string) (w w' : World) : Prop :=
  project_postgres_connections w' = project_postgres_connections w /\
  background_tasks w' = background_tasks w /\
  exists messages,
    chat_completion_messages w'
    = chat_completion_messages w ++ message_rows map_id user_id (message_seq w) messages /\
    message_seq w' = message_seq w + length messages.

(** Redis is as before, but for the lock and the flag of [map_id]. *)
Definition redis_elsewhere (map_id : string) (w w' : World) : Prop :=
  forall key,
    key <> lock_key map_id -> key <> cancelled_key map_id -> redis w' !! key = redis w !! key.

(** ** Further concrete runs *)

(** The model answers at once, asking for no tool. *)
Definition final_reply (i : nat) : Res (option string * list ToolCall) :=
  Ok (Some "Done.", []).

(** The model cannot be reached. *)
Definition failing_reply (i : nat) : Res (option string * list ToolCall) := out_of_service.

(** [base] with the collaborators of the style, query and download tools in
    service. *)
Definition in_service (base : Env) : Env :=
  mkEnv (chat_completions_create base) (get_system_prompt base) true (get_tools base)
    (generate_id base) (py_str_other base) (type_and_repr base)
    (fun _ => Ok (JArr [JObj [("id", JStr "roads-line"); ("type", JStr "line")]]))
    (fun _ _ => Ok (mkPgInfo (Some 12%Z) None (Some "linestring")))
    (fun layer_id _ =>
       Ok (JArr [JObj [("id", JStr (layer_id +:+ "-line")); ("type", JStr "line")]]))
    (fun _ _ _ => Ok ("name", JNum (inject_Z 1)))
    (verify_map_style base)
    (fun _ _ _ _ _ =>
       Ok (JObj [("status", JStr "success");
                 ("uploaded_layers",
                  JArr [JObj [("layer_id", JStr "Lparks000001");
                              ("geometry_type", JStr "polygon")]])]))
    (fun _ _ => Ok [[("count", "42")]])
    (generate_presigned_url base) (qgis_post base) (s3_get_object base)
    (internal_upload_layer base) (get_map_description base) (get_system_messages base).

Definition service : Env := in_service (scripted zoom_reply qgis_down).

Definition style_args : json :=
  JObj [("layer_id", JStr "L0123456789a"); ("maplibre_json_layers_str", JStr "[{}]")].

Definition style_call : ToolCall := mkToolCall "call_1" "create_layer_style" (Json style_args).

Definition postgis_layer_args : json :=
  JObj [("postgis_connection_id", JStr "C1"); ("query", JStr "SELECT geom FROM parcels");
        ("layer_name", JStr "Parcels")].

Definition postgis_layer_call : ToolCall :=
  mkToolCall "call_1" "new_layer_from_postgis" (Json postgis_layer_args).

Definition duckdb_args : json :=
  JObj [("layer_ids", JArr [JStr "L0123456789a"; JStr "L-of-someone"]);
        ("sql_query", JStr "SELECT name FROM L0123456789a");
        ("head_n_rows", JNum (inject_Z 20))].

Definition duckdb_call : ToolCall := mkToolCall "call_1" "query_duckdb_sql" (Json duckdb_args).

(** ** [structures.py]: the connection pool of the process *)

(** [pool.ThreadedConnectionPool(minconn, maxconn, dsn)]: two pools made
    with the same settings are two objects, told apart here by the number of
    the construction. *)
Record ConnectionPool : Type := mkConnectionPool {
  minconn : nat;
  maxconn : nat;
  dsn : string;
  made_at : nat
}.

(** The process: [os.environ], the global [_connection_pool], the number of
    constructions attempted and, as a ghost, the pools constructed. *)
Record Process : Type := mkProcess {
  environ : gmap string string;
  _connection_pool : option ConnectionPool;
  attempts : nat;
  pools_made : list ConnectionPool
}.

(** [os.environ[key]] *)
Definition environ_getitem (key : string) (s : Process) : Res string :=
  match environ s !! key with
  | Some v => Ok v
  | None => Raise (mkExn KeyError key)
  end.

(** The URL, its components read in the order of the code;
    [os.environ.get("POSTGRES_PORT", "5432")] does not fail. *)
Definition postgres_url (s : Process) : Res string :=
  res_bind (environ_getitem "POSTGRES_USER" s) (fun user =>
  res_bind (environ_getitem "POSTGRES_PASSWORD" s) (fun password =>
  res_bind (environ_getitem "POSTGRES_HOST" s) (fun host =>
  let port := default "5432" (environ s !! "POSTGRES_PORT") in
  res_bind (environ_getitem "POSTGRES_DB" s) (fun db =>
  Ok ("postgresql://" +:+ user +:+ ":" +:+ password +:+ "@" +:+ host +:+ ":" +:+ port
      +:+ "/" +:+ db))))).

(** [_get_connection_pool]; [connects dsn n] is what the [n]-th construction
    of a pool does on [dsn]: the constructor opens [minconn] connections at
    once and raises when it cannot. *)
Definition _get_connection_pool (connects : string -> nat -> Res unit) (s : Process)
    : Res ConnectionPool * Process :=
  match _connection_pool s with
  | None =>
      match postgres_url s with
      | Ok url =>
          match connects url (attempts s) with
          | Ok _ =>
              let made := mkConnectionPool 1 10 url (attempts s) in
              (Ok made,
               mkProcess (environ s) (Some made) (S (attempts s)) (pools_made s ++ [made]))
          | Raise e =>
              (Raise e, mkProcess (environ s) None (S (attempts s)) (pools_made s))
          end
      | Raise e => (Raise e, s)
      end
  | Some made => (Ok made, s)
  end.

(** A process that starts with no pool and calls [_get_connection_pool]
    again and again, its environment being [env] at the call in question. *)
Fixpoint pool_calls (connects : string -> nat -> Res unit) (envs : list (gmap string string))
    (s : Process) : list (Res ConnectionPool) * Process :=
  match envs with
  | [] => ([], s)
  | env :: rest =>
      let '(r, s1) :=
        _get_connection_pool connects
          (mkProcess env (_connection_pool s) (attempts s) (pools_made s)) in
      let '(rs, s2) := pool_calls connects rest s1 in
      (r :: rs, s2)
  end.

Definition started : Process := mkProcess ∅ None 0 [].

(** A query on the owner's connection, then the final answer. *)
Definition query_reply (i : nat) : Res (option string * list ToolCall) :=
  match i with
  | 0 =>
      Ok (None,
          [mkToolCall "call_1" "query_postgis_database"
             (Json (postgis_args "SELECT count(*) FROM parcels LIMIT 1"))])
  | _ => Ok (Some "Done.", [])
  end.

(** A query that is a list, not text. *)
Definition query_list_reply (i : nat) : Res (option string * list ToolCall) :=
  Ok (None,
      [mkToolCall "call_2" "query_postgis_database"
         (Json (JObj [("postgis_connection_id", JStr "C1");
                      ("sql_query", JArr [JStr "SELECT 1 LIMIT 1"])]))]).

(** * Proofs *)

Ltac unfold_m :=
  unfold mbind, M_bind, bind, ret, raise, lift, gets, modify, emit, try_except,
    kue_ephemeral_action, add_chat_completion_message, tool_message in *.

(** Symbolic execution of a monadic body: one case per path. *)
Ltac crush_m := repeat (unfold_m; cbv beta iota zeta in *; simplify_eq; try case_match).

Lemma appended_app (a b : list Event) : appended (a ++ b) = appended a ++ appended b.
Proof.
  induction a as [|e a IH]; [done|].
  destruct e; simpl; rewrite ?IH; done.
Qed.

Lemma count_app p (a b : list Event) : count p (a ++ b) = count p a + count p b.
Proof. induction a as [|e a IH]; simpl; [done|]. rewrite IH. lia. Qed.

Lemma appended_ingests (names : list string) : appended (EvIngest <$> names) = [].
Proof. induction names; simpl; auto. Qed.

Lemma grows_refl map_id w : grows map_id w w [].
Proof. unfold grows. simpl. by rewrite !app_nil_r. Qed.

Lemma grows_trans map_id w1 w2 w3 e1 e2 :
  grows map_id w1 w2 e1 -> grows map_id w2 w3 e2 -> grows map_id w1 w3 (e1 ++ e2).
Proof.
  intros (R1 & A1 & T1 & L1) (R2 & A2 & T2 & L2). unfold grows.
  rewrite R2, R1, A2, A1, T2, T1, L2, L1, appended_app, !app_assoc. done.
Qed.

Lemma append_layer_auth layer_id map_id (rows : list MapRow) :
  map_auth <$> (append_layer_row layer_id map_id <$> rows) = map_auth <$> rows.
Proof.
  rewrite <- list_fmap_compose. apply list_fmap_ext. intros _ m _.
  unfold compose, append_layer_row. repeat case_match; done.
Qed.

Lemma log_of_insert map_id user_id m w :
  log_of map_id (insert_message map_id user_id m w) = log_of map_id w ++ [m].
Proof.
  unfold log_of. simpl. rewrite filter_app, fmap_app. f_equal.
  rewrite filter_cons. simpl. case_decide; done.
Qed.

(** A step that appends [m] after quiet database work. *)
Lemma grows_append map_id user_id m w w1 :
  grows map_id w w1 [] ->
  grows map_id w
    (set_trace (fun t => t ++ [EvAppend m]) (insert_message map_id user_id m w1))
    [EvAppend m].
Proof.
  intros (R & A & T & L). unfold grows in *. simpl in *.
  rewrite app_nil_r in T, L. rewrite R, A, T. repeat split.
  change (log_of map_id (insert_message map_id user_id m w1) = log_of map_id w ++ [m]).
  by rewrite log_of_insert, L.
Qed.

(** Database work that emits nothing. *)
Ltac quiet :=
  unfold grows, log_of; simpl; rewrite ?app_nil_r;
  repeat split; auto using append_layer_auth.

Ltac leaf :=
  match goal with
  | |- exists evs, grows _ _ (set_trace _ (insert_message _ _ ?m _)) evs /\ _ =>
      exists [EvAppend m]; split;
      [ apply grows_append; quiet | exists []; simpl; eauto ]
  | |- exists evs, grows _ _ _ evs /\ _ =>
      exists []; split; [ quiet | exists []; simpl; eauto ]
  end.

Section HandlerFacts.

Context (env : Env) (map_id : string) (session : UserContext) (user_id : string).

Lemma add_layer_to_map_handled tc args :
  handled map_id tc (add_layer_to_map env map_id user_id tc args).
Proof. unfold add_layer_to_map. intros w r w' H. crush_m; leaf. Qed.

Lemma new_layer_from_postgis_handled tc args :
  handled map_id tc (new_layer_from_postgis env map_id user_id tc args).
Proof.
  unfold new_layer_from_postgis, create_postgis_layer, insert_postgis_layer, insert_layer_style,
    insert_map_layer_style, new_id.
  intros w r w' H. crush_m; leaf.
Qed.

Lemma query_duckdb_sql_handled tc args :
  handled map_id tc (query_duckdb_sql env map_id user_id tc args).
Proof. unfold query_duckdb_sql. intros w r w' H. crush_m; leaf. Qed.

Lemma create_layer_style_handled tc args :
  handled map_id tc (create_layer_style env map_id user_id tc args).
Proof.
  unfold create_layer_style, store_layer_style, insert_layer_style, new_id.
  intros w r w' H. crush_m; leaf.
Qed.

Lemma set_active_style_handled tc args :
  handled map_id tc (set_active_style env map_id user_id tc args).
Proof. unfold set_active_style. intros w r w' H. crush_m; leaf. Qed.

Lemma download_from_openstreetmap_handled tc args :
  handled map_id tc (handle_download_from_openstreetmap env map_id session user_id tc args).
Proof. unfold handle_download_from_openstreetmap. intros w r w' H. crush_m; leaf. Qed.

Lemma query_postgis_database_handled tc args :
  handled map_id tc (query_postgis_database env map_id user_id tc args).
Proof.
  unfold query_postgis_database, run_postgis_query, postgis_query_failed.
  intros w r w' H. crush_m; leaf.
Qed.

Lemma zoom_to_bounds_handled tc args :
  handled map_id tc (zoom_to_bounds map_id user_id tc args).
Proof. unfold zoom_to_bounds, check_bounds. intros w r w' H. crush_m; leaf. Qed.

(** *** The geoprocessing bridge *)

Lemma resolve_inputs_pure tc items w r w' :
  resolve_inputs env user_id tc items w = (r, w') -> w' = w.
Proof.
  revert r w'. induction items as [|[key val] items IH]; intros r w' H; simpl in H.
  - by crush_m.
  - unfold_m.
    repeat (cbv beta iota zeta in H; simplify_eq; try case_match); eauto.
Qed.

Lemma upload_layer_grows filename content project_id w r w' :
  upload_layer env map_id user_id filename content project_id w = (r, w') ->
  grows map_id w w' [EvIngest filename].
Proof. unfold upload_layer. intros H. crush_m; quiet. Qed.

Lemma create_layers_grows project_id mappings w r w' :
  create_layers env map_id user_id project_id mappings w = (r, w') ->
  exists ingests, grows map_id w w' (EvIngest <$> ingests).
Proof.
  revert w r w'. induction mappings as [|[param info] rest IH]; intros w r w' H; simpl in H.
  - exists []. crush_m. apply grows_refl.
  - unfold_m. cbv beta iota zeta in H.
    destruct (s3_get_object env (o_s3_key info)) as [content|e]; simplify_eq;
      [|exists []; apply grows_refl].
    destruct (upload_layer env map_id user_id _ content project_id w) as [[row|e] w1] eqn:U;
      apply upload_layer_grows in U.
    + destruct (create_layers env map_id user_id project_id rest w1) as [[created|e] w2] eqn:C;
        apply IH in C as [ingests G]; simplify_eq;
        exists ((o_layer_id info +:+ o_file_extension info) :: ingests);
        apply (grows_trans _ _ _ _ _ _ U G).
    + simplify_eq. by exists [o_layer_id info +:+ o_file_extension info].
Qed.

Lemma geoprocessing_body_grows tc tool_def algorithm mapped_args w r w' :
  geoprocessing_body env map_id user_id tc tool_def algorithm mapped_args w = (r, w') ->
  exists ingests, grows map_id w w' (EvIngest <$> ingests).
Proof.
  unfold geoprocessing_body, new_id. intros H.
  unfold_m. cbv beta iota zeta in H.
  destruct (resolve_inputs env user_id tc mapped_args w) as [[[params urls]|e] w1] eqn:R;
    apply resolve_inputs_pure in R; subst w1; simplify_eq;
    [|exists []; apply grows_refl].
  repeat (case_match; simplify_eq);
    try (exists []; quiet; fail);
    match goal with
    | C : create_layers _ _ _ _ _ _ = _ |- _ =>
        apply create_layers_grows in C as [ingests G]; exists ingests;
        refine (grows_trans _ _ _ _ [] _ _ G); quiet
    end.
Qed.

Lemma run_geoprocessing_tool_grows tc w r w' :
  run_geoprocessing_tool env map_id user_id tc w = (r, w') ->
  exists ingests, grows map_id w w' (EvIngest <$> ingests).
Proof.
  unfold run_geoprocessing_tool. intros H.
  unfold_m. cbv beta iota zeta in H.
  repeat (case_match; simplify_eq); try (exists []; apply grows_refl);
    match goal with
    | G : geoprocessing_body _ _ _ _ _ _ _ _ = _ |- _ =>
        apply geoprocessing_body_grows in G as [ingests G]; by exists ingests
    end.
Qed.

Lemma geoprocessing_handled tc :
  handled map_id tc
    (tool_result ← run_geoprocessing_tool env map_id user_id tc;
     add_chat_completion_message map_id user_id (tool_message tc tool_result)).
Proof.
  intros w r w' H. unfold_m. cbv beta iota zeta in H.
  destruct (run_geoprocessing_tool env map_id user_id tc w) as [[res|e] w1] eqn:G;
    apply run_geoprocessing_tool_grows in G as [ingests G]; crush_m.
  - exists ((EvIngest <$> ingests) ++ [EvAppend (ToolMessage (tc_id tc) res)]). split.
    + apply (grows_trans _ _ _ _ _ _ G). apply grows_append, grows_refl.
    + exists ingests, res. done.
  - exists (EvIngest <$> ingests). split; [done|]. by exists ingests.
Qed.

(** *** Dispatch, round, iteration *)

Lemma dispatch_spec names tc w r w' :
  dispatch_tool_call env map_id session user_id names tc w = (r, w') ->
  exists evs, grows map_id w w' evs /\ dispatch_events tc r evs.
Proof.
  unfold dispatch_tool_call. intros H.
  unfold mbind, M_bind, bind, lift, emit, modify in H. cbv beta iota zeta in H.
  destruct (loads (tc_arguments tc)) as [args|e].
  2: { simplify_eq. exists []. split; [apply grows_refl | left; done]. }
  set (w1 := set_trace (fun t => t ++ [EvToolCallStarted tc]) w) in *.
  assert (G1 : grows map_id w w1 [EvToolCallStarted tc]) by (subst w1; quiet).
  assert (K : forall h, h w1 = (r, w') -> handled map_id tc h ->
            exists evs, grows map_id w w' evs /\ dispatch_events tc r evs).
  { intros h E Hh. apply Hh in E as (evs & G & HE).
    exists ([EvToolCallStarted tc] ++ evs). split; [by eapply grows_trans|].
    right. by exists evs. }
  repeat match type of H with
         | (if ?c then _ else _) _ = _ => destruct c eqn:?
         end;
    try (refine (K _ H _);
         first [ apply new_layer_from_postgis_handled | apply add_layer_to_map_handled
               | apply query_duckdb_sql_handled | apply create_layer_style_handled
               | apply set_active_style_handled | apply download_from_openstreetmap_handled
               | apply query_postgis_database_handled | apply zoom_to_bounds_handled
               | apply geoprocessing_handled ]; fail).
  unfold raise in H. injection H as <- <-.
  exists [EvToolCallStarted tc]. split; [exact G1|]. right. exists []. split; [done|]. by exists [].
Qed.

Lemma round_spec names tcs w r w' :
  for_each tcs (dispatch_tool_call env map_id session user_id names) w = (r, w') ->
  exists evs, grows map_id w w' evs /\ round_events tcs r evs.
Proof.
  revert w r w'. induction tcs as [|tc tcs IH]; intros w r w' H; simpl in H.
  - unfold ret in H. simplify_eq. exists []. split; [apply grows_refl | constructor].
  - unfold mbind, M_bind, bind in H.
    destruct (dispatch_tool_call env map_id session user_id names tc w) as [[[]|e] w1] eqn:D;
      apply dispatch_spec in D as (evs1 & G1 & D1).
    + apply IH in H as (evs2 & G2 & R2). exists (evs1 ++ evs2).
      split; [by eapply grows_trans | by constructor].
    + simplify_eq. exists evs1. split; [done | by constructor].
Qed.

Lemma get_all_map_messages_spec w r w' :
  get_all_map_messages map_id session w = (r, w') ->
  w' = w /\
  match r with
  | Ok rows => r_message_json <$> rows = log_of map_id w /\ authorised map_id w session = true
  | Raise _ => authorised map_id w session = false
  end.
Proof.
  unfold get_all_map_messages, authorised. intros H. crush_m; split; try done.
  - by apply negb_true_iff.
  - split; [done|]. by apply negb_false_iff.
Qed.

Lemma iteration_spec i w r w' :
  loop_iteration env map_id session user_id i w = (r, w') ->
  exists evs,
    trace w' = trace w ++ evs /\
    log_of map_id w' = log_of map_id w ++ appended evs /\
    map_auth <$> user_mundiai_maps w' = map_auth <$> user_mundiai_maps w /\
    redis w' = (if flag_set map_id w then delete (cancelled_key map_id) (redis w) else redis w) /\
    iteration_events env i (log_of map_id w) (flag_set map_id w) r evs.
Proof.
  unfold loop_iteration, redis_get, redis_delete, kue_notify_error. intros H.
  unfold mbind, M_bind, bind, gets, emit, modify, ret in H. cbv beta iota zeta in H.
  fold (flag_set map_id w) in H.
  destruct (flag_set map_id w) eqn:F.
  - simplify_eq. exists [EvCancelCheck i true]. simpl. rewrite app_nil_r.
    repeat split. constructor.
  - set (w1 := set_trace (fun t => t ++ [EvCancelCheck i false]) w) in *.
    destruct (get_all_map_messages map_id session w1) as [[rows|e] w2] eqn:A;
      apply get_all_map_messages_spec in A as [-> A].
    2: { simplify_eq. exists [EvCancelCheck i false]. simpl. rewrite app_nil_r.
         repeat split. constructor. }
    destruct A as [A _]. change (log_of map_id w1) with (log_of map_id w) in A.
    rewrite A in H.
    set (transcript := SystemMessage (get_system_prompt env) :: log_of map_id w) in *.
    destruct (chat_completions_create env i transcript (tools_payload env))
      as [[content tool_calls]|e] eqn:C.
    2: { simplify_eq.
         exists [EvCancelCheck i false; EvModelCall i transcript (tools_payload env); EvNotifyError].
         repeat split; simpl; rewrite <- ?app_assoc, ?app_nil_r; try done.
         by eapply it_model_failed. }
    unfold add_chat_completion_message, mbind, M_bind, bind, emit, modify in H.
    cbv beta iota zeta in H.
    set (call := EvModelCall i transcript (tools_payload env)) in *.
    set (w3 := set_trace _ (insert_message _ _ _ _)) in H.
    assert (G3 : grows map_id w w3
                   [EvCancelCheck i false; call; EvAppend (AssistantMessage content tool_calls)]).
    { subst w3 w1. unfold grows. simpl. rewrite <- !app_assoc. repeat split.
      apply (log_of_insert map_id user_id _
               (set_trace (fun t => t ++ [call])
                  (set_trace (fun t => t ++ [EvCancelCheck i false]) w))). }
    destruct tool_calls as [|tc tcs].
    + injection H as <- <-. destruct G3 as (R3 & A3 & T3 & L3).
      eexists. repeat split; eauto. by apply it_final.
    + destruct (for_each (tc :: tcs)
                  (dispatch_tool_call env map_id session user_id (geoprocessing_names env)) w3)
        as [r1 w4] eqn:R.
      apply round_spec in R as (evs & G & RE).
      destruct (grows_trans _ _ _ _ _ _ G3 G) as (R4 & A4 & T4 & L4).
      exists ([EvCancelCheck i false; call; EvAppend (AssistantMessage content (tc :: tcs))] ++ evs).
      assert (r = continue_or_raise r1 /\ w' = w4) as [-> ->]
        by (destruct r1 as [[]|]; by simplify_eq).
      repeat split; auto. by apply (it_tools env i _ content (tc :: tcs) r1 evs).
Qed.

End HandlerFacts.

(** ** Pure facts about the events of a run *)

Lemma scan_app p (a b : list Event) :
  scan p (a ++ b) = match scan p a with Some p' => scan p' b | None => None end.
Proof.
  revert p. induction a as [|e a IH]; intros p; simpl; [done|].
  destruct (scan_step p e); [apply IH | done].
Qed.

Lemma scan_ingests p (names : list string) : scan p (EvIngest <$> names) = Some p.
Proof. induction names; simpl; auto. Qed.

Lemma count_ingests p (names : list string) :
  (forall f, p (EvIngest f) = false) -> count p (EvIngest <$> names) = 0.
Proof. intros Hp. induction names; simpl; [done|]. by rewrite Hp. Qed.

Lemma scan_handler tc r evs rest :
  handler_events tc r evs ->
  scan (tc_id tc :: rest) evs = Some (if is_ok r then rest else tc_id tc :: rest).
Proof.
  intros [ingests H]. destruct r as [[]|e].
  - destruct H as [res ->]. rewrite scan_app, scan_ingests. simpl.
    by rewrite String.eqb_refl.
  - subst. apply scan_ingests.
Qed.

Lemma scan_dispatch tc r evs rest :
  dispatch_events tc r evs ->
  scan (tc_id tc :: rest) evs = Some (if is_ok r then rest else tc_id tc :: rest).
Proof.
  intros [[E ->]|(evs' & -> & H)].
  - by rewrite E.
  - simpl. rewrite String.eqb_refl. by apply scan_handler.
Qed.

Lemma scan_round tcs r evs rest :
  round_events tcs r evs ->
  exists left, scan ((tc_id <$> tcs) ++ rest) evs = Some left /\ (is_ok r = true -> left = rest).
Proof.
  induction 1 as [|tc tcs r evs1 evs2 D _ IH|tc tcs e evs1 D]; simpl.
  - eauto.
  - destruct IH as (left & S & L). exists left.
    rewrite scan_app, (scan_dispatch _ _ _ _ D). simpl. auto.
  - rewrite (scan_dispatch _ _ _ _ D). simpl. eexists. split; [done|]. discriminate.
Qed.

Lemma scan_iteration env i log flag r evs :
  iteration_events env i log flag r evs ->
  exists left, scan [] evs = Some left /\ (is_ok r = true -> left = []).
Proof.
  destruct 1 as [|e|e C|content C|content tcs r evs C N R]; simpl; eauto.
  destruct (scan_round _ _ _ [] R) as (left & S & L). rewrite app_nil_r in S.
  exists left. split; [done|]. destruct r; [auto | discriminate].
Qed.

Lemma scan_loop env start n log r evs :
  loop_events env start n log r evs ->
  exists left, scan [] evs = Some left /\ (is_ok r = true -> left = []).
Proof.
  induction 1 as [| start n log flag evs I | start n log flag e evs I
                 | start n log flag evs1 r evs2 I _ IH ].
  - by exists [].
  - destruct (scan_iteration _ _ _ _ _ _ I) as (left & S & L). eauto.
  - destruct (scan_iteration _ _ _ _ _ _ I) as (left & S & L).
    exists left. split; [done | discriminate].
  - destruct (scan_iteration _ _ _ _ _ _ I) as (left & S & L).
    destruct IH as (left2 & S2 & L2). exists left2.
    rewrite scan_app, S, (L eq_refl). auto.
Qed.

(** The messages a completed round appends: one result per invocation, in
    the order of the invocations. *)
Lemma handler_appended tc evs :
  handler_events tc (Ok tt) evs -> exists res, appended evs = [ToolMessage (tc_id tc) res].
Proof.
  intros (ingests & res & ->). exists res.
  by rewrite appended_app, appended_ingests.
Qed.

Lemma round_appended tcs evs :
  round_events tcs (Ok tt) evs ->
  exists results,
    length results = length tcs /\
    appended evs = zip_with (fun tc res => ToolMessage (tc_id tc) res) tcs results.
Proof.
  intros R. remember (Ok tt) as r eqn:E. revert E.
  induction R as [|tc tcs r evs1 evs2 D _ IH|tc tcs e evs1 D]; intros E.
  - by exists [].
  - destruct (IH E) as (results & L & A).
    destruct D as [[? _]|(rest & -> & H)]; [done|].
    apply handler_appended in H as [res H].
    exists (res :: results). simpl. rewrite appended_app, H, A, L. done.
  - done.
Qed.

(** Events of a round: no cancel check, no model call, no lock delete. *)
Lemma handler_count p tc r evs :
  (forall f, p (EvIngest f) = false) -> (forall m, p (EvAppend m) = false) ->
  handler_events tc r evs -> count p evs = 0.
Proof.
  intros Hi Ha [ingests H]. destruct r.
  - destruct H as [res ->]. rewrite count_app, count_ingests by done. simpl. by rewrite Ha.
  - subst. by apply count_ingests.
Qed.

Lemma round_count p tcs r evs :
  (forall f, p (EvIngest f) = false) -> (forall m, p (EvAppend m) = false) ->
  (forall tc, p (EvToolCallStarted tc) = false) ->
  round_events tcs r evs -> count p evs = 0.
Proof.
  intros Hi Ha Hs.
  assert (D : forall tc r evs, dispatch_events tc r evs -> count p evs = 0).
  { intros tc r' evs' [[_ ->]|(rest & -> & H)]; [done|].
    simpl. rewrite Hs. by eapply handler_count. }
  induction 1; simpl; rewrite ?count_app; eauto.
  erewrite D by done. done.
Qed.

Lemma iteration_shape env i log flag r evs :
  iteration_events env i log flag r evs ->
  exists rest,
    evs = EvCancelCheck i flag :: rest /\
    count is_cancel_check rest = 0 /\
    lock_deletes evs = 0 /\
    (flag = true -> rest = [] /\ r = Ok Break) /\
    (r = Ok Continue -> flag = false) /\
    (flag = false -> is_ok r = true -> model_calls evs = 1) /\
    (model_calls evs = 0 \/
     model_calls evs = 1 /\ exists t p rest', rest = EvModelCall i t p :: rest').
Proof.
  destruct 1 as [|e|e C|content C|content tcs r evs C N R];
    eexists; (split; [reflexivity|]); simpl; repeat split; auto; try discriminate;
    try (intros; destruct r; discriminate).
  all: try (right; split; [done|]; eauto; fail).
  all: unfold lock_deletes, model_calls; simpl.
  - by eapply round_count.
  - by eapply round_count.
  - intros _ _. f_equal. by eapply round_count.
  - right. split; [|eauto]. f_equal. by eapply round_count.
Qed.

Lemma keys_differ map_id : lock_key map_id <> cancelled_key map_id.
Proof. unfold lock_key, cancelled_key. simpl. discriminate. Qed.

Lemma select_live_map_auth map_id (rows rows' : list MapRow) :
  map_auth <$> rows = map_auth <$> rows' ->
  m_owner_uuid <$> find (fun m => String.eqb (m_id m) map_id && negb (m_soft_deleted m)) rows
  = m_owner_uuid <$> find (fun m => String.eqb (m_id m) map_id && negb (m_soft_deleted m)) rows'.
Proof.
  revert rows'. induction rows as [|m rows IH]; intros [|m' rows'] E; simplify_eq/=; [done|].
  unfold map_auth in *. simplify_eq.
  replace (m_id m') with (m_id m) by done.
  replace (m_soft_deleted m') with (m_soft_deleted m) by done.
  destruct (String.eqb (m_id m) map_id && negb (m_soft_deleted m)); simpl; [congruence | auto].
Qed.

Lemma authorised_auth map_id w w' caller :
  map_auth <$> user_mundiai_maps w' = map_auth <$> user_mundiai_maps w ->
  authorised map_id w' caller = authorised map_id w caller.
Proof.
  intros E. apply (select_live_map_auth map_id) in E.
  unfold authorised, select_live_map.
  destruct (find _ (user_mundiai_maps w')), (find _ (user_mundiai_maps w));
    simpl in E; try discriminate; [|done].
  injection E as E. by rewrite E.
Qed.

Section LoopFacts.

Context (env : Env) (map_id : string) (session : UserContext) (user_id : string).

Lemma cancel_map_message_spec caller w :
  if authorised map_id w caller then
    cancel_map_message map_id caller w
    = (Ok (JObj [("status", JStr "cancelled")]),
       set_redis (fun r => <[cancelled_key map_id := mkEntry "true" (Some 300)]> r) w)
  else exists e, cancel_map_message map_id caller w = (Raise e, w).
Proof.
  unfold authorised, cancel_map_message, redis_set.
  unfold mbind, M_bind, bind, gets, raise, modify, ret. cbv beta iota zeta.
  destruct (select_live_map map_id w) as [row|]; [|eauto].
  destruct (String.eqb (get_user_id caller) (m_owner_uuid row)); simpl; eauto.
Qed.

Lemma flag_set_after_cancel w :
  flag_set map_id
    (set_redis (fun r => <[cancelled_key map_id := mkEntry "true" (Some 300)]> r) w) = true.
Proof. unfold flag_set. simpl. by rewrite lookup_insert_eq. Qed.

Lemma serve_cancel_step caller w :
  serve (cancel_map_message map_id caller) w
  = (Ok tt,
     if authorised map_id w caller
     then set_redis (fun r => <[cancelled_key map_id := mkEntry "true" (Some 300)]> r) w
     else w).
Proof.
  pose proof (cancel_map_message_spec caller w) as C.
  unfold serve, try_except, mbind, M_bind, bind, ret. cbv beta.
  destruct (authorised map_id w caller); [by rewrite C | by destruct C as [e ->]].
Qed.

Lemma serve_cancels_spec callers w :
  exists w',
    for_each callers (fun caller => serve (cancel_map_message map_id caller)) w = (Ok tt, w') /\
    trace w' = trace w /\
    chat_completion_messages w' = chat_completion_messages w /\
    user_mundiai_maps w' = user_mundiai_maps w /\
    redis w' !! lock_key map_id = redis w !! lock_key map_id /\
    flag_set map_id w' = flag_set map_id w || existsb (authorised map_id w) callers.
Proof.
  revert w. induction callers as [|caller callers IH]; intros w; simpl.
  - exists w. by rewrite orb_false_r.
  - unfold mbind, M_bind, bind. rewrite serve_cancel_step.
    destruct (authorised map_id w caller) eqn:A.
    + destruct (IH (set_redis (fun r => <[cancelled_key map_id := mkEntry "true" (Some 300)]> r) w))
        as (w' & E & T & L & U & R & F).
      exists w'. rewrite E. repeat split; auto.
      * rewrite R. simpl. apply lookup_insert_ne. intros K. by apply (keys_differ map_id).
      * rewrite F, flag_set_after_cancel. simpl. by rewrite orb_true_r.
    + destruct (IH w) as (w' & E & T & L & U & R & F).
      exists w'. rewrite E. repeat split; auto.
Qed.

(** The loop of the task, with the cancel requests served in between. *)
Lemma loop_spec cancels n : forall start w r w',
  for_range start n
    (fun i =>
       for_each (cancels i) (fun caller => serve (cancel_map_message map_id caller));;
       loop_iteration env map_id session user_id i) w = (r, w') ->
  exists evs,
    trace w' = trace w ++ evs /\
    log_of map_id w' = log_of map_id w ++ appended evs /\
    map_auth <$> user_mundiai_maps w' = map_auth <$> user_mundiai_maps w /\
    redis w' !! lock_key map_id = redis w !! lock_key map_id /\
    loop_events env start n (log_of map_id w) r evs /\
    (forall k, EvCancelCheck k true ∈ evs ->
       flag_set map_id w = true \/
       exists j caller, start <= j <= k /\ caller ∈ cancels j /\ authorised map_id w caller = true) /\
    (forall k caller, start <= k -> caller ∈ cancels k -> authorised map_id w caller = true ->
       EvCancelCheck k false ∉ evs) /\
    (flag_set map_id w = true -> model_calls evs = 0).
Proof.
  induction n as [|n IH]; intros start w r w' H; simpl in H.
  { unfold ret in H. simplify_eq. exists []. rewrite !app_nil_r.
    repeat split; auto; [constructor | intros k K | intros k c _ _ _ K]; by apply elem_of_nil in K. }
  unfold mbind, M_bind, bind in H.
  destruct (serve_cancels_spec (cancels start) w) as (w0 & E & T0 & L0 & U0 & R0 & F0).
  rewrite E in H.
  destruct (loop_iteration env map_id session user_id start w0) as [r1 w1] eqn:I.
  apply iteration_spec in I as (evs1 & T1 & L1 & A1 & R1 & I1).
  assert (Lw : log_of map_id w0 = log_of map_id w) by (unfold log_of; by rewrite L0).
  rewrite Lw, T0 in *. rewrite U0 in A1.
  destruct (iteration_shape _ _ _ _ _ _ I1) as (rest & -> & NC & ND & FT & CF & MC & _).
  assert (Rlock : redis w1 !! lock_key map_id = redis w !! lock_key map_id).
  { rewrite R1, <- R0. destruct (flag_set map_id w0); [|done].
    apply lookup_delete_ne. intros K. by apply (keys_differ map_id). }
  assert (Hit : forall k h, EvCancelCheck k h ∈ EvCancelCheck start (flag_set map_id w0) :: rest ->
                k = start /\ h = flag_set map_id w0).
  { intros k h [K|K]%elem_of_cons; [by simplify_eq|].
    exfalso. clear -NC K. induction rest as [|e rest IHr]; [by apply elem_of_nil in K|].
    simpl in NC. apply elem_of_cons in K as [<-|K]; [done|].
    apply IHr; [|done]. destruct (is_cancel_check e); [done|]. done. }
  assert (S1 : forall k, EvCancelCheck k true ∈ EvCancelCheck start (flag_set map_id w0) :: rest ->
     flag_set map_id w = true \/
     exists j caller, start <= j <= k /\ caller ∈ cancels j /\ authorised map_id w caller = true).
  { intros k K. apply Hit in K as [-> K]. rewrite F0 in K. symmetry in K.
    apply orb_true_iff in K as [K|K]; [by left|]. right.
    apply existsb_exists in K as (caller & In & A). exists start, caller.
    split; [lia|]. split; [by apply list_elem_of_In | done]. }
  assert (S2 : forall k caller, start <= k -> caller ∈ cancels k ->
     authorised map_id w caller = true ->
     EvCancelCheck k false ∉ EvCancelCheck start (flag_set map_id w0) :: rest).
  { intros k caller Hk In A K. apply Hit in K as [-> K]. rewrite F0 in K.
    assert (existsb (authorised map_id w) (cancels start) = true).
    { apply existsb_exists. exists caller. split; [by apply list_elem_of_In | done]. }
    rewrite H0, orb_true_r in K. done. }
  assert (S3 : flag_set map_id w = true ->
               r1 = Ok Break /\ model_calls (EvCancelCheck start (flag_set map_id w0) :: rest) = 0).
  { intros Fw. rewrite F0, Fw in FT. destruct (FT eq_refl) as [-> ->]. done. }
  destruct r1 as [[|]|e].
  - (* Continue *)
    apply IH in H as (evs2 & T2 & L2 & A2 & R2 & LE & H1 & H2 & _).
    pose proof (CF eq_refl) as Ff.
    exists ((EvCancelCheck start (flag_set map_id w0) :: rest) ++ evs2).
    rewrite T2, T1, L2, L1, A2, A1, R2, Rlock, appended_app, !app_assoc.
    repeat split; auto.
    + eapply loop_continue; [exact I1|]. by rewrite <- L1.
    + intros k [K|K]%elem_of_app; [by apply S1|].
      apply H1 in K as [K|(j & caller & Hj & In & A)].
      * exfalso. rewrite Ff in R1. unfold flag_set in K, Ff. rewrite R1 in K. congruence.
      * right. exists j, caller. split; [lia|]. split; [done|].
        by rewrite <- (authorised_auth map_id w w1).
    + intros k caller Hk In A [K|K]%elem_of_app; [by eapply S2|].
      destruct (decide (k = start)) as [->|Hne].
      * rewrite F0 in Ff. apply orb_false_iff in Ff as [_ Ff].
        assert (existsb (authorised map_id w) (cancels start) = true); [|congruence].
        apply existsb_exists. exists caller. split; [by apply list_elem_of_In | done].
      * eapply (H2 k caller); [lia | done | | done].
        by rewrite (authorised_auth map_id w w1).
    + intros Fw. by destruct (S3 Fw).
  - (* Break *)
    unfold ret in H. simplify_eq.
    exists (EvCancelCheck start (flag_set map_id w0) :: rest).
    repeat split; auto; [by eapply loop_break | by intros Fw; destruct (S3 Fw)].
  - simplify_eq.
    exists (EvCancelCheck start (flag_set map_id w0) :: rest).
    repeat split; auto; [by eapply loop_raise | by intros Fw; destruct (S3 Fw)].
Qed.

End LoopFacts.

Lemma count_zero_elem p (evs : list Event) e : count p evs = 0 -> e ∈ evs -> p e = false.
Proof.
  induction evs as [|e' evs IH]; simpl; intros C In; [by apply elem_of_nil in In|].
  apply elem_of_cons in In as [->|In].
  - destruct (p e'); [done | done].
  - apply IH; [|done]. destruct (p e'); [done | done].
Qed.

Lemma iteration_model_call env i log flag r evs j t p :
  iteration_events env i log flag r evs -> EvModelCall j t p ∈ evs -> j = i /\ flag = false.
Proof.
  destruct 1 as [|e|e C|content C|content tcs r evs C N R]; intros In.
  all: repeat (apply elem_of_cons in In as [In|In]; [by simplify_eq|]).
  all: try by apply elem_of_nil in In.
  apply (count_zero_elem is_model_call) in In; [done|]. by eapply round_count.
Qed.

Lemma loop_no_lock_delete env start n log r evs :
  loop_events env start n log r evs -> lock_deletes evs = 0.
Proof.
  induction 1 as [| start n log flag evs I | start n log flag e evs I
                 | start n log flag evs1 r evs2 I _ IH ]; [done|..].
  1,2: by destruct (iteration_shape _ _ _ _ _ _ I) as (rest & _ & _ & D & _).
  destruct (iteration_shape _ _ _ _ _ _ I) as (rest & _ & _ & D & _).
  unfold lock_deletes in *. rewrite count_app. lia.
Qed.

(** A model call of iteration [j] comes after the checks of all iterations
    up to [j] found the flag unset. *)
Lemma loop_model_call_checked env start n log r evs :
  loop_events env start n log r evs ->
  forall j t p, EvModelCall j t p ∈ evs ->
    start <= j < start + n /\ forall k, start <= k <= j -> EvCancelCheck k false ∈ evs.
Proof.
  induction 1 as [| start n log flag evs I | start n log flag e evs I
                 | start n log flag evs1 r evs2 I _ IH ]; intros j t p In.
  - by apply elem_of_nil in In.
  - destruct (iteration_model_call _ _ _ _ _ _ _ _ _ I In) as [-> ->].
    destruct (iteration_shape _ _ _ _ _ _ I) as (rest & -> & _).
    split; [lia|]. intros k Hk. assert (k = start) as -> by lia. apply elem_of_cons; auto.
  - destruct (iteration_model_call _ _ _ _ _ _ _ _ _ I In) as [-> ->].
    destruct (iteration_shape _ _ _ _ _ _ I) as (rest & -> & _).
    split; [lia|]. intros k Hk. assert (k = start) as -> by lia. apply elem_of_cons; auto.
  - destruct (iteration_shape _ _ _ _ _ _ I) as (rest & -> & _ & _ & _ & CF & _).
    rewrite (CF eq_refl) in *.
    apply elem_of_app in In as [In|In].
    + destruct (iteration_model_call _ _ _ _ _ _ _ _ _ I In) as [-> _].
      split; [lia|]. intros k Hk. assert (k = start) as -> by lia. apply elem_of_cons; auto.
    + destruct (IH _ _ _ In) as [Hj Hk]. split; [lia|]. intros k Hr.
      destruct (decide (k = start)) as [->|Hne]; [apply elem_of_app; left; apply elem_of_cons; auto|].
      apply elem_of_app. right. apply Hk. lia.
Qed.

Lemma loop_model_calls_bound env start n log r evs k :
  loop_events env start n log r evs ->
  (forall j t p, EvModelCall j t p ∈ evs -> j < k) ->
  model_calls evs <= k - start.
Proof.
  assert (One : forall i log flag r evs,
            iteration_events env i log flag r evs ->
            (forall j t p, EvModelCall j t p ∈ evs -> j < k) ->
            model_calls evs = 0 \/ model_calls evs = 1 /\ i < k).
  { intros i lg flag r' evs' I Hlt.
    destruct (iteration_shape _ _ _ _ _ _ I) as (rest & -> & _ & _ & _ & _ & _ & [Z|[O (t & p & rest' & ->)]]);
      [by left | right]. split; [done|]. apply (Hlt i t p).
    apply elem_of_cons; right. apply elem_of_cons; auto. }
  induction 1 as [| start n log flag evs I | start n log flag e evs I
                 | start n log flag evs1 r evs2 I _ IH ]; intros Hlt.
  - unfold model_calls. simpl. lia.
  - destruct (One _ _ _ _ _ I Hlt) as [->|[-> ?]]; lia.
  - destruct (One _ _ _ _ _ I Hlt) as [->|[-> ?]]; lia.
  - unfold model_calls in *. rewrite count_app.
    assert (H1 : forall j t p, EvModelCall j t p ∈ evs1 -> j < k)
      by (intros j t p In; apply (Hlt j t p), elem_of_app; auto).
    assert (H2 : forall j t p, EvModelCall j t p ∈ evs2 -> j < k)
      by (intros j t p In; apply (Hlt j t p), elem_of_app; auto).
    specialize (IH H2). destruct (One _ _ _ _ _ I H1) as [Z|[O ?]]; unfold model_calls in *; lia.
Qed.

(** With a model that always asks for tools and a flag never found set, a
    loop that returns has run all its iterations. *)
Lemma loop_always_tools env start n log evs :
  always_calls_tools env ->
  loop_events env start n log (Ok tt) evs ->
  (forall k, EvCancelCheck k true ∉ evs) ->
  model_calls evs = n.
Proof.
  intros Always L. remember (Ok tt) as r eqn:E. revert E.
  induction L as [| start n log flag evs I | start n log flag e evs I
                 | start n log flag evs1 r evs2 I _ IH ]; intros E Hit.
  - done.
  - exfalso. inversion I as [|e|e C|content C|content tcs r' evs' C N R]; subst.
    + apply (Hit start). apply elem_of_cons; auto.
    + destruct (Always start (SystemMessage (get_system_prompt env) :: log) (tools_payload env))
        as (c & tc & tcs & A). congruence.
    + destruct (Always start (SystemMessage (get_system_prompt env) :: log) (tools_payload env))
        as (c & tc & tcs & A). congruence.
    + destruct r'; discriminate.
  - discriminate.
  - destruct (iteration_shape _ _ _ _ _ _ I) as (rest & -> & _ & _ & _ & CF & MC & _).
    unfold model_calls in *. rewrite count_app, (MC (CF eq_refl) eq_refl).
    rewrite IH; [done | done |]. intros k In. apply (Hit k), elem_of_app. auto.
Qed.

Section TaskFacts.

Context (env : Env) (map_id : string) (session : UserContext) (user_id : string).

Lemma task_no_cancels :
  process_chat_interaction_task env map_id session user_id
  = task_with_cancels env (fun _ => []) map_id session user_id.
Proof. reflexivity. Qed.

(** The whole task: the events of its loop, then the unlock, which is
    reached exactly when the loop did not raise. *)
Lemma task_spec cancels w r w' :
  task_with_cancels env cancels map_id session user_id w = (r, w') ->
  exists evs,
    loop_events env 0 25 (log_of map_id w) r evs /\
    log_of map_id w' = log_of map_id w ++ appended evs /\
    map_auth <$> user_mundiai_maps w' = map_auth <$> user_mundiai_maps w /\
    (forall k, EvCancelCheck k true ∈ evs ->
       flag_set map_id w = true \/
       exists j caller, j <= k /\ caller ∈ cancels j /\ authorised map_id w caller = true) /\
    (forall k caller, caller ∈ cancels k -> authorised map_id w caller = true ->
       EvCancelCheck k false ∉ evs) /\
    (flag_set map_id w = true -> model_calls evs = 0) /\
    match r with
    | Ok _ =>
        trace w' = trace w ++ evs ++ [EvLockDelete (lock_key map_id)] /\
        redis w' !! lock_key map_id = None
    | Raise _ =>
        trace w' = trace w ++ evs /\
        redis w' !! lock_key map_id = redis w !! lock_key map_id
    end.
Proof.
  unfold task_with_cancels. intros H.
  unfold mbind at 1, M_bind at 1, bind at 1, modify at 1 in H. cbv beta iota zeta in H.
  set (w0 := unbind_limited_query w) in H.
  unfold mbind at 1, M_bind at 1, bind at 1 in H.
  destruct (for_range 0 25 _ w0) as [r1 w1] eqn:L.
  apply loop_spec in L as (evs & T & Lg & A & R & LE & S1 & S2 & S3).
  change (trace w0) with (trace w) in T.
  change (log_of map_id w0) with (log_of map_id w) in Lg, LE.
  change (user_mundiai_maps w0) with (user_mundiai_maps w) in A.
  change (redis w0) with (redis w) in R.
  change (flag_set map_id w0) with (flag_set map_id w) in S1, S3.
  change (authorised map_id w0) with (authorised map_id w) in S1, S2.
  exists evs. destruct r1 as [[]|e].
  - unfold unlock, redis_delete, mbind, M_bind, bind, modify, emit in H.
    cbv beta iota zeta in H. injection H as <- <-. simpl.
    rewrite T, <- app_assoc. repeat split; auto.
    + intros k K. destruct (S1 k K) as [?|(j & c & ? & ? & ?)]; [by left|].
      right. exists j, c. split; [lia | done].
    + intros k c In Au. apply (S2 k c); [lia | done | done].
    + apply lookup_delete_eq.
  - injection H as <- <-. repeat split; auto.
    + intros k K. destruct (S1 k K) as [?|(j & c & ? & ? & ?)]; [by left|].
      right. exists j, c. split; [lia | done].
    + intros k c In Au. apply (S2 k c); [lia | done | done].
Qed.

End TaskFacts.

(** Where a model call stands in the events of a run. *)
Lemma round_has_no (p : Event -> bool) tcs r evs e :
  (forall f, p (EvIngest f) = false) -> (forall m, p (EvAppend m) = false) ->
  (forall tc, p (EvToolCallStarted tc) = false) ->
  round_events tcs r evs -> e ∈ evs -> p e = false.
Proof.
  intros Hi Ha Hs R In. eapply count_zero_elem; [|exact In]. by eapply round_count.
Qed.

Lemma iteration_model_call_split env i log flag r evs before j t p after :
  iteration_events env i log flag r evs ->
  evs = before ++ EvModelCall j t p :: after ->
  before = [EvCancelCheck i false] /\
  t = SystemMessage (get_system_prompt env) :: log /\ p = tools_payload env.
Proof.
  intros I E.
  assert (Tail : forall tail rest : list Event,
            tail = rest ++ EvModelCall j t p :: after -> EvModelCall j t p ∈ tail)
    by (intros ? ? ->; apply elem_of_app; right; left).
  destruct I as [|e|e C|content C|content tcs r evs C N R];
    destruct before as [|b0 [|b1 before]]; simplify_eq/=; try done;
    match goal with
    | H : _ = _ ++ EvModelCall j t p :: after |- _ => pose proof (Tail _ _ H) as In
    end;
    repeat (apply elem_of_cons in In as [In|In]; [discriminate|]);
    try (by apply elem_of_nil in In).
  by apply (round_has_no is_model_call _ _ _ _ (fun _ => eq_refl) (fun _ => eq_refl)
              (fun _ => eq_refl) R) in In.
Qed.

Lemma loop_model_call_split env start n log r evs :
  loop_events env start n log r evs ->
  forall before j t p after,
    evs = before ++ EvModelCall j t p :: after ->
    t = SystemMessage (get_system_prompt env) :: log ++ appended before /\
    p = tools_payload env.
Proof.
  induction 1 as [start log|start n log flag evs I|start n log flag e evs I
                  |start n log flag evs1 r evs2 I _ IH]; intros before j t p after E.
  - by destruct before.
  - destruct (iteration_model_call_split _ _ _ _ _ _ _ _ _ _ _ I E) as (-> & -> & ->).
    simpl. by rewrite app_nil_r.
  - destruct (iteration_model_call_split _ _ _ _ _ _ _ _ _ _ _ I E) as (-> & -> & ->).
    simpl. by rewrite app_nil_r.
  - apply app_eq_inv in E as [(k & E1 & E2)|(k & E1 & E2)].
    + destruct k as [|x k]; simplify_eq/=.
      * rewrite app_nil_r in *.
        destruct (IH [] j t p after eq_refl) as [-> ->]. simpl. by rewrite app_nil_r.
      * destruct (iteration_model_call_split _ _ _ _ _ _ _ _ _ _ _ I eq_refl) as (-> & -> & ->).
        simpl. by rewrite app_nil_r.
    + subst. destruct (IH k j t p after eq_refl) as [-> ->].
      by rewrite appended_app, app_assoc.
Qed.

Lemma snoc_split {A} (evs before after : list A) (x y : A) :
  x <> y ->
  evs ++ [x] = before ++ y :: after ->
  exists after', after = after' ++ [x] /\ evs = before ++ y :: after'.
Proof.
  intros Ne E. destruct after as [|z after _] using rev_ind.
  - apply app_inj_2 in E as [_ E]; [|done]. by simplify_eq.
  - change (evs ++ [x] = before ++ (y :: after) ++ [z]) in E.
    rewrite app_assoc in E. apply app_inj_2 in E as [E1 E2]; [|done]. simplify_eq.
    by exists after.
Qed.

(** ** The lock at the end of the task *)

(** The lock is deleted, once and after the loop, exactly when nothing
    raised inside the loop; an exception that leaves the loop leaves the
    lock as it was. *)
Lemma task_lock_outcome env cancels map_id session user_id w r w' :
  task_with_cancels env cancels map_id session user_id w = (r, w') ->
  exists evs,
    lock_deletes evs = 0 /\
    match r with
    | Ok _ =>
        trace w' = trace w ++ evs ++ [EvLockDelete (lock_key map_id)] /\
        redis w' !! lock_key map_id = None
    | Raise _ =>
        trace w' = trace w ++ evs /\
        redis w' !! lock_key map_id = redis w !! lock_key map_id
    end.
Proof.
  intros H. apply task_spec in H as (evs & L & _ & _ & _ & _ & _ & T).
  exists evs. split; [|done]. by eapply loop_no_lock_delete.
Qed.

(** ** Rounds whose dispatch steps return *)

Lemma scan_before_model_call pending evs before i t tools after :
  is_Some (scan pending evs) ->
  evs = before ++ EvModelCall i t tools :: after ->
  scan pending before = Some [].
Proof.
  intros [left S] ->. rewrite scan_app in S.
  destruct (scan pending before) as [[|p rest]|]; [done|discriminate|discriminate].
Qed.

Lemma dispatched_app (a b : list Event) : dispatched (a ++ b) = dispatched a ++ dispatched b.
Proof.
  induction a as [|e a IH]; [done|]. destruct e; simpl; by rewrite ?IH.
Qed.

Lemma dispatched_ingests (names : list string) : dispatched (EvIngest <$> names) = [].
Proof. induction names; simpl; auto. Qed.

Lemma round_dispatched tcs evs : round_events tcs (Ok tt) evs -> dispatched evs = tcs.
Proof.
  intros R. remember (Ok tt) as r eqn:E. revert E.
  induction R as [|tc tcs r evs1 evs2 D _ IH|tc tcs e evs1 D]; intros E; [done| |done].
  destruct D as [[? _]|(rest & -> & ingests & res & ->)]; [done|].
  rewrite dispatched_app. simpl. rewrite dispatched_app, dispatched_ingests. simpl.
  by rewrite (IH E).
Qed.

(** The messages a round appends, however it ends: one result for each of
    the first invocations, in their order, and for all of them exactly when
    no dispatch step raised. *)
Lemma round_answers tcs r evs :
  round_events tcs r evs ->
  exists results,
    appended evs = zip_with (fun tc res => ToolMessage (tc_id tc) res) tcs results /\
    length results <= length tcs /\
    (length results < length tcs <-> is_ok r = false).
Proof.
  induction 1 as [|tc tcs r evs1 evs2 D _ IH|tc tcs e evs1 D].
  - exists []. split; [done|]. split; [done|]. simpl. split; [lia|discriminate].
  - destruct IH as (results & A & Le & Iff).
    destruct D as [[? _]|(rest & -> & H)]; [done|].
    apply handler_appended in H as [res H].
    exists (res :: results). simpl. rewrite appended_app, H, A.
    split; [done|]. split; [lia|]. rewrite <- Iff. lia.
  - exists []. split.
    + destruct D as [[_ ->]|(rest & -> & ingests & ->)]; [done|].
      simpl. by rewrite appended_ingests.
    + simpl. split; [lia|]. split; [done|lia].
Qed.

Section RoundFacts.

Context (env : Env) (map_id : string) (session : UserContext) (user_id : string).

Lemma round_returns tcs w :
  (forall tc, tc ∈ tcs -> dispatch_returns env map_id session user_id tc) ->
  is_ok (fst (for_each tcs
                (dispatch_tool_call env map_id session user_id (geoprocessing_names env)) w))
  = true.
Proof.
  revert w. induction tcs as [|tc tcs IH]; intros w All; [done|].
  simpl. unfold mbind, M_bind, bind.
  pose proof (All tc (list_elem_of_here _ _) w) as D.
  destruct (dispatch_tool_call env map_id session user_id (geoprocessing_names env) tc w)
    as [[[]|e] w1]; [|discriminate].
  apply IH. intros tc' In. apply All. by apply list_elem_of_further.
Qed.

Lemma iteration_returns i w content tcs :
  flag_set map_id w = false ->
  authorised map_id w session = true ->
  chat_completions_create env i (SystemMessage (get_system_prompt env) :: log_of map_id w)
    (tools_payload env) = Ok (content, tcs) ->
  (forall tc, tc ∈ tcs -> dispatch_returns env map_id session user_id tc) ->
  fst (loop_iteration env map_id session user_id i w)
  = Ok (match tcs with [] => Break | _ => Continue end).
Proof.
  intros F Au C All.
  unfold loop_iteration, redis_get, redis_delete, kue_notify_error.
  unfold mbind, M_bind, bind, gets, emit, modify, ret. cbv beta iota zeta.
  fold (flag_set map_id w). rewrite F.
  set (w1 := set_trace (fun t => t ++ [EvCancelCheck i false]) w).
  destruct (get_all_map_messages map_id session w1) as [[rows|e] w2] eqn:A;
    apply get_all_map_messages_spec in A as [-> A].
  2: { change (authorised map_id w1 session) with (authorised map_id w session) in A.
       congruence. }
  destruct A as [A _]. change (log_of map_id w1) with (log_of map_id w) in A.
  rewrite A, C.
  unfold add_chat_completion_message, mbind, M_bind, bind, emit, modify.
  cbv beta iota zeta.
  destruct tcs as [|tc tcs]; [done|].
  set (w3 := set_trace _ (insert_message _ _ _ _)).
  pose proof (round_returns (tc :: tcs) w3 All) as R.
  destruct (for_each (tc :: tcs) _ w3) as [[[]|e] w4]; [done|discriminate].
Qed.

End RoundFacts.

(** * The claims *)

(** C1 (the code breaks the claim).  A run in which the model's first reply
    names a tool the dispatch does not know: [HTTPException(400)] leaves the
    task, the final [redis.delete] is never reached, and the lock that
    [send_map_message] set is still held; only its expiry frees the map. *)
Theorem lock_kept_when_dispatch_raises :
  fst (run unknown_tool_reply) = Raise (mkExn (HTTPException 400) "Bad Request") /\
  redis (snd (run unknown_tool_reply)) !! lock_key "M1" = Some (mkEntry "locked" (Some 60)) /\
  lock_deletes (trace (snd (run unknown_tool_reply))) = 0.
Proof.
  vm_compute.
  repeat split; reflexivity.
Qed.

(** C2, as stated, fails.  An unknown tool between two good invocations:
    the assistant message is stored with its three invocations, the first
    is answered, and the exception of the second ends the run with the
    second and the third unanswered for good.  They are in the transcript
    that the first model call of the next run on the map is given. *)
Lemma invocations_left_unanswered_when_a_dispatch_raises :
  let after := snd (run mixed_reply) in
  let again := process_chat_interaction_task (scripted final_reply qgis_down) "M1" owner "user-1"
                 after in
  log_of "M1" after
  = [AssistantMessage None [zoom_call "call_1"; unknown_call "call_2"; zoom_call "call_3"];
     ToolMessage "call_1"
       (JObj [("status", JStr "success");
              ("bounds", JArr [JNum (inject_Z (-10)); JNum (inject_Z (-5));
                               JNum (inject_Z 10); JNum (inject_Z 5)])])] /\
  scan [] (trace after) = Some ["call_2"; "call_3"] /\
  take 2 (drop (length (trace after)) (trace (snd again)))
  = [EvCancelCheck 0 false;
     EvModelCall 0
       (SystemMessage "You are Kue, an AI GIS assistant." :: log_of "M1" after)
       (tools_payload (scripted final_reply qgis_down))].
Proof.
  vm_compute.
  repeat split; reflexivity.
Qed.

(** C2, amended.  A round whose dispatch steps all return stores the
    assistant message followed by exactly one tool message per invocation,
    dispatched and answered in the order of the invocations, and goes on to
    the next iteration.  Every round, however it ends, stores nothing or
    the assistant message followed by the results of the first of its
    invocations, in their order: of all of them exactly when no dispatch
    step raised.  And in every run, whatever the model, the tools and the
    cancel requests do, the events respect [scan]: every model call is
    issued when no invocation of the run is unanswered, on a transcript
    that holds all that the run has stored; a run that returns leaves no
    invocation unanswered, and only a run that raises can leave some. *)
Theorem every_invocation_answered_before_next_model_call
    env cancels map_id session user_id :
  (forall i w content tcs,
     flag_set map_id w = false ->
     authorised map_id w session = true ->
     chat_completions_create env i (SystemMessage (get_system_prompt env) :: log_of map_id w)
       (tools_payload env) = Ok (content, tcs) ->
     (forall tc, tc ∈ tcs -> dispatch_returns env map_id session user_id tc) ->
     exists results w',
       loop_iteration env map_id session user_id i w
       = (Ok (match tcs with [] => Break | _ => Continue end), w') /\
       length results = length tcs /\
       log_of map_id w'
       = log_of map_id w
         ++ AssistantMessage content tcs
            :: zip_with (fun tc res => ToolMessage (tc_id tc) res) tcs results /\
       dispatched (drop (length (trace w)) (trace w')) = tcs) /\
  (forall i w,
     log_of map_id (snd (loop_iteration env map_id session user_id i w)) = log_of map_id w \/
     exists content tcs results,
       log_of map_id (snd (loop_iteration env map_id session user_id i w))
       = log_of map_id w
         ++ AssistantMessage content tcs
            :: zip_with (fun tc res => ToolMessage (tc_id tc) res) tcs results /\
       length results <= length tcs /\
       (length results < length tcs
        <-> is_ok (fst (loop_iteration env map_id session user_id i w)) = false)) /\
  (forall w,
     exists evs,
       trace (snd (task_with_cancels env cancels map_id session user_id w)) = trace w ++ evs /\
       log_of map_id (snd (task_with_cancels env cancels map_id session user_id w))
       = log_of map_id w ++ appended evs /\
       (forall before i t tools after,
          evs = before ++ EvModelCall i t tools :: after ->
          scan [] before = Some [] /\
          t = SystemMessage (get_system_prompt env) :: log_of map_id w ++ appended before) /\
       match fst (task_with_cancels env cancels map_id session user_id w) with
       | Ok _ => scan [] evs = Some []
       | Raise _ => exists unanswered, scan [] evs = Some unanswered
       end).
Proof.
  split; [|split].
  - intros i w content tcs F Au C All.
    pose proof (iteration_returns env map_id session user_id i w content tcs F Au C All) as Ret.
    destruct (loop_iteration env map_id session user_id i w) as [r w'] eqn:H.
    simpl in Ret. subst r.
    apply iteration_spec in H as (evs & T & Lg & _ & _ & I).
    inversion I as [|e|e C'|content' C'|content' tcs' r evs' C' N R E1 E2]; subst.
    + congruence.
    + rewrite C in C'. discriminate.
    + rewrite C in C'. simplify_eq.
      exists [], w'. rewrite T, drop_app_length, Lg. by repeat split.
    + rewrite C in C'. simplify_eq.
      destruct tcs' as [|tc tcs]; [done|].
      destruct r as [[]|e]; [|discriminate].
      destruct (round_appended _ _ R) as (results & Len & A).
      exists results, w'. rewrite T, drop_app_length, Lg.
      split; [done|]. split; [done|]. split.
      * simpl. by rewrite A.
      * simpl. by apply round_dispatched.
  - intros i w.
    destruct (loop_iteration env map_id session user_id i w) as [r w'] eqn:H. simpl.
    apply iteration_spec in H as (evs & _ & Lg & _ & _ & I). rewrite Lg.
    destruct I as [|e|e C|content C|content tcs r evs C N R]; simpl;
      try (left; by rewrite app_nil_r).
    + right. exists content, [], []. simpl. split; [done|]. split; [done|].
      split; [lia|discriminate].
    + right. destruct (round_answers _ _ _ R) as (results & A & Le & Iff).
      exists content, tcs, results. rewrite A. split; [done|]. split; [done|].
      rewrite Iff. by destruct r.
  - intros w.
    destruct (task_with_cancels env cancels map_id session user_id w) as [r w'] eqn:H.
    apply task_spec in H as (evs & L & Lg & _ & _ & _ & _ & T). simpl.
    destruct (scan_loop _ _ _ _ _ _ L) as (left & S & Left).
    destruct r as [[]|e]; destruct T as [T _].
    + exists (evs ++ [EvLockDelete (lock_key map_id)]). split; [done|].
      rewrite appended_app, app_nil_r. split; [done|].
      rewrite (Left eq_refl) in S. split; [|by rewrite scan_app, S].
      intros before i t tools after E.
      apply snoc_split in E as (after' & -> & ->); [|discriminate].
      split; [by eapply scan_before_model_call|].
      by destruct (loop_model_call_split _ _ _ _ _ _ L _ _ _ _ _ eq_refl).
    + exists evs. split; [done|]. split; [done|]. split; [|by exists left].
      intros before i t tools after ->.
      split; [by eapply scan_before_model_call|].
      by destruct (loop_model_call_split _ _ _ _ _ _ L _ _ _ _ _ eq_refl).
Qed.

(** C2, amended, on a run whose first reply asks for two zooms: both are
    dispatched and answered, in that order, and the round goes on. *)
Lemma every_invocation_answered_before_next_model_call_witness :
  exists results w',
    loop_iteration (scripted two_zooms_reply qgis_down) "M1" owner "user-1" 0 locked_world
    = (Ok Continue, w') /\
    length results = 2 /\
    log_of "M1" w'
    = log_of "M1" locked_world
      ++ AssistantMessage None [zoom_call "call_1"; zoom_call "call_2"]
         :: zip_with (fun tc res => ToolMessage (tc_id tc) res)
              [zoom_call "call_1"; zoom_call "call_2"] results /\
    dispatched (drop (length (trace locked_world)) (trace w'))
    = [zoom_call "call_1"; zoom_call "call_2"].
Proof.
  apply (proj1 (every_invocation_answered_before_next_model_call
                  (scripted two_zooms_reply qgis_down) (fun _ => []) "M1" owner "user-1")
           0 locked_world None [zoom_call "call_1"; zoom_call "call_2"]).
  - reflexivity.
  - reflexivity.
  - reflexivity.
  - intros tc In w.
    apply elem_of_cons in In as [->|In]; [vm_compute; reflexivity|].
    apply elem_of_cons in In as [->|In]; [vm_compute; reflexivity|].
    by apply elem_of_nil in In.
Defined.

(** C3 (the code breaks the claim).  [query_duckdb_sql] called with
    [layer_ids = []], which its schema allows: [tool_args.get("layer_ids",
    [None])[0]] raises [IndexError] outside every [try], although the
    comment beside it reads "Use first layer or None".  No tool message is
    appended for the invocation, the exception leaves the task, and the
    lock stays. *)
Theorem empty_layer_ids_escape_the_handler :
  fst (run empty_layer_ids_reply) = Raise (mkExn IndexError "list index out of range") /\
  appended (trace (snd (run empty_layer_ids_reply)))
  = [AssistantMessage None [empty_layer_ids_call]] /\
  model_calls (trace (snd (run empty_layer_ids_reply))) = 1 /\
  redis (snd (run empty_layer_ids_reply)) !! lock_key "M1" = Some (mkEntry "locked" (Some 60)).
Proof.
  vm_compute.
  repeat split; reflexivity.
Qed.

(** C4 (the code breaks the claim).  An unknown tool between two good
    invocations: the first is dispatched and answered, the dispatch of the
    second raises [HTTPException(400)], the third is never dispatched; the
    exception leaves the task with the second invocation unanswered and
    the lock still held. *)
Theorem unknown_tool_aborts_without_unlock :
  fst (run mixed_reply) = Raise (mkExn (HTTPException 400) "Bad Request") /\
  appended (trace (snd (run mixed_reply)))
  = [AssistantMessage None [zoom_call "call_1"; unknown_call "call_2"; zoom_call "call_3"];
     ToolMessage "call_1"
       (JObj [("status", JStr "success");
              ("bounds", JArr [JNum (inject_Z (-10)); JNum (inject_Z (-5));
                               JNum (inject_Z 10); JNum (inject_Z 5)])])] /\
  count (fun e => match e with EvToolCallStarted _ => true | _ => false end)
    (trace (snd (run mixed_reply))) = 2 /\
  redis (snd (run mixed_reply)) !! lock_key "M1" = Some (mkEntry "locked" (Some 60)) /\
  lock_deletes (trace (snd (run mixed_reply))) = 0.
Proof.
  vm_compute.
  repeat split; reflexivity.
Qed.

(** C5, as stated, fails: the model always asks for a tool and nobody
    cancels, yet the run makes one model call, not 25, and ends with the
    lock held, because the tool asked for is unknown. *)
Lemma one_round_when_the_tool_is_unknown :
  always_calls_tools (scripted unknown_tool_reply qgis_down) /\
  flag_set "M1" locked_world = false /\
  model_calls (trace (snd (run unknown_tool_reply))) = 1 /\
  redis (snd (run unknown_tool_reply)) !! lock_key "M1" = Some (mkEntry "locked" (Some 60)).
Proof.
  split.
  - intros i transcript tools. by exists None, (unknown_call "call_1"), [].
  - vm_compute. repeat split; reflexivity.
Qed.

(** C5, amended.  When the model always asks for at least one tool, the
    flag is not set, no cancel request comes, and nothing raises out of the
    loop, the task makes exactly 25 model calls, those of iterations 0 to
    24, and then deletes the lock, once. *)
Theorem twenty_five_rounds env map_id session user_id w w' :
  always_calls_tools env ->
  flag_set map_id w = false ->
  process_chat_interaction_task env map_id session user_id w = (Ok tt, w') ->
  exists evs,
    trace w' = trace w ++ evs ++ [EvLockDelete (lock_key map_id)] /\
    model_calls evs = 25 /\
    (forall i t p, EvModelCall i t p ∈ evs -> i < 25) /\
    lock_deletes evs = 0 /\
    redis w' !! lock_key map_id = None.
Proof.
  intros Always Flag H. rewrite task_no_cancels in H.
  apply task_spec in H as (evs & L & _ & _ & Hits & _ & _ & T & K).
  exists evs. split; [done|]. split; [|split; [|split; [|done]]].
  - apply (loop_always_tools _ _ _ _ _ Always L).
    intros k In. destruct (Hits k In) as [F|(j & caller & _ & C & _)].
    + congruence.
    + by apply elem_of_nil in C.
  - intros i t p In. apply (loop_model_call_checked _ _ _ _ _ _ L) in In. lia.
  - by eapply loop_no_lock_delete.
Qed.

(** C5, amended, on a run whose every round zooms the map. *)
Lemma twenty_five_rounds_witness :
  exists evs,
    trace (snd (run zoom_reply)) = trace locked_world ++ evs ++ [EvLockDelete (lock_key "M1")] /\
    model_calls evs = 25 /\
    (forall i t p, EvModelCall i t p ∈ evs -> i < 25) /\
    lock_deletes evs = 0 /\
    redis (snd (run zoom_reply)) !! lock_key "M1" = None.
Proof.
  apply (twenty_five_rounds (scripted zoom_reply qgis_down) "M1" owner "user-1" locked_world).
  - intros i transcript tools. by exists None, (zoom_call "call_1"), [].
  - reflexivity.
  - vm_compute. reflexivity.
Defined.

Lemma iteration_cancelled env map_id session user_id i w :
  flag_set map_id w = true ->
  loop_iteration env map_id session user_id i w
  = (Ok Break,
     set_redis (fun r => delete (cancelled_key map_id) r)
       (set_trace (fun t => t ++ [EvCancelCheck i true]) w)).
Proof.
  intros F. unfold loop_iteration, redis_get, redis_delete.
  unfold mbind, M_bind, bind, gets, emit, modify, ret. cbv beta iota zeta.
  fold (flag_set map_id w). by rewrite F.
Qed.

(** C6.  Every iteration starts by reading the flag, and reads it once: the
    first event of an iteration is its cancel check and no other check
    follows in it.  When the flag is set the iteration does nothing but
    delete the flag and break.  In a whole run, a cancel request of an
    authorised caller served before iteration [k] reads the flag means that
    no model call of iteration [k] or later is issued, so at most [k] model
    calls are made; and when the run returns, the lock is gone.  A run that
    starts with the flag set makes no model call at all. *)
Theorem cancellation_checked_once_at_the_top env map_id session user_id :
  (forall i w,
     exists rest,
       trace (snd (loop_iteration env map_id session user_id i w))
       = trace w ++ EvCancelCheck i (flag_set map_id w) :: rest /\
       count is_cancel_check rest = 0 /\
       (flag_set map_id w = true ->
        loop_iteration env map_id session user_id i w
        = (Ok Break,
           set_redis (fun r => delete (cancelled_key map_id) r)
             (set_trace (fun t => t ++ [EvCancelCheck i true]) w)))) /\
  (forall cancels k caller w,
     caller ∈ cancels k ->
     authorised map_id w caller = true ->
     exists evs,
       trace (snd (task_with_cancels env cancels map_id session user_id w)) = trace w ++ evs /\
       (forall j t p, EvModelCall j t p ∈ evs -> j < k) /\
       model_calls evs <= k /\
       (is_ok (fst (task_with_cancels env cancels map_id session user_id w)) = true ->
        redis (snd (task_with_cancels env cancels map_id session user_id w)) !! lock_key map_id
        = None)) /\
  (forall cancels w,
     flag_set map_id w = true ->
     exists evs,
       trace (snd (task_with_cancels env cancels map_id session user_id w)) = trace w ++ evs /\
       model_calls evs = 0).
Proof.
  split; [|split].
  - intros i w.
    destruct (loop_iteration env map_id session user_id i w) as [r w'] eqn:H.
    pose proof H as H'.
    apply iteration_spec in H as (evs & T & _ & _ & _ & I).
    destruct (iteration_shape _ _ _ _ _ _ I) as (rest & -> & NC & _).
    exists rest. simpl. split; [done|]. split; [done|].
    intros F. rewrite <- H'. by apply iteration_cancelled.
  - intros cancels k caller w In Au.
    destruct (task_with_cancels env cancels map_id session user_id w) as [r w'] eqn:H.
    apply task_spec in H as (evs & L & _ & _ & _ & Seen & Set0 & T). simpl.
    assert (Before : forall j t p, EvModelCall j t p ∈ evs -> j < k).
    { intros j t p M. destruct (decide (j < k)) as [|Hge]; [done|]. exfalso.
      destruct (loop_model_call_checked _ _ _ _ _ _ L _ _ _ M) as [_ Checked].
      apply (Seen k caller In Au). apply Checked. lia. }
    assert (Bound : model_calls evs <= k).
    { pose proof (loop_model_calls_bound _ _ _ _ _ _ k L Before). lia. }
    destruct r as [[]|e]; destruct T as [T K].
    + exists (evs ++ [EvLockDelete (lock_key map_id)]). split; [done|].
      split; [|split; [|done]].
      * intros j t p [M|M]%elem_of_app; [by eapply Before|].
        apply list_elem_of_singleton in M. discriminate.
      * unfold model_calls in *. rewrite count_app. simpl. lia.
    + exists evs. repeat split; auto. discriminate.
  - intros cancels w Fw.
    destruct (task_with_cancels env cancels map_id session user_id w) as [r w'] eqn:H.
    apply task_spec in H as (evs & _ & _ & _ & _ & _ & Set0 & T). simpl.
    specialize (Set0 Fw).
    destruct r as [[]|e]; destruct T as [T _].
    + exists (evs ++ [EvLockDelete (lock_key map_id)]). split; [done|].
      unfold model_calls in *. rewrite count_app, Set0. done.
    + by exists evs.
Qed.

(** C6 on a run in which the owner cancels during the first round. *)
Lemma cancelled_before_round_two_witness :
  exists evs,
    trace (snd (task_with_cancels (scripted zoom_reply qgis_down) cancel_during_first_round
                  "M1" owner "user-1" locked_world))
    = trace locked_world ++ evs /\
    (forall j t p, EvModelCall j t p ∈ evs -> j < 1) /\
    model_calls evs <= 1 /\
    (is_ok (fst (task_with_cancels (scripted zoom_reply qgis_down) cancel_during_first_round
                   "M1" owner "user-1" locked_world)) = true ->
     redis (snd (task_with_cancels (scripted zoom_reply qgis_down) cancel_during_first_round
                   "M1" owner "user-1" locked_world)) !! lock_key "M1" = None).
Proof.
  apply (proj1 (proj2 (cancellation_checked_once_at_the_top (scripted zoom_reply qgis_down)
                         "M1" owner "user-1")) cancel_during_first_round 1 owner locked_world).
  - apply list_elem_of_singleton. reflexivity.
  - reflexivity.
Defined.

Lemma insert_system_messages map_id user_id contents : forall w,
  exists w',
    for_each contents (fun content => modify (insert_message map_id user_id (SystemMessage content))) w
    = (Ok tt, w') /\
    redis w' = redis w /\
    background_tasks w' = background_tasks w /\
    trace w' = trace w /\
    message_seq w' = message_seq w + length contents /\
    log_of map_id w' = log_of map_id w ++ (SystemMessage <$> contents).
Proof.
  induction contents as [|content contents IH]; intros w; simpl.
  - exists w. rewrite app_nil_r. repeat split; auto.
  - unfold mbind, M_bind, bind. unfold modify at 1. cbv beta iota zeta.
    destruct (IH (insert_message map_id user_id (SystemMessage content) w))
      as (w' & E & R & B & T & Q & L).
    exists w'. rewrite E, R, B, T, Q, L, log_of_insert, <- app_assoc. simpl.
    repeat split; auto.
Qed.

(** C7.  A call that finds the lock held is rejected and changes nothing:
    no message is stored, no task is queued, the stores are as before; for
    the owner of a live map the rejection is the 409 conflict.  A call of
    the owner that finds no lock sets it with a 60 second expiry, stores
    the system messages and the user's message, and queues the task. *)
Theorem send_map_message_conflict env map_id message session w :
  (lock_held map_id w = true ->
   exists e,
     send_map_message env map_id message session w = (Raise e, w) /\
     (authorised map_id w session = true ->
      e = mkExn (HTTPException 409) "Map is currently being processed by another request")) /\
  (lock_held map_id w = false ->
   authorised map_id w session = true ->
   exists response w',
     send_map_message env map_id message session w = (Ok response, w') /\
     status response = "processing_started" /\
     redis w' = <[lock_key map_id := mkEntry "locked" (Some 60)]> (redis w) /\
     background_tasks w'
     = background_tasks w ++ [mkTask map_id session (get_user_id session)] /\
     log_of map_id w'
     = log_of map_id w
       ++ (SystemMessage
             <$> get_system_messages env (log_of map_id w) (get_map_description env map_id))
       ++ [message]).
Proof.
  unfold lock_held, authorised, send_map_message, redis_get, redis_set, get_all_map_messages.
  unfold mbind, M_bind, bind, gets, raise, ret. cbv beta iota zeta.
  destruct (select_live_map map_id w) as [row|] eqn:Sel.
  2: { split; [|discriminate]. intros _. eexists. split; [reflexivity | discriminate]. }
  destruct (String.eqb (get_user_id session) (m_owner_uuid row)) eqn:Own; cbn [negb].
  2: { split; [|discriminate]. intros _. eexists. split; [reflexivity | discriminate]. }
  destruct (truthy_reply (value <$> redis w !! lock_key map_id)) eqn:Held.
  { split; [|discriminate]. intros _. eexists. split; [reflexivity | done]. }
  split; [discriminate|]. intros _ _.
  unfold modify at 1. cbv beta iota zeta.
  set (w1 := set_redis _ w).
  change (select_live_map map_id w1) with (select_live_map map_id w).
  rewrite Sel, Own. cbn [negb]. cbv beta iota zeta.
  change (r_message_json <$> filter (fun r => r_map_id r = map_id) (chat_completion_messages w1))
    with (log_of map_id w).
  set (contents := get_system_messages env (log_of map_id w) (get_map_description env map_id)).
  destruct (insert_system_messages map_id (get_user_id session) contents w1)
    as (w2 & E & R & B & T & Q & L).
  rewrite E. unfold modify. cbv beta iota zeta.
  eexists _, _. split; [reflexivity|]. split; [reflexivity|]. simpl.
  rewrite R, B. split; [done|]. split; [done|].
  change (log_of map_id (insert_message map_id (get_user_id session) message w2)
          = log_of map_id w ++ (SystemMessage <$> contents) ++ [message]).
  by rewrite log_of_insert, L, <- app_assoc.
Qed.

(** C7 on a map whose lock is held: the owner gets the conflict. *)
Lemma send_map_message_conflict_witness :
  exists e,
    send_map_message (scripted zoom_reply qgis_down) "M1" (UserMessage "Add a buffer") owner
      locked_world = (Raise e, locked_world) /\
    (authorised "M1" locked_world owner = true ->
     e = mkExn (HTTPException 409) "Map is currently being processed by another request").
Proof.
  apply (proj1 (send_map_message_conflict (scripted zoom_reply qgis_down) "M1"
                  (UserMessage "Add a buffer") owner locked_world)).
  reflexivity.
Defined.

(** ** The geoprocessing bridge *)

Lemma check_uploaded_sound qgis_result upload_results :
  py_get_default qgis_result "upload_results" (JObj []) = Ok upload_results ->
  match check_uploaded declared_outputs upload_results qgis_result with
  | Ok None => output_confirmed qgis_result "OUTPUT" = true
  | Ok (Some failure) =>
      output_confirmed qgis_result "OUTPUT" = false /\ status_of failure = Some (JStr "error")
  | Raise _ => output_confirmed qgis_result "OUTPUT" = false
  end.
Proof.
  unfold py_get_default, output_confirmed, declared_outputs, check_uploaded, res_bind,
    py_in, py_getitem.
  intros H. destruct qgis_result; try discriminate. injection H as <-.
  destruct (assoc "upload_results" fields) as [[| | | |items|results]|]; simpl; auto.
  - destruct (bool_decide _); simpl; auto.
  - destruct (existsb _ items); simpl; auto.
  - destruct (assoc "OUTPUT" results) as [entry|] eqn:E.
    + rewrite bool_decide_eq_true_2 by eauto.
      destruct entry as [| | | | |entry]; simpl; auto.
      destruct (assoc "uploaded" entry) as [uploaded|]; simpl; auto.
      destruct (truthy uploaded); simpl; auto.
    + rewrite bool_decide_eq_false_2 by (intros [? ?]; discriminate). simpl. auto.
Qed.


Lemma geoprocessing_body_answer env map_id user_id tc tool algorithm mapped w r w' :
  geoprocessing_body env map_id user_id tc tool algorithm mapped w = (r, w') ->
  match fst (resolve_inputs env user_id tc mapped w), select_map map_id w with
  | Ok (params, urls), Some map_row =>
      exists extension,
        (extension = ".fgb" \/ extension = ".tif") /\
        let project_id := m_project_id map_row in
        let filename := generate_id env "L" (id_seq w) +:+ extension in
        let key := "uploads/" +:+ user_id +:+ "/" +:+ project_id +:+ "/" +:+ filename in
        let request :=
          mkQgisRequest algorithm params
            [("OUTPUT", generate_presigned_url env "put_object" key)] urls in
        match qgis_post env request with
        | Ok response =>
            if remote_success response then
              match s3_get_object env key with
              | Ok content =>
                  match internal_upload_layer env map_id filename content user_id project_id with
                  | Ok row =>
                      trace w' = trace w ++ [EvIngest filename] /\
                      map_layers w' = map_layers w ++ [row] /\
                      user_mundiai_maps w'
                      = append_layer_row (l_layer_id row) map_id <$> user_mundiai_maps w /\
                      exists res entry,
                        r = Ok res /\ status_of res = Some (JStr "success") /\
                        created_layers_of res = Some (JArr [entry]) /\
                        py_get entry "layer_id" = Ok (JStr (l_layer_id row))
                  | Raise _ =>
                      is_ok r = false /\ trace w' = trace w ++ [EvIngest filename] /\
                      map_layers w' = map_layers w /\
                      user_mundiai_maps w' = user_mundiai_maps w
                  end
              | Raise _ =>
                  is_ok r = false /\ trace w' = trace w /\
                  map_layers w' = map_layers w /\ user_mundiai_maps w' = user_mundiai_maps w
              end
            else
              match r with Ok res => status_of res = Some (JStr "error") | Raise _ => True end /\
              trace w' = trace w /\
              map_layers w' = map_layers w /\ user_mundiai_maps w' = user_mundiai_maps w
        | Raise _ =>
            is_ok r = false /\ trace w' = trace w /\
            map_layers w' = map_layers w /\ user_mundiai_maps w' = user_mundiai_maps w
        end
  | _, _ =>
      is_ok r = false /\ trace w' = trace w /\
      map_layers w' = map_layers w /\ user_mundiai_maps w' = user_mundiai_maps w
  end.
Proof.
  unfold geoprocessing_body, new_id. intros H.
  unfold_m. cbv beta iota zeta in H.
  destruct (resolve_inputs env user_id tc mapped w) as [[[params urls]|e] w1] eqn:R;
    pose proof (resolve_inputs_pure _ _ _ _ _ _ _ R); subst w1; cbn [fst]; simplify_eq;
    [|done].
  cbn [create_layers fmap list_fmap fst] in H. unfold upload_layer in H.
  change ["OUTPUT"] with declared_outputs in H.
  destruct (select_map map_id w) as [map_row|] eqn:Sel; [|by simplify_eq].
  destruct (count_from "raster" 0 (lower (g_description tool)) <?
            count_from "vector" 0 (lower (g_description tool)))%nat;
    [exists ".fgb" | exists ".tif"];
    (split; [auto|]);
    cbv zeta; cbn [o_s3_key o_layer_id o_file_extension o_layer_type] in H;
    cbv beta iota zeta in H.
  all: match type of H with
       | context [qgis_post ?en ?rq] => destruct (qgis_post en rq) as [response|e] eqn:Q
       end; [|by simplify_eq].
  all: unfold remote_success.
  all: match goal with
       | |- context [(status_code ?rs =? 200)%nat] =>
           destruct (status_code rs =? 200)%nat eqn:Code; cbn [negb andb] in *;
           [|by simplify_eq];
           destruct (resp_json rs) as [qgis_result|e'] eqn:J; [|by simplify_eq]
       end.
  all: cbn [forallb declared_outputs andb].
  all: rewrite andb_true_r.
  all: destruct (py_get_default qgis_result "upload_results" (JObj [])) as [upload_results|e']
         eqn:G;
    [|destruct qgis_result; simpl in G; try discriminate; by simplify_eq].
  all: pose proof (check_uploaded_sound _ _ G) as Sound.
  all: destruct (check_uploaded declared_outputs upload_results qgis_result)
         as [[failure|]|e'];
    [destruct Sound as [Sound Failure]; rewrite Sound; by simplify_eq
    | rewrite Sound
    | rewrite Sound; by simplify_eq].
  all: unfold_m; cbv beta iota zeta in H.
  all: match goal with
       | |- context [s3_get_object ?en ?k] =>
           destruct (s3_get_object en k) as [content|e'] eqn:S3; [|by simplify_eq]
       end.
  all: cbv beta iota zeta in H.
  all: match goal with
       | |- context [internal_upload_layer ?en ?m ?f ?c ?u ?p] =>
           destruct (internal_upload_layer en m f c u p) as [row|e'] eqn:Up
       end.
  all: unfold_m; cbv beta iota zeta in H; simplify_eq; simpl.
  all: try done.
  all: split; [reflexivity|]; split; [reflexivity|]; split; [reflexivity|].
  all: eexists _, _; split; [reflexivity|]; split; [reflexivity|]; split; reflexivity.
Qed.

(** C8.  A geoprocessing invocation (a tool of [get_tools], arguments a
    JSON object) always returns a result, and what it creates is decided by
    the answer that the remote service gives to the request of this very
    invocation: the algorithm of the tool, the resolved arguments and a
    presigned upload URL for the one declared output, OUTPUT.  When the
    arguments do not resolve or the map has no row, no request is sent.
    When the request fails, or the answer is not a 200, or it does not
    confirm OUTPUT as uploaded, the result is an error, nothing is ingested
    and the layer and map tables are as before.  When the answer is a 200
    that confirms OUTPUT, the uploaded file is read and handed to
    [internal_upload_layer], the ingestion path of direct uploads, once:
    when that returns, the result is a success, the layer table has exactly
    one row more, the row of the ingestion, the layer is attached to the
    map and it is the one entry of [created_layers]; when reading or
    ingesting fails, the result is an error and no layer is created. *)
Theorem remote_failure_creates_no_layer env map_id user_id tc fields tool w :
  tc_arguments tc = Json (JObj fields) ->
  find (fun t => String.eqb (tc_name tc) (g_name t)) (get_tools env) = Some tool ->
  exists res w',
    run_geoprocessing_tool env map_id user_id tc w = (Ok res, w') /\
    match fst (resolve_inputs env user_id tc
                 (dict_set "user_uuid" (JStr user_id) (dict_set "map_id" (JStr map_id) fields)) w),
          select_map map_id w with
    | Ok (params, urls), Some map_row =>
        exists extension,
          (extension = ".fgb" \/ extension = ".tif") /\
          let project_id := m_project_id map_row in
          let filename := generate_id env "L" (id_seq w) +:+ extension in
          let key := "uploads/" +:+ user_id +:+ "/" +:+ project_id +:+ "/" +:+ filename in
          let request :=
            mkQgisRequest (underscores_to_colons (g_name tool)) params
              [("OUTPUT", generate_presigned_url env "put_object" key)] urls in
          match qgis_post env request with
          | Ok response =>
              if remote_success response then
                match s3_get_object env key with
                | Ok content =>
                    match internal_upload_layer env map_id filename content user_id project_id
                    with
                    | Ok row =>
                        status_of res = Some (JStr "success") /\
                        trace w' = trace w ++ [EvIngest filename] /\
                        map_layers w' = map_layers w ++ [row] /\
                        user_mundiai_maps w'
                        = append_layer_row (l_layer_id row) map_id <$> user_mundiai_maps w /\
                        exists entry,
                          created_layers_of res = Some (JArr [entry]) /\
                          py_get entry "layer_id" = Ok (JStr (l_layer_id row))
                    | Raise _ =>
                        status_of res = Some (JStr "error") /\
                        trace w' = trace w ++ [EvIngest filename] /\
                        map_layers w' = map_layers w /\
                        user_mundiai_maps w' = user_mundiai_maps w
                    end
                | Raise _ =>
                    status_of res = Some (JStr "error") /\ trace w' = trace w /\
                    map_layers w' = map_layers w /\ user_mundiai_maps w' = user_mundiai_maps w
                end
              else
                status_of res = Some (JStr "error") /\ trace w' = trace w /\
                map_layers w' = map_layers w /\ user_mundiai_maps w' = user_mundiai_maps w
          | Raise _ =>
              status_of res = Some (JStr "error") /\ trace w' = trace w /\
              map_layers w' = map_layers w /\ user_mundiai_maps w' = user_mundiai_maps w
          end
    | _, _ =>
        status_of res = Some (JStr "error") /\ trace w' = trace w /\
        map_layers w' = map_layers w /\ user_mundiai_maps w' = user_mundiai_maps w
    end.
Proof.
  intros Hargs Htool. unfold run_geoprocessing_tool.
  unfold mbind, M_bind, bind, lift, ret, try_except. cbv beta iota zeta.
  rewrite Hargs, Htool. simpl loads. cbv beta iota zeta.
  set (mapped := dict_set "user_uuid" _ _).
  set (algorithm := underscores_to_colons (g_name tool)).
  destruct (geoprocessing_body env map_id user_id tc tool algorithm mapped w) as [r w'] eqn:B.
  apply geoprocessing_body_answer in B.
  destruct r as [res|e];
    [exists res, w'; split; [reflexivity|]
    |destruct (exn_class e); (eexists _, w'; split; [reflexivity|])].
  all: destruct (fst (resolve_inputs env user_id tc mapped w)) as [[params urls]|e0];
    [destruct (select_map map_id w) as [map_row|];
     [destruct B as (extension & X & B); exists extension; split; [exact X|];
      cbv zeta in *;
      destruct (qgis_post env _) as [response|e1];
      [destruct (remote_success response);
       [destruct (s3_get_object env _) as [content|e2];
        [destruct (internal_upload_layer env _ _ _ _ _) as [row|e3]|]|]|]|]|].
  all: try (destruct B as (B1 & B2 & B3 & B4); simpl in B1; first [discriminate | done]).
  all: destruct B as (T & L & U & res0 & entry & E & S & C & P); [discriminate E || idtac].
  simplify_eq. repeat split; try done. by exists entry.
Qed.

(** C8 on a buffer invocation with the service in order: the answer to the
    request confirms OUTPUT, and one layer is ingested and attached. *)
Lemma remote_failure_creates_no_layer_witness :
  exists res w',
    run_geoprocessing_tool (scripted zoom_reply qgis_up) "M1" "user-1" buffer_call locked_world
    = (Ok res, w') /\
    exists extension,
      (extension = ".fgb" \/ extension = ".tif") /\
      status_of res = Some (JStr "success") /\
      trace w' = trace locked_world ++ [EvIngest ("L0" +:+ extension)] /\
      map_layers w'
      = map_layers locked_world
        ++ [mkLayerRow ("L-" +:+ "L0" +:+ extension) "user-1" (Some ("L0" +:+ extension))
              "vector" None None None None (Some "M1")] /\
      user_mundiai_maps w'
      = append_layer_row ("L-" +:+ "L0" +:+ extension) "M1" <$> user_mundiai_maps locked_world /\
      exists entry,
        created_layers_of res = Some (JArr [entry]) /\
        py_get entry "layer_id" = Ok (JStr ("L-" +:+ "L0" +:+ extension)).
Proof.
  exact (remote_failure_creates_no_layer (scripted zoom_reply qgis_up) "M1" "user-1" buffer_call
           [("INPUT", JStr "L0123456789a"); ("DISTANCE", JNum (inject_Z 100));
            ("OUTPUT", JStr "TEMPORARY_OUTPUT")]
           (mkGeoTool "native_buffer"
              "Computes a buffer area for all the features in a vector layer") locked_world
           eq_refl eq_refl).
Defined.

(** The two outcomes on concrete services: a 500 answer gives an error
    result and no layer; a confirmed answer gives one new layer, attached. *)
Example buffer_with_service_down :
  let out := run_geoprocessing_tool (scripted zoom_reply qgis_down) "M1" "user-1" buffer_call
               locked_world in
  (res_bind (fst out) (fun res => Ok (status_of res)) = Ok (Some (JStr "error"))) /\
  map_layers (snd out) = [roads] /\ trace (snd out) = [].
Proof. vm_compute. repeat split; reflexivity. Qed.

Example buffer_with_service_up :
  let out := run_geoprocessing_tool (scripted zoom_reply qgis_up) "M1" "user-1" buffer_call
               locked_world in
  (res_bind (fst out) (fun res => Ok (status_of res)) = Ok (Some (JStr "success"))) /\
  length (map_layers (snd out)) = 2 /\
  trace (snd out) = [EvIngest "L0.fgb"] /\
  (m_layers <$> user_mundiai_maps (snd out)) = [Some ["L-L0.fgb"]].
Proof. vm_compute. repeat split; reflexivity. Qed.

(** ** Attaching a layer *)

Lemma add_layer_to_map_found env map_id user_id tc args lid new_name name layer w :
  py_get args "layer_id" = Ok (JStr lid) ->
  py_get args "new_name" = Ok new_name ->
  db_text new_name = Ok name ->
  select_layer (Some lid) user_id w = Some layer ->
  add_layer_to_map env map_id user_id tc args w
  = (Ok tt, attached env map_id user_id tc lid new_name name w).
Proof.
  intros Hid Hname Htext Hsel. unfold add_layer_to_map, kue_ephemeral_action.
  unfold mbind, M_bind, bind, lift, gets, modify, ret. cbv beta iota zeta.
  rewrite Hid, Hname. simpl db_text. cbv beta iota zeta.
  rewrite Hsel, Htext. reflexivity.
Qed.

Lemma select_layer_renamed lid user_id name layer w :
  select_layer (Some lid) user_id w = Some layer ->
  exists layer',
    select_layer (Some lid) user_id (update_layer_name name lid w) = Some layer' /\
    l_name layer' = name.
Proof.
  unfold select_layer, update_layer_name. simpl.
  induction (map_layers w) as [|l rows IH]; simpl; [done|].
  destruct (String.eqb lid (l_layer_id l) && String.eqb (l_owner_uuid l) user_id) eqn:E.
  - intros _. apply andb_true_iff in E as [E1 E2].
    apply String.eqb_eq in E1 as <-. rewrite String.eqb_refl. simpl.
    rewrite String.eqb_refl, E2. simpl. eauto.
  - intros H. destruct (String.eqb (l_layer_id l) lid) eqn:E1; simpl.
    + apply String.eqb_eq in E1 as <-. rewrite String.eqb_refl in *. simpl in *.
      rewrite E. auto.
    + rewrite E. auto.
Qed.

Lemma renamed_rows name lid (rows : list LayerRow) l :
  l ∈ ((fun l =>
          if String.eqb (l_layer_id l) lid
          then mkLayerRow (l_layer_id l) (l_owner_uuid l) name (l_type l) (l_s3_key l)
                 (l_postgis_connection_id l) (l_postgis_query l) (l_info l) (l_source_map_id l)
          else l) <$> rows) ->
  l_layer_id l = lid -> l_name l = name.
Proof.
  intros In Hid. apply list_elem_of_fmap in In as (l0 & -> & _).
  destruct (String.eqb (l_layer_id l0) lid) eqn:E; [done|].
  apply String.eqb_neq in E. done.
Qed.

Lemma mem_count lid (layers : list string) :
  mem lid layers = negb (Nat.eqb (length (List.filter (String.eqb lid) layers)) 0).
Proof.
  unfold mem. induction layers as [|x layers IH]; simpl; [done|].
  destruct (String.eqb lid x); simpl; auto.
Qed.

Lemma count_layer_attached lid map_id m :
  m_id m = map_id ->
  count_layer lid (m_layers m) <= 1 ->
  count_layer lid (m_layers (append_layer_row lid map_id m)) = 1.
Proof.
  intros <- Le. unfold append_layer_row. rewrite String.eqb_refl.
  destruct (m_layers m) as [layers|] eqn:E; simpl in *.
  - rewrite mem_count. destruct (length (List.filter (String.eqb lid) layers)) as [|[|n]] eqn:C;
      simpl; rewrite ?E; simpl; [|done|lia].
    rewrite List.filter_app, length_app, C. simpl. by rewrite String.eqb_refl.
  - by rewrite String.eqb_refl.
Qed.

Lemma append_layer_row_again lid map_id m :
  append_layer_row lid map_id (append_layer_row lid map_id m) = append_layer_row lid map_id m.
Proof.
  unfold append_layer_row. destruct (String.eqb (m_id m) map_id) eqn:E; [|by rewrite E].
  destruct (m_layers m) as [layers|] eqn:L; simpl; rewrite ?E; simpl.
  - destruct (mem lid layers) eqn:M; simpl; rewrite ?E, ?L, ?M; [done|]. simpl.
    unfold mem. rewrite existsb_app. simpl. by rewrite String.eqb_refl, orb_true_r.
  - unfold mem. simpl. by rewrite String.eqb_refl.
Qed.

Lemma status_of_attach_report env map_id lid new_name :
  status_of (attach_report env map_id lid new_name) <> Some (JStr "error").
Proof. simpl. discriminate. Qed.

(** C9.  Two [add_layer_to_map] invocations naming the same layer, which
    exists and is the caller's, on a map whose list holds the layer at most
    once: both return and append their tool message; after the first the
    layer is in the list exactly once, the second leaves the list as it is,
    and the second result is the same report as for a first attach, not an
    error. *)
Theorem attach_twice_attaches_once
    env map_id user_id tc1 tc2 args1 args2 lid new_name1 new_name2 name1 name2 layer w :
  py_get args1 "layer_id" = Ok (JStr lid) ->
  py_get args1 "new_name" = Ok new_name1 -> db_text new_name1 = Ok name1 ->
  py_get args2 "layer_id" = Ok (JStr lid) ->
  py_get args2 "new_name" = Ok new_name2 -> db_text new_name2 = Ok name2 ->
  select_layer (Some lid) user_id w = Some layer ->
  (forall m, m ∈ user_mundiai_maps w -> m_id m = map_id -> count_layer lid (m_layers m) <= 1) ->
  exists w1 w2,
    add_layer_to_map env map_id user_id tc1 args1 w = (Ok tt, w1) /\
    add_layer_to_map env map_id user_id tc2 args2 w1 = (Ok tt, w2) /\
    (forall m, m ∈ user_mundiai_maps w1 -> m_id m = map_id -> count_layer lid (m_layers m) = 1) /\
    user_mundiai_maps w2 = user_mundiai_maps w1 /\
    log_of map_id w2
    = log_of map_id w
      ++ [ToolMessage (tc_id tc1) (attach_report env map_id lid new_name1);
          ToolMessage (tc_id tc2) (attach_report env map_id lid new_name2)] /\
    status_of (attach_report env map_id lid new_name2) <> Some (JStr "error").
Proof.
  intros Hid1 Hn1 Ht1 Hid2 Hn2 Ht2 Hsel Hcount.
  destruct (select_layer_renamed lid user_id name1 layer w Hsel) as (layer1 & Hsel1 & _).
  exists (attached env map_id user_id tc1 lid new_name1 name1 w),
         (attached env map_id user_id tc2 lid new_name2 name2
            (attached env map_id user_id tc1 lid new_name1 name1 w)).
  split; [by eapply add_layer_to_map_found|].
  split; [by eapply add_layer_to_map_found|].
  split; [|split; [|split]].
  - intros m In Hm. simpl in In.
    apply list_elem_of_fmap in In as (m0 & -> & In0).
    assert (Hm0 : m_id m0 = map_id).
    { unfold append_layer_row in Hm. repeat case_match; simpl in Hm; auto;
        by apply String.eqb_eq. }
    apply count_layer_attached; auto.
  - simpl. rewrite <- list_fmap_compose. apply list_fmap_ext. intros _ m _.
    apply append_layer_row_again.
  - unfold attached.
    change (log_of map_id (insert_message map_id user_id
              (ToolMessage (tc_id tc2) (attach_report env map_id lid new_name2))
              (insert_message map_id user_id
                 (ToolMessage (tc_id tc1) (attach_report env map_id lid new_name1)) w))
            = log_of map_id w ++ [ToolMessage (tc_id tc1) (attach_report env map_id lid new_name1)]
              ++ [ToolMessage (tc_id tc2) (attach_report env map_id lid new_name2)]).
    by rewrite !log_of_insert, <- app_assoc.
  - apply status_of_attach_report.
Qed.

(** C9 on a map without layers: [roads] attached twice. *)
Lemma attach_twice_attaches_once_witness :
  exists w1 w2,
    add_layer_to_map (scripted zoom_reply qgis_down) "M1" "user-1" (attach_call "call_1" "Roads")
      (attach_args "Roads") locked_world = (Ok tt, w1) /\
    add_layer_to_map (scripted zoom_reply qgis_down) "M1" "user-1" (attach_call "call_2" "Roads")
      (attach_args "Roads") w1 = (Ok tt, w2) /\
    (forall m, m ∈ user_mundiai_maps w1 -> m_id m = "M1" ->
       count_layer "L0123456789a" (m_layers m) = 1) /\
    user_mundiai_maps w2 = user_mundiai_maps w1 /\
    log_of "M1" w2
    = log_of "M1" locked_world
      ++ [ToolMessage "call_1"
            (attach_report (scripted zoom_reply qgis_down) "M1" "L0123456789a" (JStr "Roads"));
          ToolMessage "call_2"
            (attach_report (scripted zoom_reply qgis_down) "M1" "L0123456789a" (JStr "Roads"))] /\
    status_of (attach_report (scripted zoom_reply qgis_down) "M1" "L0123456789a" (JStr "Roads"))
    <> Some (JStr "error").
Proof.
  apply (attach_twice_attaches_once (scripted zoom_reply qgis_down) "M1" "user-1"
           (attach_call "call_1" "Roads") (attach_call "call_2" "Roads")
           (attach_args "Roads") (attach_args "Roads") "L0123456789a"
           (JStr "Roads") (JStr "Roads") (Some "Roads") (Some "Roads") roads locked_world);
    try reflexivity.
  intros m In _. apply list_elem_of_singleton in In as ->. simpl. lia.
Defined.

(** C10.  An [add_layer_to_map] invocation naming a layer that exists and
    is the caller's sets the stored name of that layer to the new name,
    whatever the map's list holds, and adds no row to the layer table; when
    the layer is already in the list of the map, the maps table stays as it
    is. *)
Theorem attach_always_renames env map_id user_id tc args lid new_name name layer w :
  py_get args "layer_id" = Ok (JStr lid) ->
  py_get args "new_name" = Ok new_name ->
  db_text new_name = Ok name ->
  select_layer (Some lid) user_id w = Some layer ->
  exists w',
    add_layer_to_map env map_id user_id tc args w = (Ok tt, w') /\
    (forall l, l ∈ map_layers w' -> l_layer_id l = lid -> l_name l = name) /\
    (exists layer', select_layer (Some lid) user_id w' = Some layer' /\ l_name layer' = name) /\
    length (map_layers w') = length (map_layers w) /\
    ((forall m, m ∈ user_mundiai_maps w -> m_id m = map_id ->
        exists layers, m_layers m = Some layers /\ mem lid layers = true) ->
     user_mundiai_maps w' = user_mundiai_maps w).
Proof.
  intros Hid Hname Htext Hsel.
  exists (attached env map_id user_id tc lid new_name name w).
  split; [by eapply add_layer_to_map_found|].
  split; [|split; [|split]].
  - intros l In Hl. simpl in In. by eapply renamed_rows.
  - destruct (select_layer_renamed lid user_id name layer w Hsel) as (layer' & S & N).
    exists layer'. split; [|done]. exact S.
  - simpl. by rewrite length_fmap.
  - intros Attached. simpl.
    rewrite <- (list_fmap_id (user_mundiai_maps w)) at 2.
    apply list_fmap_ext. intros i m Hm. unfold append_layer_row.
    destruct (String.eqb (m_id m) map_id) eqn:E; [|done].
    apply String.eqb_eq in E.
    destruct (Attached m) as (layers & -> & ->); [|done|done].
    apply list_elem_of_lookup. eauto.
Qed.

(** C10 on the map that already shows [roads]: attaching it again under
    another name renames it. *)
Lemma attach_always_renames_witness :
  exists w',
    add_layer_to_map (scripted zoom_reply qgis_down) "M1" "user-1" (attach_call "call_2" "Streets")
      (attach_args "Streets")
      roads_attached = (Ok tt, w') /\
    (forall l, l ∈ map_layers w' -> l_layer_id l = "L0123456789a" -> l_name l = Some "Streets") /\
    (exists layer',
       select_layer (Some "L0123456789a") "user-1" w' = Some layer' /\
       l_name layer' = Some "Streets") /\
    length (map_layers w')
    = length (map_layers
                roads_attached) /\
    ((forall m,
        m ∈ user_mundiai_maps
              roads_attached ->
        m_id m = "M1" ->
        exists layers, m_layers m = Some layers /\ mem "L0123456789a" layers = true) ->
     user_mundiai_maps w'
     = user_mundiai_maps
         roads_attached).
Proof.
  apply (attach_always_renames (scripted zoom_reply qgis_down) "M1" "user-1"
           (attach_call "call_2" "Streets") (attach_args "Streets") "L0123456789a"
           (JStr "Streets") (Some "Streets")
           (mkLayerRow "L0123456789a" "user-1" (Some "Roads") "vector"
              (Some "uploads/user-1/P1/L0123456789a.fgb") None None None None));
    reflexivity.
Defined.

(** ** Supporting facts on the failures that are converted *)

(** A query without a LIMIT clause is answered with an error result, and
    the dispatch goes on. *)
Lemma query_without_limit_is_answered env map_id user_id tc args connection query connection_row w :
  py_get args "postgis_connection_id" = Ok (JStr connection) ->
  py_get args "sql_query" = Ok (JStr query) ->
  connection <> "" -> query <> "" ->
  select_connection (Some connection) user_id w = Some connection_row ->
  limit_match (strip query) = None ->
  exists w',
    query_postgis_database env map_id user_id tc args w = (Ok tt, w') /\
    appended (drop (length (trace w)) (trace w'))
    = [ToolMessage (tc_id tc)
         (error_result "Query must include a LIMIT clause with a value less than 1000")].
Proof.
  intros Hc Hq Nc Nq Hsel Hlimit.
  unfold query_postgis_database, add_chat_completion_message, tool_message.
  unfold mbind, M_bind, bind, lift, gets, modify, emit, ret. cbv beta iota zeta.
  rewrite Hc, Hq. cbv beta iota zeta. unfold truthy, db_text.
  apply String.eqb_neq in Nc, Nq. rewrite Nc, Nq. cbn [negb orb]. cbv beta iota zeta.
  rewrite Hsel. cbv beta iota zeta. rewrite Hlimit.
  eexists. split; [reflexivity|]. simpl.
  by rewrite drop_app_length.
Qed.

(** A query whose LIMIT is above 1000 is answered with an error result. *)
Lemma query_above_limit_is_answered env map_id user_id tc args connection query connection_row
    limit w :
  py_get args "postgis_connection_id" = Ok (JStr connection) ->
  py_get args "sql_query" = Ok (JStr query) ->
  connection <> "" -> query <> "" ->
  select_connection (Some connection) user_id w = Some connection_row ->
  limit_match (strip query) = Some limit ->
  (1000 < limit)%Z ->
  exists w',
    query_postgis_database env map_id user_id tc args w = (Ok tt, w') /\
    appended (drop (length (trace w)) (trace w'))
    = [ToolMessage (tc_id tc)
         (error_result ("LIMIT value " +:+ pretty limit
                        +:+ " exceeds maximum allowed limit of 1000"))].
Proof.
  intros Hc Hq Nc Nq Hsel Hlimit Habove.
  unfold query_postgis_database, add_chat_completion_message, tool_message.
  unfold mbind, M_bind, bind, lift, gets, modify, emit, ret. cbv beta iota zeta.
  rewrite Hc, Hq. cbv beta iota zeta. unfold truthy, db_text.
  apply String.eqb_neq in Nc, Nq. rewrite Nc, Nq. cbn [negb orb]. cbv beta iota zeta.
  rewrite Hsel. cbv beta iota zeta. rewrite Hlimit.
  apply Z.ltb_lt in Habove. rewrite Habove.
  eexists. split; [reflexivity|]. simpl.
  by rewrite drop_app_length.
Qed.

Example limit_examples :
  limit_match "SELECT * FROM parcels LIMIT 10" = Some 10%Z /\
  limit_match "select * from parcels limit 5000;" = Some 5000%Z /\
  limit_match "SELECT * FROM parcels" = None /\
  limit_match "SELECT * FROM parcels LIMIT 10x" = None.
Proof. vm_compute. repeat split; reflexivity. Qed.

(** After a run that an unknown tool aborted, the invocation stays
    unanswered in the transcript: the first model call of the next run on
    the map is issued on a transcript that holds the assistant message and
    no tool message. *)
Example unanswered_invocation_meets_next_run :
  let after := snd (run unknown_tool_reply) in
  let again := process_chat_interaction_task (scripted unknown_tool_reply qgis_down)
                 "M1" owner "user-1" after in
  nth_error (drop (length (trace after)) (trace (snd again))) 1
  = Some (EvModelCall 0
            [SystemMessage "You are Kue, an AI GIS assistant.";
             AssistantMessage None [unknown_call "call_1"]]
            (tools_payload (scripted unknown_tool_reply qgis_down))).
Proof. vm_compute. reflexivity. Qed.

Example missing_limit_on_a_connection :
  let out := query_postgis_database (scripted zoom_reply qgis_down) "M1" "user-1"
               (mkToolCall "call_1" "query_postgis_database"
                  (Json (postgis_args "SELECT name FROM parcels")))
               (postgis_args "SELECT name FROM parcels") connected_world in
  fst out = Ok tt /\
  appended (trace (snd out))
  = [ToolMessage "call_1"
       (error_result "Query must include a LIMIT clause with a value less than 1000")].
Proof. vm_compute. split; reflexivity. Qed.

(** * Further properties of the module *)

(** ** The routes *)

Lemma store_messages_nil map_id sender_id w : store_messages map_id sender_id [] w = w.
Proof. destruct w. unfold store_messages. simpl. by rewrite app_nil_r, Nat.add_0_r. Qed.

Lemma store_messages_cons map_id sender_id m ms w :
  store_messages map_id sender_id ms (insert_message map_id sender_id m w)
  = store_messages map_id sender_id (m :: ms) w.
Proof.
  unfold store_messages, insert_message. simpl. rewrite <- app_assoc. simpl.
  by rewrite Nat.add_succ_r.
Qed.

Lemma store_system_messages map_id sender_id contents w :
  for_each contents
    (fun content => modify (insert_message map_id sender_id (SystemMessage content))) w
  = (Ok tt, store_messages map_id sender_id (SystemMessage <$> contents) w).
Proof.
  revert w. induction contents as [|content contents IH]; intros w; simpl.
  - by rewrite store_messages_nil.
  - unfold mbind, M_bind, bind. unfold modify at 1. cbv beta iota zeta.
    rewrite IH. by rewrite store_messages_cons.
Qed.

Lemma message_rows_of_map map_id sender_id start messages :
  r_message_json <$> filter (fun r => r_map_id r = map_id)
                       (message_rows map_id sender_id start messages)
  = messages.
Proof.
  revert start. induction messages as [|m ms IH]; intros start; simpl; [done|].
  rewrite filter_cons_True by done. simpl. by rewrite IH.
Qed.

Lemma message_rows_of_another_map map_id other sender_id start messages :
  other <> map_id ->
  filter (fun r => r_map_id r = other) (message_rows map_id sender_id start messages) = [].
Proof.
  intros Ne. revert start. induction messages as [|m ms IH]; intros start; simpl; [done|].
  rewrite filter_cons_False by (simpl; congruence). apply IH.
Qed.

Lemma message_rows_app map_id sender_id start a b :
  message_rows map_id sender_id start (a ++ b)
  = message_rows map_id sender_id start a
    ++ message_rows map_id sender_id (start + length a) b.
Proof.
  revert start. induction a as [|m a IH]; intros start; simpl.
  - by rewrite Nat.add_0_r.
  - rewrite IH. by rewrite Nat.add_succ_r.
Qed.

Lemma message_rows_ids map_id sender_id start messages r :
  r ∈ message_rows map_id sender_id start messages ->
  start <= r_id r < start + length messages /\ r_map_id r = map_id /\ r_sender_id r = sender_id.
Proof.
  revert start. induction messages as [|m ms IH]; intros start; simpl.
  - by intros ?%elem_of_nil.
  - intros [->|In]%elem_of_cons; simpl; [repeat split; lia|].
    apply IH in In. intuition lia.
Qed.

Lemma log_of_store_messages map_id sender_id messages w :
  log_of map_id (store_messages map_id sender_id messages w) = log_of map_id w ++ messages.
Proof.
  unfold log_of, store_messages. simpl.
  by rewrite filter_app, fmap_app, message_rows_of_map.
Qed.

(** What [send_map_message] does for the owner of a live, unlocked map. *)
Lemma send_map_message_accepted env map_id message session w :
  authorised map_id w session = true ->
  lock_held map_id w = false ->
  send_map_message env map_id message session w
  = (Ok (mkResponse
           (pretty (message_seq w + length (system_messages_for env map_id w)))
           "processing_started"),
     set_background_tasks
       (fun tasks => tasks ++ [mkTask map_id session (get_user_id session)])
       (insert_message map_id (get_user_id session) message
          (store_messages map_id (get_user_id session) (system_messages_for env map_id w)
             (set_redis (fun r => <[lock_key map_id := mkEntry "locked" (Some 60)]> r) w)))).
Proof.
  unfold lock_held, authorised, send_map_message, redis_get, redis_set, get_all_map_messages,
    system_messages_for.
  unfold mbind, M_bind, bind, gets, raise, ret. cbv beta iota zeta.
  destruct (select_live_map map_id w) as [row|] eqn:Sel; [|discriminate].
  intros Own Held. rewrite Own. cbn [negb]. cbv beta iota zeta.
  rewrite Held. unfold modify at 1. cbv beta iota zeta.
  set (w1 := set_redis _ w).
  change (select_live_map map_id w1) with (select_live_map map_id w).
  rewrite Sel, Own. cbn [negb]. cbv beta iota zeta.
  change (r_message_json <$> filter (fun r => r_map_id r = map_id) (chat_completion_messages w1))
    with (log_of map_id w).
  rewrite store_system_messages. unfold modify. cbv beta iota zeta.
  reflexivity.
Qed.

Lemma filtered_message_cases m :
  filtered_message m = true <->
  (exists content, m = UserMessage content) \/ (exists content, m = AssistantMessage content []).
Proof.
  split.
  - destruct m as [c|c|c [|tc tcs]|id c]; try discriminate; eauto.
  - intros [[c ->]|[c ->]]; reflexivity.
Qed.

Lemma filter_message_json (p : Message -> bool) (rows : list MessageRow) :
  r_message_json <$> filter (fun msg => p (r_message_json msg) = true) rows
  = filter (fun m => p m = true) (r_message_json <$> rows).
Proof.
  induction rows as [|r rows IH]; [done|].
  rewrite fmap_cons, !filter_cons.
  destruct (decide (p (r_message_json r) = true)); rewrite ?fmap_cons, IH; done.
Qed.

Lemma get_map_messages_authorised map_id session w :
  authorised map_id w session = true ->
  get_map_messages map_id session w
  = (Ok (filter (fun msg => filtered_message (r_message_json msg) = true)
           (filter (fun r => r_map_id r = map_id) (chat_completion_messages w))),
     w).
Proof.
  unfold authorised, get_map_messages, get_all_map_messages.
  unfold mbind, M_bind, bind, gets, raise, ret. cbv beta iota zeta.
  destruct (select_live_map map_id w) as [row|]; [|discriminate].
  intros ->. reflexivity.
Qed.

(** The read route gives the owner the conversation, and nothing of the
    tool traffic: the rows returned are, in the order stored, exactly the
    rows of the map that hold a user message or an assistant message
    without tool calls; system messages, tool results and assistant
    messages that ask for tools are left out.  Nothing is written. *)
Theorem get_map_messages_returns_the_conversation map_id session w :
  authorised map_id w session = true ->
  exists rows,
    get_map_messages map_id session w = (Ok rows, w) /\
    rows `sublist_of` chat_completion_messages w /\
    (forall r,
       r ∈ rows <->
       r ∈ chat_completion_messages w /\ r_map_id r = map_id /\
       ((exists content, r_message_json r = UserMessage content) \/
        (exists content, r_message_json r = AssistantMessage content []))).
Proof.
  intros Au. eexists. split; [by apply get_map_messages_authorised|]. split.
  - etrans; apply sublist_filter.
  - intros r. rewrite !list_elem_of_filter, filtered_message_cases. tauto.
Qed.

Lemma get_map_messages_returns_the_conversation_witness :
  exists rows,
    get_map_messages "M1" owner
      (store_messages "M1" "user-1"
         [SystemMessage "The map has one layer."; UserMessage "Zoom to the study area";
          AssistantMessage None [zoom_call "call_1"];
          ToolMessage "call_1" (JObj [("status", JStr "success")]);
          AssistantMessage (Some "Done.") []] locked_world)
    = (Ok rows,
       store_messages "M1" "user-1"
         [SystemMessage "The map has one layer."; UserMessage "Zoom to the study area";
          AssistantMessage None [zoom_call "call_1"];
          ToolMessage "call_1" (JObj [("status", JStr "success")]);
          AssistantMessage (Some "Done.") []] locked_world) /\
    r_message_json <$> rows
    = [UserMessage "Zoom to the study area"; AssistantMessage (Some "Done.") []].
Proof.
  destruct (get_map_messages_returns_the_conversation "M1" owner
              (store_messages "M1" "user-1"
                 [SystemMessage "The map has one layer."; UserMessage "Zoom to the study area";
                  AssistantMessage None [zoom_call "call_1"];
                  ToolMessage "call_1" (JObj [("status", JStr "success")]);
                  AssistantMessage (Some "Done.") []] locked_world) eq_refl)
    as (rows & E & _).
  exists rows. split; [exact E|].
  injection E as <-. vm_compute. reflexivity.
Defined.

(** Every route starts with the same two checks, the 404 before the 401,
    and a caller who fails them gets that error from each of them with
    nothing read further and nothing written: no lock is set or reported,
    no flag is set, no message is stored or returned, no task is queued. *)
Theorem unauthorised_requests_change_nothing env map_id message session w :
  authorised map_id w session = false ->
  send_map_message env map_id message session w = (Raise (denied map_id w), w) /\
  cancel_map_message map_id session w = (Raise (denied map_id w), w) /\
  get_map_messages map_id session w = (Raise (denied map_id w), w) /\
  get_all_map_messages map_id session w = (Raise (denied map_id w), w).
Proof.
  unfold authorised, denied, send_map_message, cancel_map_message, get_map_messages,
    get_all_map_messages.
  unfold mbind, M_bind, bind, gets, raise, ret. cbv beta iota zeta.
  destruct (select_live_map map_id w) as [row|]; [|done].
  intros ->. done.
Qed.

(** A caller who does not own the map, on a map that is locked: the answer
    is the 401, not the 409. *)
Lemma unauthorised_requests_change_nothing_witness :
  send_map_message (scripted zoom_reply qgis_down) "M1" (UserMessage "Hello")
    (mkSession "user-2") locked_world
  = (Raise (mkExn (HTTPException 401) "Authentication required"), locked_world) /\
  cancel_map_message "M1" (mkSession "user-2") locked_world
  = (Raise (mkExn (HTTPException 401) "Authentication required"), locked_world) /\
  get_map_messages "M1" (mkSession "user-2") locked_world
  = (Raise (mkExn (HTTPException 401) "Authentication required"), locked_world) /\
  get_all_map_messages "M1" (mkSession "user-2") locked_world
  = (Raise (mkExn (HTTPException 401) "Authentication required"), locked_world).
Proof.
  apply (unauthorised_requests_change_nothing (scripted zoom_reply qgis_down) "M1"
           (UserMessage "Hello") (mkSession "user-2") locked_world).
  reflexivity.
Defined.

(** ** Sending, cancelling and running, one after the other *)

Lemma send_map_message_ok env map_id message session w response w' :
  send_map_message env map_id message session w = (Ok response, w') ->
  authorised map_id w session = true /\ lock_held map_id w = false.
Proof.
  unfold lock_held, authorised, send_map_message, redis_get.
  unfold mbind, M_bind, bind, gets, raise, ret. cbv beta iota zeta.
  destruct (select_live_map map_id w) as [row|]; [|discriminate].
  destruct (String.eqb (get_user_id session) (m_owner_uuid row)); [|discriminate].
  cbn [negb]. cbv beta iota zeta.
  destruct (truthy_reply (value <$> redis w !! lock_key map_id)); [discriminate|done].
Qed.

Lemma for_range_break start n body w w' :
  body start w = (Ok Break, w') -> for_range start (S n) body w = (Ok tt, w').
Proof. intros H. simpl. unfold mbind, M_bind, bind. by rewrite H. Qed.

(** The id that [send_map_message] returns is the id of the row that holds
    the user's message: that row is the last of the table, it belongs to
    the map and the caller, and it is the only row whose id prints as the
    returned [message_id]. *)
Theorem send_map_message_returns_the_id_of_the_stored_message
    env map_id message session w response w' :
  ids_below_seq w ->
  send_map_message env map_id message session w = (Ok response, w') ->
  exists id,
    message_id response = pretty id /\
    last (chat_completion_messages w')
    = Some (mkMessageRow id map_id (get_user_id session) message) /\
    (forall r, r ∈ chat_completion_messages w' ->
       pretty (r_id r) = message_id response ->
       r = mkMessageRow id map_id (get_user_id session) message) /\
    ids_below_seq w'.
Proof.
  intros Below H. pose proof (send_map_message_ok _ _ _ _ _ _ _ H) as [Au Free].
  rewrite (send_map_message_accepted _ _ _ _ _ Au Free) in H.
  injection H as <- <-. simpl.
  set (sys := system_messages_for env map_id w).
  exists (message_seq w + length sys). split; [done|]. split; [by rewrite last_snoc|].
  assert (Old : forall r,
            r ∈ chat_completion_messages w
                ++ message_rows map_id (get_user_id session) (message_seq w) sys ->
            r_id r < message_seq w + length sys).
  { intros r [In|In]%elem_of_app.
    - unfold ids_below_seq in Below. rewrite Forall_forall in Below.
      specialize (Below r In). lia.
    - apply message_rows_ids in In. lia. }
  split.
  - intros r [In|In]%elem_of_app E.
    + apply Old in In. apply (inj pretty) in E. lia.
    + by apply list_elem_of_singleton in In.
  - unfold ids_below_seq. simpl. rewrite Forall_forall.
    intros r [In|In]%elem_of_app.
    + apply Old in In. lia.
    + apply list_elem_of_singleton in In. subst r. simpl. lia.
Qed.

Lemma send_map_message_returns_the_id_of_the_stored_message_witness :
  exists id,
    message_id (mkResponse "1" "processing_started") = pretty id /\
    last (chat_completion_messages
            (snd (send_map_message (scripted zoom_reply qgis_down) "M1"
                    (UserMessage "Zoom to the study area") owner
                    (set_redis (fun r => delete (lock_key "M1") r) locked_world))))
    = Some (mkMessageRow id "M1" (get_user_id owner) (UserMessage "Zoom to the study area")) /\
    (forall r,
       r ∈ chat_completion_messages
             (snd (send_map_message (scripted zoom_reply qgis_down) "M1"
                     (UserMessage "Zoom to the study area") owner
                     (set_redis (fun r => delete (lock_key "M1") r) locked_world))) ->
       pretty (r_id r) = message_id (mkResponse "1" "processing_started") ->
       r = mkMessageRow id "M1" (get_user_id owner) (UserMessage "Zoom to the study area")) /\
    ids_below_seq
      (snd (send_map_message (scripted zoom_reply qgis_down) "M1"
              (UserMessage "Zoom to the study area") owner
              (set_redis (fun r => delete (lock_key "M1") r) locked_world))).
Proof.
  apply (send_map_message_returns_the_id_of_the_stored_message
           (scripted zoom_reply qgis_down) "M1" (UserMessage "Zoom to the study area") owner
           (set_redis (fun r => delete (lock_key "M1") r) locked_world)).
  - apply Forall_nil_2.
  - vm_compute. reflexivity.
Defined.

(** A cancel request on an idle map is not lost: it is accepted without a
    look at the lock, it does not hinder the next [send_map_message], and
    the run of that message finds the flag, makes no model call, deletes
    the flag and the lock and returns; the user's message stays the last of
    the transcript, unanswered. *)
Theorem cancel_on_an_idle_map_cancels_the_next_run env map_id message session w :
  authorised map_id w session = true ->
  lock_held map_id w = false ->
  exists w1 response w2 w3,
    cancel_map_message map_id session w = (Ok (JObj [("status", JStr "cancelled")]), w1) /\
    send_map_message env map_id message session w1 = (Ok response, w2) /\
    process_chat_interaction_task env map_id session (get_user_id session) w2 = (Ok tt, w3) /\
    trace w3 = trace w ++ [EvCancelCheck 0 true; EvLockDelete (lock_key map_id)] /\
    last (log_of map_id w3) = Some message /\
    flag_set map_id w3 = false /\
    lock_held map_id w3 = false.
Proof.
  intros Au Free.
  pose proof (cancel_map_message_spec map_id session w) as C. rewrite Au in C.
  set (w1 := set_redis _ w) in C.
  assert (Au1 : authorised map_id w1 session = true) by exact Au.
  assert (Free1 : lock_held map_id w1 = false).
  { unfold lock_held, w1. simpl. rewrite lookup_insert_ne; [exact Free|].
    intros E. by apply (keys_differ map_id). }
  pose proof (send_map_message_accepted env _ message _ _ Au1 Free1) as S.
  set (w2 := set_background_tasks _ _) in S.
  assert (F2 : flag_set map_id w2 = true).
  { unfold flag_set, w2, w1. simpl.
    rewrite lookup_insert_ne by apply keys_differ. by rewrite lookup_insert_eq. }
  set (started := unbind_limited_query w2).
  assert (F2' : flag_set map_id started = true) by exact F2.
  pose proof (iteration_cancelled env map_id session (get_user_id session) 0 started F2') as I.
  set (w2' := set_redis _ _) in I.
  eexists w1, _, w2, _. split; [exact C|]. split; [exact S|]. split.
  { unfold process_chat_interaction_task.
    unfold mbind at 1, M_bind at 1, bind at 1, modify at 1. cbv beta iota zeta.
    fold started. unfold mbind at 1, M_bind, bind.
    rewrite (for_range_break 0 24 _ _ _ I).
    unfold unlock, redis_delete, emit, modify, mbind, M_bind, bind. reflexivity. }
  simpl. split; [by rewrite <- app_assoc|]. split.
  - change (last (log_of map_id
                    (insert_message map_id (get_user_id session) message
                       (store_messages map_id (get_user_id session)
                          (system_messages_for env map_id w1)
                          (set_redis
                             (fun r => <[lock_key map_id := mkEntry "locked" (Some 60)]> r) w1))))
            = Some message).
    by rewrite log_of_insert, last_snoc.
  - split.
    + unfold flag_set. simpl.
      rewrite lookup_delete_ne by (intros E; by apply (keys_differ map_id)).
      by rewrite lookup_delete_eq.
    + unfold lock_held. simpl. by rewrite lookup_delete_eq.
Qed.

Lemma cancel_on_an_idle_map_cancels_the_next_run_witness :
  exists w1 response w2 w3,
    cancel_map_message "M1" owner (set_redis (fun r => delete (lock_key "M1") r) locked_world)
    = (Ok (JObj [("status", JStr "cancelled")]), w1) /\
    send_map_message (scripted zoom_reply qgis_down) "M1" (UserMessage "Zoom to the study area")
      owner w1 = (Ok response, w2) /\
    process_chat_interaction_task (scripted zoom_reply qgis_down) "M1" owner (get_user_id owner) w2
    = (Ok tt, w3) /\
    trace w3
    = trace (set_redis (fun r => delete (lock_key "M1") r) locked_world)
      ++ [EvCancelCheck 0 true; EvLockDelete (lock_key "M1")] /\
    last (log_of "M1" w3) = Some (UserMessage "Zoom to the study area") /\
    flag_set "M1" w3 = false /\
    lock_held "M1" w3 = false.
Proof.
  apply (cancel_on_an_idle_map_cancels_the_next_run (scripted zoom_reply qgis_down) "M1"
           (UserMessage "Zoom to the study area") owner
           (set_redis (fun r => delete (lock_key "M1") r) locked_world)).
  - reflexivity.
  - reflexivity.
Defined.

(** After a run that returned, the map takes the next message: the lock is
    gone and the run did not touch what the route checks, so the owner's
    [send_map_message] is accepted, locks the map again and queues its
    task. *)
Theorem send_is_accepted_after_a_run_that_returned
    env cancels map_id session user_id message w w' :
  authorised map_id w session = true ->
  task_with_cancels env cancels map_id session user_id w = (Ok tt, w') ->
  exists response w'',
    send_map_message env map_id message session w' = (Ok response, w'') /\
    status response = "processing_started" /\
    lock_held map_id w'' = true /\
    background_tasks w'' = background_tasks w' ++ [mkTask map_id session (get_user_id session)] /\
    last (log_of map_id w'') = Some message.
Proof.
  intros Au H. apply task_spec in H as (evs & _ & _ & A & _ & _ & _ & _ & K).
  assert (Au' : authorised map_id w' session = true) by (by rewrite (authorised_auth _ _ _ _ A)).
  assert (Free : lock_held map_id w' = false) by (unfold lock_held; by rewrite K).
  eexists _, _. split; [by apply send_map_message_accepted|]. split; [done|]. simpl. split.
  - unfold lock_held. simpl. by rewrite lookup_insert_eq.
  - split; [done|].
    change (last (log_of map_id
                    (insert_message map_id (get_user_id session) message
                       (store_messages map_id (get_user_id session)
                          (system_messages_for env map_id w')
                          (set_redis
                             (fun r => <[lock_key map_id := mkEntry "locked" (Some 60)]> r) w'))))
            = Some message).
    by rewrite log_of_insert, last_snoc.
Qed.

Lemma send_is_accepted_after_a_run_that_returned_witness :
  exists response w'',
    send_map_message (scripted zoom_reply qgis_down) "M1" (UserMessage "And now the roads") owner
      (snd (run zoom_reply)) = (Ok response, w'') /\
    status response = "processing_started" /\
    lock_held "M1" w'' = true /\
    background_tasks w''
    = background_tasks (snd (run zoom_reply)) ++ [mkTask "M1" owner (get_user_id owner)] /\
    last (log_of "M1" w'') = Some (UserMessage "And now the roads").
Proof.
  apply (send_is_accepted_after_a_run_that_returned (scripted zoom_reply qgis_down)
           (fun _ => []) "M1" owner "user-1" (UserMessage "And now the roads") locked_world).
  - reflexivity.
  - vm_compute. reflexivity.
Defined.

(** ** What a run adds to the conversation the user reads *)

Lemma handler_adds_no_filtered_message tc r evs :
  handler_events tc r evs ->
  filter (fun m => filtered_message m = true) (appended evs) = [].
Proof.
  intros [ingests H]. destruct r.
  - destruct H as [res ->]. by rewrite appended_app, appended_ingests.
  - subst. by rewrite appended_ingests.
Qed.

Lemma round_adds_no_filtered_message tcs r evs :
  round_events tcs r evs ->
  filter (fun m => filtered_message m = true) (appended evs) = [].
Proof.
  assert (D : forall tc r evs, dispatch_events tc r evs ->
              filter (fun m => filtered_message m = true) (appended evs) = []).
  { intros tc r' evs' [[_ ->]|(rest & -> & H)]; [done|].
    simpl. by eapply handler_adds_no_filtered_message. }
  induction 1 as [|tc tcs r evs1 evs2 D1 _ IH|tc tcs e evs1 D1].
  - done.
  - by rewrite appended_app, filter_app, (D _ _ _ D1), IH.
  - by eapply D.
Qed.

Lemma iteration_adds_the_final_answer env i log flag r evs :
  iteration_events env i log flag r evs ->
  filter (fun m => filtered_message m = true) (appended evs) = [] \/
  exists content, r = Ok Break /\ appended evs = [AssistantMessage content []].
Proof.
  intros I. destruct I as [|e|e C|content C|content tcs r evs C N R]; try (left; done).
  - right. by exists content.
  - left. simpl. destruct tcs as [|tc tcs]; [done|].
    rewrite filter_cons_False by (simpl; discriminate).
    by eapply round_adds_no_filtered_message.
Qed.

Lemma loop_adds_the_final_answer env start n log r evs :
  loop_events env start n log r evs ->
  filter (fun m => filtered_message m = true) (appended evs) = [] \/
  exists content,
    r = Ok tt /\
    filter (fun m => filtered_message m = true) (appended evs) = [AssistantMessage content []] /\
    last (appended evs) = Some (AssistantMessage content []).
Proof.
  induction 1 as [start log|start n log flag evs I|start n log flag e evs I
                  |start n log flag evs1 r evs2 I _ IH].
  - by left.
  - apply iteration_adds_the_final_answer in I as [E|(content & _ & E)]; [by left|].
    right. exists content. by rewrite E.
  - apply iteration_adds_the_final_answer in I as [E|(content & ? & _)]; [by left|done].
  - apply iteration_adds_the_final_answer in I as [E|(content & ? & _)]; [|done].
    rewrite appended_app, filter_app, E. simpl.
    destruct IH as [IH|(content & -> & F & L)]; [by left|].
    right. exists content. split; [done|]. split; [done|].
    by rewrite last_app, L.
Qed.

(** Of all that a run stores, the user is shown at most one message more:
    whatever the model, the tools and the cancel requests do, what
    [get_map_messages] returns after the run is what it returned before,
    followed by nothing or by one assistant message without tool calls;
    in the latter case the run returned and that message is the last of
    the transcript. *)
Theorem a_run_shows_at_most_its_final_answer env cancels map_id session user_id viewer w :
  authorised map_id w viewer = true ->
  exists before after answer,
    get_map_messages map_id viewer w = (Ok before, w) /\
    get_map_messages map_id viewer (snd (task_with_cancels env cancels map_id session user_id w))
    = (Ok after, snd (task_with_cancels env cancels map_id session user_id w)) /\
    r_message_json <$> after = (r_message_json <$> before) ++ answer /\
    (answer = [] \/
     exists content,
       answer = [AssistantMessage content []] /\
       fst (task_with_cancels env cancels map_id session user_id w) = Ok tt /\
       last (log_of map_id (snd (task_with_cancels env cancels map_id session user_id w)))
       = Some (AssistantMessage content [])).
Proof.
  intros Au.
  destruct (task_with_cancels env cancels map_id session user_id w) as [r w'] eqn:H.
  apply task_spec in H as (evs & L & Lg & A & _). simpl.
  assert (Au' : authorised map_id w' viewer = true) by (by rewrite (authorised_auth _ _ _ _ A)).
  eexists _, _, (filter (fun m => filtered_message m = true) (appended evs)).
  split; [by apply get_map_messages_authorised|].
  split; [by apply get_map_messages_authorised|].
  rewrite !filter_message_json.
  change (r_message_json <$> filter (fun r => r_map_id r = map_id) (chat_completion_messages w'))
    with (log_of map_id w').
  change (r_message_json <$> filter (fun r => r_map_id r = map_id) (chat_completion_messages w))
    with (log_of map_id w).
  rewrite Lg, filter_app. split; [done|].
  apply loop_adds_the_final_answer in L as [E|(content & -> & E & La)]; [by left|].
  right. exists content. split; [done|]. split; [done|]. by rewrite last_app, La.
Qed.

Lemma a_run_shows_at_most_its_final_answer_witness :
  exists before after answer,
    get_map_messages "M1" owner locked_world = (Ok before, locked_world) /\
    get_map_messages "M1" owner
      (snd (task_with_cancels (scripted zoom_reply qgis_down) (fun _ => []) "M1" owner "user-1"
              locked_world))
    = (Ok after,
       snd (task_with_cancels (scripted zoom_reply qgis_down) (fun _ => []) "M1" owner "user-1"
              locked_world)) /\
    r_message_json <$> after = (r_message_json <$> before) ++ answer /\
    (answer = [] \/
     exists content,
       answer = [AssistantMessage content []] /\
       fst (task_with_cancels (scripted zoom_reply qgis_down) (fun _ => []) "M1" owner "user-1"
              locked_world) = Ok tt /\
       last (log_of "M1"
               (snd (task_with_cancels (scripted zoom_reply qgis_down) (fun _ => []) "M1" owner
                       "user-1" locked_world)))
       = Some (AssistantMessage content [])).
Proof.
  apply (a_run_shows_at_most_its_final_answer (scripted zoom_reply qgis_down) (fun _ => [])
           "M1" owner "user-1" owner locked_world).
  reflexivity.
Defined.

(** ** What a run leaves alone *)

Lemma extends_refl map_id user_id w : extends map_id user_id w w.
Proof.
  split; [done|]. split; [done|]. exists []. simpl. by rewrite app_nil_r, Nat.add_0_r.
Qed.

Lemma extends_trans map_id user_id w1 w2 w3 :
  extends map_id user_id w1 w2 -> extends map_id user_id w2 w3 -> extends map_id user_id w1 w3.
Proof.
  intros (C1 & B1 & m1 & M1 & S1) (C2 & B2 & m2 & M2 & S2).
  split; [congruence|]. split; [congruence|]. exists (m1 ++ m2).
  rewrite M2, M1, S2, S1, message_rows_app, length_app, <- app_assoc. split; [done | lia].
Qed.

Lemma extends_quiet map_id user_id w w' :
  project_postgres_connections w' = project_postgres_connections w ->
  background_tasks w' = background_tasks w ->
  chat_completion_messages w' = chat_completion_messages w ->
  message_seq w' = message_seq w ->
  extends map_id user_id w w'.
Proof.
  intros C B M S. split; [done|]. split; [done|]. exists []. simpl.
  by rewrite app_nil_r, Nat.add_0_r.
Qed.

(** The end of a handler's path: database work on other tables, then at
    most one message stored. *)
Ltac ext_leaf :=
  first [ apply extends_quiet; reflexivity
        | split; [reflexivity|]; split; [reflexivity|];
          eexists [_]; simpl; split; [reflexivity | lia] ].

Section FrameFacts.

Context (env : Env) (map_id : string) (session : UserContext) (user_id : string).

Lemma add_layer_to_map_extends tc args w r w' :
  add_layer_to_map env map_id user_id tc args w = (r, w') -> extends map_id user_id w w'.
Proof. unfold add_layer_to_map. intros H. crush_m; ext_leaf. Qed.

Lemma new_layer_from_postgis_extends tc args w r w' :
  new_layer_from_postgis env map_id user_id tc args w = (r, w') -> extends map_id user_id w w'.
Proof.
  unfold new_layer_from_postgis, create_postgis_layer, insert_postgis_layer, insert_layer_style,
    insert_map_layer_style, new_id.
  intros H. crush_m; ext_leaf.
Qed.

Lemma query_duckdb_sql_extends tc args w r w' :
  query_duckdb_sql env map_id user_id tc args w = (r, w') -> extends map_id user_id w w'.
Proof. unfold query_duckdb_sql. intros H. crush_m; ext_leaf. Qed.

Lemma create_layer_style_extends tc args w r w' :
  create_layer_style env map_id user_id tc args w = (r, w') -> extends map_id user_id w w'.
Proof.
  unfold create_layer_style, store_layer_style, insert_layer_style, new_id.
  intros H. crush_m; ext_leaf.
Qed.

Lemma set_active_style_extends tc args w r w' :
  set_active_style env map_id user_id tc args w = (r, w') -> extends map_id user_id w w'.
Proof. unfold set_active_style. intros H. crush_m; ext_leaf. Qed.

Lemma download_from_openstreetmap_extends tc args w r w' :
  handle_download_from_openstreetmap env map_id session user_id tc args w = (r, w') ->
  extends map_id user_id w w'.
Proof. unfold handle_download_from_openstreetmap. intros H. crush_m; ext_leaf. Qed.

Lemma query_postgis_database_extends tc args w r w' :
  query_postgis_database env map_id user_id tc args w = (r, w') -> extends map_id user_id w w'.
Proof.
  unfold query_postgis_database, run_postgis_query, postgis_query_failed.
  intros H. crush_m; ext_leaf.
Qed.

Lemma zoom_to_bounds_extends tc args w r w' :
  zoom_to_bounds map_id user_id tc args w = (r, w') -> extends map_id user_id w w'.
Proof. unfold zoom_to_bounds, check_bounds. intros H. crush_m; ext_leaf. Qed.

Lemma upload_layer_extends filename content project_id w r w' :
  upload_layer env map_id user_id filename content project_id w = (r, w') ->
  extends map_id user_id w w'.
Proof. unfold upload_layer. intros H. crush_m; ext_leaf. Qed.

Lemma create_layers_extends project_id mappings w r w' :
  create_layers env map_id user_id project_id mappings w = (r, w') ->
  extends map_id user_id w w'.
Proof.
  revert w r w'. induction mappings as [|[param info] rest IH]; intros w r w' H; simpl in H.
  - crush_m. apply extends_refl.
  - unfold_m. cbv beta iota zeta in H.
    destruct (s3_get_object env (o_s3_key info)) as [content|e]; simplify_eq;
      [|apply extends_refl].
    destruct (upload_layer env map_id user_id _ content project_id w) as [[row|e] w1] eqn:U;
      apply upload_layer_extends in U.
    + destruct (create_layers env map_id user_id project_id rest w1) as [[created|e] w2] eqn:C;
        apply IH in C; simplify_eq; by eapply extends_trans.
    + by simplify_eq.
Qed.

Lemma geoprocessing_body_extends tc tool_def algorithm mapped_args w r w' :
  geoprocessing_body env map_id user_id tc tool_def algorithm mapped_args w = (r, w') ->
  extends map_id user_id w w'.
Proof.
  unfold geoprocessing_body, new_id. intros H.
  unfold_m. cbv beta iota zeta in H.
  destruct (resolve_inputs env user_id tc mapped_args w) as [[[params urls]|e] w1] eqn:R;
    apply resolve_inputs_pure in R; subst w1; simplify_eq; [|apply extends_refl].
  repeat (case_match; simplify_eq);
    try (apply extends_quiet; reflexivity);
    match goal with
    | C : create_layers _ _ _ _ _ _ = _ |- _ =>
        apply create_layers_extends in C;
        refine (extends_trans _ _ _ _ _ _ C); apply extends_quiet; reflexivity
    end.
Qed.

Lemma run_geoprocessing_tool_extends tc w r w' :
  run_geoprocessing_tool env map_id user_id tc w = (r, w') -> extends map_id user_id w w'.
Proof.
  unfold run_geoprocessing_tool. intros H.
  unfold_m. cbv beta iota zeta in H.
  repeat (case_match; simplify_eq); try apply extends_refl;
    match goal with
    | G : geoprocessing_body _ _ _ _ _ _ _ _ = _ |- _ =>
        by apply geoprocessing_body_extends in G
    end.
Qed.

Lemma dispatch_extends names tc w r w' :
  dispatch_tool_call env map_id session user_id names tc w = (r, w') ->
  extends map_id user_id w w'.
Proof.
  unfold dispatch_tool_call. intros H.
  unfold mbind, M_bind, bind, lift, emit, modify in H. cbv beta iota zeta in H.
  destruct (loads (tc_arguments tc)) as [args|e]; [|simplify_eq; apply extends_refl].
  set (w1 := set_trace (fun t => t ++ [EvToolCallStarted tc]) w) in *.
  assert (G1 : extends map_id user_id w w1) by (apply extends_quiet; reflexivity).
  repeat match type of H with
         | (if ?c then _ else _) _ = _ => destruct c eqn:?
         end;
    try (refine (extends_trans _ _ _ _ _ G1 _);
         first [ by eapply new_layer_from_postgis_extends | by eapply add_layer_to_map_extends
               | by eapply query_duckdb_sql_extends | by eapply create_layer_style_extends
               | by eapply set_active_style_extends | by eapply download_from_openstreetmap_extends
               | by eapply query_postgis_database_extends | by eapply zoom_to_bounds_extends ];
         fail).
  - refine (extends_trans _ _ _ _ _ G1 _).
    unfold add_chat_completion_message, tool_message in H.
    unfold mbind, M_bind, bind, emit, modify in H. cbv beta iota zeta in H.
    destruct (run_geoprocessing_tool env map_id user_id tc w1) as [[res|e] w2] eqn:G;
      apply run_geoprocessing_tool_extends in G; simplify_eq; [|done].
    refine (extends_trans _ _ _ _ _ G _). ext_leaf.
  - unfold raise in H. by simplify_eq.
Qed.

Lemma round_extends names tcs w r w' :
  for_each tcs (dispatch_tool_call env map_id session user_id names) w = (r, w') ->
  extends map_id user_id w w'.
Proof.
  revert w r w'. induction tcs as [|tc tcs IH]; intros w r w' H; simpl in H.
  - unfold ret in H. simplify_eq. apply extends_refl.
  - unfold mbind, M_bind, bind in H.
    destruct (dispatch_tool_call env map_id session user_id names tc w) as [[[]|e] w1] eqn:D;
      apply dispatch_extends in D.
    + apply IH in H. by eapply extends_trans.
    + by simplify_eq.
Qed.

Lemma iteration_extends i w r w' :
  loop_iteration env map_id session user_id i w = (r, w') -> extends map_id user_id w w'.
Proof.
  unfold loop_iteration, redis_get, redis_delete, kue_notify_error. intros H.
  unfold mbind, M_bind, bind, gets, emit, modify, ret in H. cbv beta iota zeta in H.
  destruct (truthy_reply (value <$> redis w !! cancelled_key map_id)).
  { simplify_eq. apply extends_quiet; reflexivity. }
  set (w1 := set_trace (fun t => t ++ [EvCancelCheck i false]) w) in *.
  destruct (get_all_map_messages map_id session w1) as [[rows|e] w2] eqn:A;
    apply get_all_map_messages_spec in A as [-> _].
  2: { simplify_eq. apply extends_quiet; reflexivity. }
  destruct (chat_completions_create env i _ (tools_payload env)) as [[content tool_calls]|e].
  2: { simplify_eq. apply extends_quiet; reflexivity. }
  unfold add_chat_completion_message, mbind, M_bind, bind, emit, modify in H.
  cbv beta iota zeta in H.
  set (w3 := set_trace _ (insert_message _ _ _ _)) in H.
  assert (G3 : extends map_id user_id w w3) by (subst w3 w1; ext_leaf).
  destruct tool_calls as [|tc tcs]; [by simplify_eq|].
  destruct (for_each (tc :: tcs) _ w3) as [r1 w4] eqn:R.
  apply round_extends in R.
  assert (w' = w4) as -> by (destruct r1 as [[]|]; by simplify_eq).
  by eapply extends_trans.
Qed.

Lemma iteration_redis_elsewhere i w r w' :
  loop_iteration env map_id session user_id i w = (r, w') -> redis_elsewhere map_id w w'.
Proof.
  intros H. apply iteration_spec in H as (evs & _ & _ & _ & R & _).
  intros key _ Hf. rewrite R. destruct (flag_set map_id w); [|done].
  by apply lookup_delete_ne.
Qed.

Lemma serve_cancels_frame callers : forall w,
  exists w',
    for_each callers (fun caller => serve (cancel_map_message map_id caller)) w = (Ok tt, w') /\
    extends map_id user_id w w' /\ redis_elsewhere map_id w w'.
Proof.
  induction callers as [|caller callers IH]; intros w; simpl.
  - exists w. split; [done|]. split; [apply extends_refl | by intros key _ _].
  - unfold mbind, M_bind, bind. rewrite serve_cancel_step.
    destruct (authorised map_id w caller).
    + destruct (IH (set_redis (fun r => <[cancelled_key map_id := mkEntry "true" (Some 300)]> r) w))
        as (w' & E & X & R).
      exists w'. split; [done|]. split.
      * refine (extends_trans _ _ _ _ _ _ X). apply extends_quiet; reflexivity.
      * intros key Hl Hf. rewrite (R key Hl Hf). simpl. by apply lookup_insert_ne.
    + destruct (IH w) as (w' & E & X & R). by exists w'.
Qed.

Lemma loop_frame cancels n : forall start w r w',
  for_range start n
    (fun i =>
       for_each (cancels i) (fun caller => serve (cancel_map_message map_id caller));;
       loop_iteration env map_id session user_id i) w = (r, w') ->
  extends map_id user_id w w' /\ redis_elsewhere map_id w w'.
Proof.
  induction n as [|n IH]; intros start w r w' H; simpl in H.
  { unfold ret in H. simplify_eq. split; [apply extends_refl | by intros key _ _]. }
  unfold mbind, M_bind, bind in H.
  destruct (serve_cancels_frame (cancels start) w) as (w0 & E & X0 & R0).
  rewrite E in H.
  destruct (loop_iteration env map_id session user_id start w0) as [r1 w1] eqn:I.
  pose proof (iteration_extends _ _ _ _ I) as X1.
  pose proof (iteration_redis_elsewhere _ _ _ _ I) as R1.
  assert (X : extends map_id user_id w w1) by (by eapply extends_trans).
  assert (R : redis_elsewhere map_id w w1).
  { intros key Hl Hf. by rewrite (R1 key Hl Hf), (R0 key Hl Hf). }
  destruct r1 as [[|]|e]; [|unfold ret in H; by simplify_eq|by simplify_eq].
  apply IH in H as [X2 R2]. split; [by eapply extends_trans|].
  intros key Hl Hf. by rewrite (R2 key Hl Hf), (R key Hl Hf).
Qed.

Lemma task_frame cancels w r w' :
  task_with_cancels env cancels map_id session user_id w = (r, w') ->
  extends map_id user_id w w' /\ redis_elsewhere map_id w w'.
Proof.
  unfold task_with_cancels, unlock, redis_delete. intros H.
  unfold mbind at 1, M_bind at 1, bind at 1, modify at 1 in H. cbv beta iota zeta in H.
  set (w0 := unbind_limited_query w) in H.
  unfold mbind at 1, M_bind, bind in H.
  destruct (for_range 0 25 _ w0) as [[[]|e] w1] eqn:L; apply loop_frame in L as [X R];
    change (extends map_id user_id w w1) in X; change (redis_elsewhere map_id w w1) in R.
  - unfold mbind, M_bind, bind, emit, modify in H. simplify_eq. split.
    + refine (extends_trans _ _ _ _ _ X _). apply extends_quiet; reflexivity.
    + intros key Hl Hf. simpl. rewrite lookup_delete_ne by done. by apply R.
  - by simplify_eq.
Qed.

End FrameFacts.

Lemma handler_appends_tool_messages tc r evs :
  handler_events tc r evs -> Forall (fun m => message_role m = "tool") (appended evs).
Proof.
  intros [ingests H]. destruct r.
  - destruct H as [res ->]. rewrite appended_app, appended_ingests. simpl. by constructor.
  - subst. rewrite appended_ingests. constructor.
Qed.

Lemma round_appends_tool_messages tcs r evs :
  round_events tcs r evs -> Forall (fun m => message_role m = "tool") (appended evs).
Proof.
  assert (D : forall tc r evs, dispatch_events tc r evs ->
              Forall (fun m => message_role m = "tool") (appended evs)).
  { intros tc r' evs' [[_ ->]|(rest & -> & H)]; [constructor|].
    simpl. by eapply handler_appends_tool_messages. }
  induction 1 as [|tc tcs r evs1 evs2 D1 _ IH|tc tcs e evs1 D1].
  - constructor.
  - rewrite appended_app. apply Forall_app. split; [by eapply D | done].
  - by eapply D.
Qed.

Lemma loop_appends_replies env start n log r evs :
  loop_events env start n log r evs ->
  Forall (fun m => message_role m = "assistant" \/ message_role m = "tool") (appended evs).
Proof.
  assert (I : forall i log flag r evs, iteration_events env i log flag r evs ->
              Forall (fun m => message_role m = "assistant" \/ message_role m = "tool")
                (appended evs)).
  { intros i log' flag r' evs' [|e|e C|content C|content tcs r'' evs'' C N R]; simpl;
      repeat constructor; auto.
    apply round_appends_tool_messages in R. eapply Forall_impl; [exact R|]. auto. }
  induction 1 as [start log|start n log flag evs It|start n log flag e evs It
                  |start n log flag evs1 r evs2 It _ IH]; try (by eapply I).
  - constructor.
  - rewrite appended_app. apply Forall_app. split; [by eapply I | done].
Qed.

(** A run keeps to its own map.  Whatever the model, the tools and the
    cancel requests do, the run of a task on [map_id] leaves every Redis key
    but the map's lock and flag as it was; it deletes and changes no stored
    message and adds, at the end of the table, rows of its own map and
    sender only, numbered with the next serial ids and holding assistant and
    tool messages only; the transcript of every other map is as before; it
    queues no task and touches no connection. *)
Theorem a_run_stays_within_its_map env cancels map_id session user_id w :
  let w' := snd (task_with_cancels env cancels map_id session user_id w) in
  (forall key, key <> lock_key map_id -> key <> cancelled_key map_id ->
     redis w' !! key = redis w !! key) /\
  (exists messages,
     chat_completion_messages w'
     = chat_completion_messages w ++ message_rows map_id user_id (message_seq w) messages /\
     message_seq w' = message_seq w + length messages /\
     Forall (fun m => message_role m = "assistant" \/ message_role m = "tool") messages) /\
  (forall other, other <> map_id -> log_of other w' = log_of other w) /\
  background_tasks w' = background_tasks w /\
  project_postgres_connections w' = project_postgres_connections w.
Proof.
  destruct (task_with_cancels env cancels map_id session user_id w) as [r w'] eqn:H. simpl.
  pose proof (task_frame _ _ _ _ _ _ _ _ H) as [(C & B & messages & M & S) R].
  apply task_spec in H as (evs & L & Lg & _).
  split; [exact R|]. split; [|split; [|done]].
  - exists messages. split; [done|]. split; [done|].
    assert (messages = appended evs) as ->.
    { unfold log_of in Lg. rewrite M, filter_app, fmap_app, message_rows_of_map in Lg.
      by apply app_inv_head in Lg. }
    by eapply loop_appends_replies.
  - intros other Ne. unfold log_of.
    by rewrite M, filter_app, message_rows_of_another_map, app_nil_r.
Qed.

(** ** What the model is given, and what happens when it fails *)

(** Every model call of a run is given the whole transcript of the map as
    it stands at that moment, after the system prompt: what was stored
    before the run, messages of earlier runs included, and everything the
    run has stored so far; and the names of the tools it is offered are the
    same every time. *)
Theorem the_model_is_given_the_whole_transcript
    env cancels map_id session user_id w before i transcript tools after :
  trace (snd (task_with_cancels env cancels map_id session user_id w))
  = trace w ++ before ++ EvModelCall i transcript tools :: after ->
  transcript
  = SystemMessage (get_system_prompt env) :: log_of map_id w ++ appended before /\
  tools = tools_payload env.
Proof.
  destruct (task_with_cancels env cancels map_id session user_id w) as [r w'] eqn:H. simpl.
  apply task_spec in H as (evs & L & _ & _ & _ & _ & _ & T).
  intros E. destruct r as [[]|e]; destruct T as [T _]; rewrite T in E;
    apply app_inv_head in E.
  - apply snoc_split in E as (after' & -> & ->); [|discriminate].
    by eapply loop_model_call_split.
  - by eapply loop_model_call_split.
Qed.

Lemma the_model_is_given_the_whole_transcript_witness :
  SystemMessage "You are Kue, an AI GIS assistant."
  :: [UserMessage "Zoom to the study area"; AssistantMessage None [zoom_call "call_1"];
      ToolMessage "call_1"
        (JObj [("status", JStr "success");
               ("bounds", JArr [JNum (inject_Z (-10)); JNum (inject_Z (-5));
                                JNum (inject_Z 10); JNum (inject_Z 5)])])]
  = SystemMessage (get_system_prompt (scripted final_reply qgis_down))
    :: log_of "M1"
         (store_messages "M1" "user-1"
            [UserMessage "Zoom to the study area"; AssistantMessage None [zoom_call "call_1"];
             ToolMessage "call_1"
               (JObj [("status", JStr "success");
                      ("bounds", JArr [JNum (inject_Z (-10)); JNum (inject_Z (-5));
                                       JNum (inject_Z 10); JNum (inject_Z 5)])])]
            locked_world)
       ++ appended [EvCancelCheck 0 false] /\
  tools_payload (scripted final_reply qgis_down)
  = tools_payload (scripted final_reply qgis_down).
Proof.
  apply (the_model_is_given_the_whole_transcript (scripted final_reply qgis_down) (fun _ => [])
           "M1" owner "user-1"
           (store_messages "M1" "user-1"
              [UserMessage "Zoom to the study area"; AssistantMessage None [zoom_call "call_1"];
               ToolMessage "call_1"
                 (JObj [("status", JStr "success");
                        ("bounds", JArr [JNum (inject_Z (-10)); JNum (inject_Z (-5));
                                         JNum (inject_Z 10); JNum (inject_Z 5)])])]
              locked_world)
           [EvCancelCheck 0 false] 0 _ _
           [EvAppend (AssistantMessage (Some "Done.") []); EvLockDelete (lock_key "M1")]).
  vm_compute. reflexivity.
Defined.

Lemma iteration_notifies env i log flag r evs :
  iteration_events env i log flag r evs ->
  EvNotifyError ∈ evs ->
  r = Ok Break /\
  exists e,
    chat_completions_create env i (SystemMessage (get_system_prompt env) :: log)
      (tools_payload env) = Raise e /\
    evs = [EvCancelCheck i false;
           EvModelCall i (SystemMessage (get_system_prompt env) :: log) (tools_payload env);
           EvNotifyError].
Proof.
  intros I In.
  destruct I as [|e|e C|content C|content tcs r evs C N R].
  - apply list_elem_of_singleton in In. discriminate.
  - apply list_elem_of_singleton in In. discriminate.
  - split; [done|]. by exists e.
  - repeat (apply elem_of_cons in In as [In|In]; [discriminate|]). by apply elem_of_nil in In.
  - repeat (apply elem_of_cons in In as [In|In]; [discriminate|]).
    by apply (round_has_no (fun e => match e with EvNotifyError => true | _ => false end)
                _ _ _ _ (fun _ => eq_refl) (fun _ => eq_refl) (fun _ => eq_refl) R) in In.
Qed.

Lemma loop_notifies env start n log r evs :
  loop_events env start n log r evs ->
  EvNotifyError ∈ evs ->
  r = Ok tt /\
  exists before i e,
    chat_completions_create env i
      (SystemMessage (get_system_prompt env) :: log ++ appended before) (tools_payload env)
    = Raise e /\
    evs = before
          ++ [EvModelCall i (SystemMessage (get_system_prompt env) :: log ++ appended before)
                (tools_payload env);
              EvNotifyError].
Proof.
  induction 1 as [start log|start n log flag evs I|start n log flag e evs I
                  |start n log flag evs1 r evs2 I _ IH]; intros In.
  - by apply elem_of_nil in In.
  - destruct (iteration_notifies _ _ _ _ _ _ I In) as (_ & e & C & ->).
    split; [done|]. exists [EvCancelCheck start false], start, e. simpl.
    by rewrite app_nil_r.
  - by destruct (iteration_notifies _ _ _ _ _ _ I In) as (? & _).
  - apply elem_of_app in In as [In|In].
    + by destruct (iteration_notifies _ _ _ _ _ _ I In) as (? & _).
    + destruct (IH In) as (-> & before & i & e & C & ->). split; [done|].
      exists (evs1 ++ before), i, e. rewrite appended_app, !app_assoc in *. done.
Qed.

(** A model call that fails ends the run without an error: the user is
    notified once, nothing is stored for that call, the loop is left, the
    lock is deleted and the task returns.  So a notification in the trace
    of a run means that the run returned, that its events end with the
    failed call, the notification and the unlock, and that the transcript
    holds what was stored before the call. *)
Theorem a_failing_model_call_ends_the_run_quietly env cancels map_id session user_id w evs :
  trace (snd (task_with_cancels env cancels map_id session user_id w)) = trace w ++ evs ->
  EvNotifyError ∈ evs ->
  fst (task_with_cancels env cancels map_id session user_id w) = Ok tt /\
  lock_held map_id (snd (task_with_cancels env cancels map_id session user_id w)) = false /\
  exists before i e,
    chat_completions_create env i
      (SystemMessage (get_system_prompt env) :: log_of map_id w ++ appended before)
      (tools_payload env) = Raise e /\
    evs = before
          ++ [EvModelCall i
                (SystemMessage (get_system_prompt env) :: log_of map_id w ++ appended before)
                (tools_payload env);
              EvNotifyError;
              EvLockDelete (lock_key map_id)] /\
    log_of map_id (snd (task_with_cancels env cancels map_id session user_id w))
    = log_of map_id w ++ appended before.
Proof.
  destruct (task_with_cancels env cancels map_id session user_id w) as [r w'] eqn:H. simpl.
  apply task_spec in H as (evs0 & L & Lg & _ & _ & _ & _ & T).
  intros E In.
  assert (In0 : EvNotifyError ∈ evs0).
  { destruct r as [[]|e]; destruct T as [T _]; rewrite T in E; apply app_inv_head in E;
      subst evs; [|done].
    apply elem_of_app in In as [In|In]; [done|]. apply list_elem_of_singleton in In.
    discriminate. }
  destruct (loop_notifies _ _ _ _ _ _ L In0) as (-> & before & i & e & C & ->).
  destruct T as [T K]. rewrite T in E. apply app_inv_head in E. subst evs.
  split; [done|]. split; [unfold lock_held; by rewrite K|].
  exists before, i, e. split; [done|]. split; [by rewrite <- app_assoc|].
  rewrite Lg, appended_app. simpl. by rewrite app_nil_r.
Qed.

Lemma a_failing_model_call_ends_the_run_quietly_witness :
  fst (task_with_cancels (scripted failing_reply qgis_down) (fun _ => []) "M1" owner "user-1"
         locked_world) = Ok tt /\
  lock_held "M1"
    (snd (task_with_cancels (scripted failing_reply qgis_down) (fun _ => []) "M1" owner "user-1"
            locked_world)) = false /\
  exists before i e,
    chat_completions_create (scripted failing_reply qgis_down) i
      (SystemMessage (get_system_prompt (scripted failing_reply qgis_down))
       :: log_of "M1" locked_world ++ appended before)
      (tools_payload (scripted failing_reply qgis_down)) = Raise e /\
    [EvCancelCheck 0 false;
     EvModelCall 0 [SystemMessage "You are Kue, an AI GIS assistant."]
       (tools_payload (scripted failing_reply qgis_down));
     EvNotifyError; EvLockDelete (lock_key "M1")]
    = before
      ++ [EvModelCall i
            (SystemMessage (get_system_prompt (scripted failing_reply qgis_down))
             :: log_of "M1" locked_world ++ appended before)
            (tools_payload (scripted failing_reply qgis_down));
          EvNotifyError;
          EvLockDelete (lock_key "M1")] /\
    log_of "M1"
      (snd (task_with_cancels (scripted failing_reply qgis_down) (fun _ => []) "M1" owner
              "user-1" locked_world))
    = log_of "M1" locked_world ++ appended before.
Proof.
  apply (a_failing_model_call_ends_the_run_quietly (scripted failing_reply qgis_down)
           (fun _ => []) "M1" owner "user-1" locked_world).
  - vm_compute. reflexivity.
  - apply elem_of_cons. right. apply elem_of_cons. right. apply elem_of_cons. by left.
Defined.

(** ** The handlers *)

Lemma select_layer_owned lid user_id w layer :
  select_layer lid user_id w = Some layer ->
  layer ∈ map_layers w /\ lid = Some (l_layer_id layer) /\ l_owner_uuid layer = user_id.
Proof.
  unfold select_layer. intros H. apply find_some in H as [In H].
  apply andb_true_iff in H as [H1 H2]. apply String.eqb_eq in H2.
  destruct lid as [lid|]; [|discriminate]. apply String.eqb_eq in H1.
  split; [by apply list_elem_of_In|]. by subst.
Qed.

Lemma select_connection_owned id user_id w row :
  select_connection id user_id w = Some row ->
  row ∈ project_postgres_connections w /\ id = Some (c_id row) /\ c_user_id row = user_id.
Proof.
  unfold select_connection. intros H. apply find_some in H as [In H].
  apply andb_true_iff in H as [H1 H2]. apply String.eqb_eq in H2.
  destruct id as [id|]; [|discriminate]. apply String.eqb_eq in H1.
  split; [by apply list_elem_of_In|]. by subst.
Qed.

Lemma db_text_some v s : db_text v = Ok (Some s) -> v = JStr s.
Proof. destruct v; simpl; intros; by simplify_eq. Qed.

(** [add_layer_to_map] changes the layer table and the map's list only for
    a layer of the caller: when no row with the given id is owned by the
    caller, nothing is renamed and nothing is attached.  It never touches
    the styles. *)
Theorem add_layer_to_map_needs_a_layer_of_the_caller env map_id user_id tc args w r w' :
  add_layer_to_map env map_id user_id tc args w = (r, w') ->
  layer_styles w' = layer_styles w /\
  map_layer_styles w' = map_layer_styles w /\
  ((map_layers w' = map_layers w /\ user_mundiai_maps w' = user_mundiai_maps w) \/
   exists layer,
     layer ∈ map_layers w /\
     py_get args "layer_id" = Ok (JStr (l_layer_id layer)) /\
     l_owner_uuid layer = user_id).
Proof.
  unfold add_layer_to_map. intros H. crush_m.
  all: split; [reflexivity|]; split; [reflexivity|].
  all: try (left; split; reflexivity).
  all: right;
    match goal with
    | S : select_layer _ _ _ = Some ?l, D : db_text _ = Ok (Some _) |- _ =>
        apply select_layer_owned in S as (In & E & O); apply db_text_some in D;
        exists l; simplify_eq; done
    end.
Qed.

Lemma add_layer_to_map_needs_a_layer_of_the_caller_witness :
  layer_styles
    (snd (add_layer_to_map (scripted zoom_reply qgis_down) "M1" "user-2"
            (attach_call "call_1" "Roads") (attach_args "Roads") locked_world))
  = layer_styles locked_world /\
  map_layer_styles
    (snd (add_layer_to_map (scripted zoom_reply qgis_down) "M1" "user-2"
            (attach_call "call_1" "Roads") (attach_args "Roads") locked_world))
  = map_layer_styles locked_world /\
  ((map_layers
      (snd (add_layer_to_map (scripted zoom_reply qgis_down) "M1" "user-2"
              (attach_call "call_1" "Roads") (attach_args "Roads") locked_world))
    = map_layers locked_world /\
    user_mundiai_maps
      (snd (add_layer_to_map (scripted zoom_reply qgis_down) "M1" "user-2"
              (attach_call "call_1" "Roads") (attach_args "Roads") locked_world))
    = user_mundiai_maps locked_world) \/
   exists layer,
     layer ∈ map_layers locked_world /\
     py_get (attach_args "Roads") "layer_id" = Ok (JStr (l_layer_id layer)) /\
     l_owner_uuid layer = "user-2").
Proof.
  apply (add_layer_to_map_needs_a_layer_of_the_caller (scripted zoom_reply qgis_down) "M1"
           "user-2" (attach_call "call_1" "Roads") (attach_args "Roads") locked_world
           (fst (add_layer_to_map (scripted zoom_reply qgis_down) "M1" "user-2"
                   (attach_call "call_1" "Roads") (attach_args "Roads") locked_world))).
  by destruct (add_layer_to_map _ _ _ _ _ _).
Defined.

(** [set_active_style] makes the given style the active style of the given
    layer on the task's map, replacing the one that was active, whenever
    both ids are non-empty strings: it looks up neither the layer nor the
    style, so they need not exist or belong to the caller.  The active
    style of every other layer and map is untouched, and so are the style
    and layer tables. *)
Theorem set_active_style_replaces_the_active_style
    env map_id user_id tc args layer style w :
  py_get args "layer_id" = Ok (JStr layer) ->
  py_get args "style_id" = Ok (JStr style) ->
  layer <> "" -> style <> "" ->
  exists w',
    set_active_style env map_id user_id tc args w = (Ok tt, w') /\
    map_layer_styles w' !! (map_id, layer) = Some style /\
    (forall key, key <> (map_id, layer) ->
       map_layer_styles w' !! key = map_layer_styles w !! key) /\
    layer_styles w' = layer_styles w /\
    map_layers w' = map_layers w /\
    user_mundiai_maps w' = user_mundiai_maps w /\
    log_of map_id w'
    = log_of map_id w
      ++ [ToolMessage (tc_id tc)
            (JObj [("status", JStr "success");
                   ("message", JStr ("Style " +:+ style +:+ " set as active for layer "
                                     +:+ layer +:+ ", user can now see it"));
                   ("layer_id", JStr layer); ("style_id", JStr style)])].
Proof.
  intros Hl Hs Nl Ns. unfold set_active_style, add_chat_completion_message, tool_message,
    kue_ephemeral_action.
  unfold mbind, M_bind, bind, lift, gets, modify, emit, ret. cbv beta iota zeta.
  rewrite Hl, Hs. cbv beta iota zeta. unfold truthy, db_text.
  apply String.eqb_neq in Nl, Ns. rewrite Nl, Ns. cbn [negb andb]. cbv beta iota zeta.
  eexists. split; [reflexivity|].
  split; [simpl; by rewrite lookup_insert_eq|].
  split; [intros key Ne; simpl; by rewrite lookup_insert_ne|].
  repeat (split; [reflexivity|]).
  exact (log_of_insert map_id user_id _
           (set_map_layer_styles (fun t => <[(map_id, layer) := style]> t) w)).
Qed.

Lemma set_active_style_replaces_the_active_style_witness :
  exists w',
    set_active_style (scripted zoom_reply qgis_down) "M1" "user-1"
      (mkToolCall "call_1" "set_active_style"
         (Json (JObj [("layer_id", JStr "L-of-someone"); ("style_id", JStr "S-unknown")])))
      (JObj [("layer_id", JStr "L-of-someone"); ("style_id", JStr "S-unknown")]) locked_world
    = (Ok tt, w') /\
    map_layer_styles w' !! ("M1", "L-of-someone") = Some "S-unknown" /\
    (forall key, key <> ("M1", "L-of-someone") ->
       map_layer_styles w' !! key = map_layer_styles locked_world !! key) /\
    layer_styles w' = layer_styles locked_world /\
    map_layers w' = map_layers locked_world /\
    user_mundiai_maps w' = user_mundiai_maps locked_world /\
    log_of "M1" w'
    = log_of "M1" locked_world
      ++ [ToolMessage "call_1"
            (JObj [("status", JStr "success");
                   ("message", JStr ("Style " +:+ "S-unknown" +:+ " set as active for layer "
                                     +:+ "L-of-someone" +:+ ", user can now see it"));
                   ("layer_id", JStr "L-of-someone"); ("style_id", JStr "S-unknown")])].
Proof.
  apply (set_active_style_replaces_the_active_style (scripted zoom_reply qgis_down) "M1"
           "user-1"
           (mkToolCall "call_1" "set_active_style"
              (Json (JObj [("layer_id", JStr "L-of-someone"); ("style_id", JStr "S-unknown")])))
           (JObj [("layer_id", JStr "L-of-someone"); ("style_id", JStr "S-unknown")])
           "L-of-someone" "S-unknown" locked_world); done.
Defined.

Lemma box_tests (west south east north : Q) :
  (Qle_bool east west || Qle_bool north south = false /\
   Qle_bool (inject_Z (-180)) west && Qle_bool west (inject_Z 180)
   && Qle_bool (inject_Z (-180)) east && Qle_bool east (inject_Z 180)
   && Qle_bool (inject_Z (-90)) south && Qle_bool south (inject_Z 90)
   && Qle_bool (inject_Z (-90)) north && Qle_bool north (inject_Z 90) = true)
  <->
  (west < east /\ south < north /\
   inject_Z (-180) <= west /\ west <= inject_Z 180 /\
   inject_Z (-180) <= east /\ east <= inject_Z 180 /\
   inject_Z (-90) <= south /\ south <= inject_Z 90 /\
   inject_Z (-90) <= north /\ north <= inject_Z 90)%Q.
Proof.
  rewrite orb_false_iff, !andb_true_iff, !Qle_bool_iff.
  assert (L : forall x y : Q, Qle_bool y x = false <-> (x < y)%Q).
  { intros x y. rewrite <- not_true_iff_false, Qle_bool_iff. split.
    - apply Qnot_le_lt.
    - apply Qlt_not_le. }
  rewrite !L. tauto.
Qed.

(** [zoom_to_bounds] answers every list of bounds, and with success exactly
    for a box: four numbers (booleans count as 0 and 1, as in Python) with
    west below east and south below north, longitudes within -180..180 and
    latitudes within -90..90.  Every other list is answered with an error
    result; nothing but the tool message is written. *)
Theorem zoom_to_bounds_accepts_boxes_only map_id user_id tc args items w :
  py_get args "bounds" = Ok (JArr items) ->
  exists result,
    zoom_to_bounds map_id user_id tc args w
    = (Ok tt,
       set_trace (fun t => t ++ [EvAppend (ToolMessage (tc_id tc) result)])
         (insert_message map_id user_id (ToolMessage (tc_id tc) result) w)) /\
    (result = JObj [("status", JStr "success"); ("bounds", JArr items)] \/
     exists reason, result = error_result reason) /\
    (status_of result = Some (JStr "success") <->
     exists west south east north,
       py_number <$> items = [Some west; Some south; Some east; Some north] /\
       (west < east /\ south < north /\
        inject_Z (-180) <= west /\ west <= inject_Z 180 /\
        inject_Z (-180) <= east /\ east <= inject_Z 180 /\
        inject_Z (-90) <= south /\ south <= inject_Z 90 /\
        inject_Z (-90) <= north /\ north <= inject_Z 90)%Q).
Proof.
  intros Hb. unfold zoom_to_bounds, check_bounds, add_chat_completion_message, tool_message.
  unfold mbind, M_bind, bind, lift, gets, modify, emit, ret, try_except, raise.
  cbv beta iota zeta. rewrite Hb.
  assert (exists d, py_get_default args "zoom_description" (JStr "") = Ok d) as [d ->].
  { destruct args; try discriminate. simpl. eauto. }
  cbv beta iota zeta.
  assert (Err : forall reason,
            (status_of (error_result reason) = Some (JStr "success") <->
             exists west south east north,
               py_number <$> items = [Some west; Some south; Some east; Some north] /\
               (west < east /\ south < north /\
                inject_Z (-180) <= west /\ west <= inject_Z 180 /\
                inject_Z (-180) <= east /\ east <= inject_Z 180 /\
                inject_Z (-90) <= south /\ south <= inject_Z 90 /\
                inject_Z (-90) <= north /\ north <= inject_Z 90)%Q) ->
            exists result,
              (Ok tt,
               set_trace (fun t => t ++ [EvAppend (ToolMessage (tc_id tc) (error_result reason))])
                 (insert_message map_id user_id (ToolMessage (tc_id tc) (error_result reason)) w))
              = (Ok tt,
                 set_trace (fun t => t ++ [EvAppend (ToolMessage (tc_id tc) result)])
                   (insert_message map_id user_id (ToolMessage (tc_id tc) result) w)) /\
              (result = JObj [("status", JStr "success"); ("bounds", JArr items)] \/
               exists reason, result = error_result reason) /\
              (status_of result = Some (JStr "success") <->
               exists west south east north,
                 py_number <$> items = [Some west; Some south; Some east; Some north] /\
                 (west < east /\ south < north /\
                  inject_Z (-180) <= west /\ west <= inject_Z 180 /\
                  inject_Z (-180) <= east /\ east <= inject_Z 180 /\
                  inject_Z (-90) <= south /\ south <= inject_Z 90 /\
                  inject_Z (-90) <= north /\ north <= inject_Z 90)%Q)).
  { intros reason I. exists (error_result reason). split; [done|]. split; [eauto|done]. }
  destruct items as [|a [|b [|c [|d' [|e rest]]]]];
    try (simpl; apply Err; split; [discriminate|];
         intros (? & ? & ? & ? & ? & _); discriminate).
  cbn [truthy py_len length Nat.eqb negb py_iter].
  cbv beta iota zeta.
  destruct (py_number a) as [west|] eqn:Ea; [destruct (py_number b) as [south|] eqn:Eb;
    [destruct (py_number c) as [east|] eqn:Ec; [destruct (py_number d') as [north|] eqn:Ed|]|]|];
    try (simpl; apply Err; split; [discriminate|];
         intros (? & ? & ? & ? & E & _); simpl in E; congruence).
  pose proof (box_tests west south east north) as T.
  destruct (Qle_bool east west || Qle_bool north south) eqn:B1.
  { simpl. apply Err. split; [discriminate|].
    intros (? & ? & ? & ? & E & P). simpl in E. rewrite Ea, Eb, Ec, Ed in E. simplify_eq.
    apply T in P as [? _]. discriminate. }
  destruct (Qle_bool (inject_Z (-180)) west && Qle_bool west (inject_Z 180)
            && Qle_bool (inject_Z (-180)) east && Qle_bool east (inject_Z 180)
            && Qle_bool (inject_Z (-90)) south && Qle_bool south (inject_Z 90)
            && Qle_bool (inject_Z (-90)) north && Qle_bool north (inject_Z 90)) eqn:B2.
  - simpl. eexists. split; [reflexivity|]. split; [by left|]. split; [|done].
    intros _. exists west, south, east, north. simpl. rewrite Ea, Eb, Ec, Ed.
    split; [done|]. by apply T.
  - simpl. apply Err. split; [discriminate|].
    intros (? & ? & ? & ? & E & P). simpl in E. rewrite Ea, Eb, Ec, Ed in E. simplify_eq.
    apply T in P as [_ ?]. discriminate.
Qed.

Lemma zoom_to_bounds_accepts_boxes_only_witness :
  exists result,
    zoom_to_bounds "M1" "user-1" (zoom_call "call_1")
      (JObj [("bounds", JArr [JNum (inject_Z (-10)); JNum (inject_Z (-5));
                              JNum (inject_Z 10); JNum (inject_Z 5)]);
             ("zoom_description", JStr "Zooming to the study area")]) locked_world
    = (Ok tt,
       set_trace (fun t => t ++ [EvAppend (ToolMessage (tc_id (zoom_call "call_1")) result)])
         (insert_message "M1" "user-1" (ToolMessage (tc_id (zoom_call "call_1")) result)
            locked_world)) /\
    (result
     = JObj [("status", JStr "success");
             ("bounds", JArr [JNum (inject_Z (-10)); JNum (inject_Z (-5));
                              JNum (inject_Z 10); JNum (inject_Z 5)])] \/
     exists reason, result = error_result reason) /\
    (status_of result = Some (JStr "success") <->
     exists west south east north,
       py_number <$> [JNum (inject_Z (-10)); JNum (inject_Z (-5));
                      JNum (inject_Z 10); JNum (inject_Z 5)]
       = [Some west; Some south; Some east; Some north] /\
       (west < east /\ south < north /\
        inject_Z (-180) <= west /\ west <= inject_Z 180 /\
        inject_Z (-180) <= east /\ east <= inject_Z 180 /\
        inject_Z (-90) <= south /\ south <= inject_Z 90 /\
        inject_Z (-90) <= north /\ north <= inject_Z 90)%Q).
Proof.
  apply (zoom_to_bounds_accepts_boxes_only "M1" "user-1" (zoom_call "call_1")
           (JObj [("bounds", JArr [JNum (inject_Z (-10)); JNum (inject_Z (-5));
                                   JNum (inject_Z 10); JNum (inject_Z 5)]);
                  ("zoom_description", JStr "Zooming to the study area")])
           [JNum (inject_Z (-10)); JNum (inject_Z (-5)); JNum (inject_Z 10); JNum (inject_Z 5)]
           locked_world).
  reflexivity.
Defined.

Lemma assoc_dict_set k v fields : assoc k (dict_set k v fields) = Some v.
Proof.
  induction fields as [|[k' v'] fields IH]; simpl.
  - by rewrite String.eqb_refl.
  - destruct (String.eqb k k') eqn:E; simpl; by rewrite ?String.eqb_refl, ?E.
Qed.

Lemma assoc_dict_set_ne k k' v fields :
  k' <> k -> assoc k' (dict_set k v fields) = assoc k' fields.
Proof.
  intros Ne. induction fields as [|[k0 v0] fields IH]; simpl.
  - apply String.eqb_neq in Ne. by rewrite Ne.
  - destruct (String.eqb k k0) eqn:E; simpl.
    + apply String.eqb_eq in E. subst k0. apply String.eqb_neq in Ne. by rewrite Ne.
    + by rewrite IH.
Qed.

Lemma set_source_layer_sets env items items' :
  set_source_layer env items = Ok items' ->
  Forall (fun item => py_get item "source-layer" = Ok (JStr "reprojectedfgb")) items'.
Proof.
  revert items'. induction items as [|item items IH]; intros items' H; simpl in H.
  - simplify_eq. constructor.
  - destruct item; try discriminate.
    destruct (set_source_layer env items) as [rest|e]; [|discriminate]. simplify_eq.
    constructor; [|by apply IH].
    unfold py_get, py_get_default. by rewrite assoc_dict_set.
Qed.

(** [create_layer_style] stores a style only after the whole map style with
    it passed verification: a style row is added only when the layers text
    parsed to a list of objects and [verify_style_json_str] accepted the
    map style; the row then holds those layers, each with ["source-layer"]
    set to "reprojectedfgb", under a new style id, and the result is a
    success that names the id.  On every other path no style is stored.
    The tool never makes a style active and never touches layers or maps. *)
Theorem create_layer_style_stores_verified_styles_only env map_id user_id tc args w r w' :
  create_layer_style env map_id user_id tc args w = (r, w') ->
  map_layer_styles w' = map_layer_styles w /\
  map_layers w' = map_layers w /\
  user_mundiai_maps w' = user_mundiai_maps w /\
  (layer_styles w' = layer_styles w \/
   exists layer text parsed items,
     py_get args "layer_id" = Ok (JStr layer) /\
     py_get args "maplibre_json_layers_str" = Ok (JStr text) /\
     json_loads env text = Ok (JArr parsed) /\
     set_source_layer env parsed = Ok items /\
     Forall (fun item => py_get item "source-layer" = Ok (JStr "reprojectedfgb")) items /\
     verify_map_style env map_id (JStr layer) (JArr items) = Ok tt /\
     layer_styles w'
     = layer_styles w
       ++ [mkStyleRow (generate_id env "S" (id_seq w)) layer (JArr items) user_id] /\
     r = Ok tt /\
     log_of map_id w'
     = log_of map_id w
       ++ [ToolMessage (tc_id tc)
             (JObj [("status", JStr "success");
                    ("style_id", JStr (generate_id env "S" (id_seq w)));
                    ("layer_id", JStr layer)])]).
Proof.
  unfold create_layer_style, store_layer_style, insert_layer_style, new_id.
  intros H. crush_m.
  all: do 3 (split; [reflexivity|]).
  all: try (left; reflexivity).
  right.
  match goal with
  | T : negb (truthy ?a) || _ = false, D : db_text ?a = Ok _ |- _ =>
      destruct a; simplify_eq/=
  end.
  match goal with V : verify_map_style _ _ _ _ = Ok ?u |- _ => destruct u end.
  eexists _, _, _, _. repeat (split; [done|]).
  split; [by eapply set_source_layer_sets|]. repeat (split; [done|]).
  match goal with
  | |- log_of _ (set_trace _ (insert_message _ _ ?m ?w1)) = _ =>
      exact (log_of_insert map_id user_id m w1)
  end.
Qed.

Lemma create_layer_style_stores_verified_styles_only_witness :
  map_layer_styles
    (snd (create_layer_style service "M1" "user-1" style_call style_args locked_world))
  = map_layer_styles locked_world /\
  map_layers
    (snd (create_layer_style service "M1" "user-1" style_call style_args locked_world))
  = map_layers locked_world /\
  user_mundiai_maps
    (snd (create_layer_style service "M1" "user-1" style_call style_args locked_world))
  = user_mundiai_maps locked_world /\
  (layer_styles
     (snd (create_layer_style service "M1" "user-1" style_call style_args locked_world))
   = layer_styles locked_world \/
   exists layer text parsed items,
     py_get style_args "layer_id"
     = Ok (JStr layer) /\
     py_get style_args "maplibre_json_layers_str"
     = Ok (JStr text) /\
     json_loads service text = Ok (JArr parsed) /\
     set_source_layer service parsed = Ok items /\
     Forall (fun item => py_get item "source-layer" = Ok (JStr "reprojectedfgb")) items /\
     verify_map_style service "M1" (JStr layer) (JArr items) = Ok tt /\
     layer_styles
       (snd (create_layer_style service "M1" "user-1" style_call style_args locked_world))
     = layer_styles locked_world
       ++ [mkStyleRow (generate_id service "S" (id_seq locked_world)) layer (JArr items)
             "user-1"] /\
     Ok tt = Ok tt /\
     log_of "M1"
       (snd (create_layer_style service "M1" "user-1" style_call style_args locked_world))
     = log_of "M1" locked_world
       ++ [ToolMessage (tc_id style_call)
             (JObj [("status", JStr "success");
                    ("style_id", JStr (generate_id service "S" (id_seq locked_world)));
                    ("layer_id", JStr layer)])]).
Proof.
  apply (create_layer_style_stores_verified_styles_only service "M1" "user-1" style_call style_args locked_world (Ok tt)).
  vm_compute. reflexivity.
Defined.

(** [new_layer_from_postgis] creates a layer only from a connection of the
    caller and a query that passed the checks on the user's database: on
    every other path the layer, style and map tables are as before.  The
    row it creates is owned by the caller, of type "postgis", bound to the
    connection, the query and the map; and a success result means that the
    layer was also attached to the map and names its id. *)
Theorem postgis_layer_needs_a_connection_of_the_caller env map_id user_id tc args w r w' :
  new_layer_from_postgis env map_id user_id tc args w = (r, w') ->
  (map_layers w' = map_layers w /\ layer_styles w' = layer_styles w /\
   map_layer_styles w' = map_layer_styles w /\ user_mundiai_maps w' = user_mundiai_maps w) \/
  exists connection query name info result,
    py_get args "postgis_connection_id" = Ok (JStr connection) /\
    py_get args "query" = Ok (JStr query) /\
    (exists row,
       row ∈ project_postgres_connections w /\ c_id row = connection /\
       c_user_id row = user_id) /\
    inspect_postgis_query env (Some connection) (JStr query) = Ok info /\
    map_layers w'
    = map_layers w
      ++ [mkLayerRow (generate_id env "L" (id_seq w)) user_id name "postgis" None
            (Some connection) (Some query) (Some info) (Some map_id)] /\
    r = Ok tt /\
    log_of map_id w' = log_of map_id w ++ [ToolMessage (tc_id tc) result] /\
    (status_of result = Some (JStr "success") ->
     py_get result "layer_id" = Ok (JStr (generate_id env "L" (id_seq w))) /\
     user_mundiai_maps w'
     = append_layer_row (generate_id env "L" (id_seq w)) map_id <$> user_mundiai_maps w).
Proof.
  unfold new_layer_from_postgis, create_postgis_layer, insert_postgis_layer, insert_layer_style,
    insert_map_layer_style, new_id.
  intros H. crush_m.
  all: try (left; repeat split; reflexivity).
  all: right.
  all: match goal with
       | T : negb (truthy ?a) || negb (truthy ?q) = false,
         D : db_text ?a = Ok _, Q : db_text ?q = Ok _,
         S : select_connection _ _ _ = Some ?row |- _ =>
           destruct a; simplify_eq/=; destruct q; simplify_eq/=;
           try (rewrite orb_true_r in T; discriminate);
           apply select_connection_owned in S as (In & E & O); simplify_eq
       end.
  all: eexists _, _, _, _, _.
  all: do 2 (split; [reflexivity|]).
  all: split; [eexists; split; [eassumption|]; split; reflexivity|].
  all: split; [eassumption|].
  all: do 2 (split; [reflexivity|]).
  all: split;
    [ match goal with
      | |- log_of _ (set_trace _ (insert_message _ _ ?m ?w1)) = _ =>
          exact (log_of_insert map_id _ m w1)
      end |].
  all: simpl; intros S; try discriminate; split; reflexivity.
Qed.

Lemma postgis_layer_needs_a_connection_of_the_caller_witness :
  let w' := snd (new_layer_from_postgis service "M1" "user-1" postgis_layer_call
                   postgis_layer_args connected_world) in
  (map_layers w' = map_layers connected_world /\
   layer_styles w' = layer_styles connected_world /\
   map_layer_styles w' = map_layer_styles connected_world /\
   user_mundiai_maps w' = user_mundiai_maps connected_world) \/
  exists connection query name info result,
    py_get postgis_layer_args "postgis_connection_id" = Ok (JStr connection) /\
    py_get postgis_layer_args "query" = Ok (JStr query) /\
    (exists row,
       row ∈ project_postgres_connections connected_world /\ c_id row = connection /\
       c_user_id row = "user-1") /\
    inspect_postgis_query service (Some connection) (JStr query) = Ok info /\
    map_layers w'
    = map_layers connected_world
      ++ [mkLayerRow (generate_id service "L" (id_seq connected_world)) "user-1" name "postgis"
            None (Some connection) (Some query) (Some info) (Some "M1")] /\
    Ok tt = Ok tt /\
    log_of "M1" w'
    = log_of "M1" connected_world ++ [ToolMessage (tc_id postgis_layer_call) result] /\
    (status_of result = Some (JStr "success") ->
     py_get result "layer_id" = Ok (JStr (generate_id service "L" (id_seq connected_world))) /\
     user_mundiai_maps w'
     = append_layer_row (generate_id service "L" (id_seq connected_world)) "M1"
         <$> user_mundiai_maps connected_world).
Proof.
  apply (postgis_layer_needs_a_connection_of_the_caller service "M1" "user-1"
           postgis_layer_call postgis_layer_args connected_world (Ok tt)).
  vm_compute. reflexivity.
Defined.

(** ** The query tools *)

(** A DuckDB query runs on one layer, the first of [layer_ids], and only
    when that layer is the caller's; the other ids of the list are never
    looked at.  A success result carries the CSV text that the query gave
    for that layer, and never more than 25,000 characters of it: a longer
    text is answered with an error result. *)
Theorem duckdb_queries_run_on_a_layer_of_the_caller env map_id user_id tc args w w' :
  query_duckdb_sql env map_id user_id tc args w = (Ok tt, w') ->
  exists result,
    log_of map_id w' = log_of map_id w ++ [ToolMessage (tc_id tc) result] /\
    (status_of result = Some (JStr "success") \/ exists reason, result = error_result reason) /\
    (status_of result = Some (JStr "success") ->
     exists layer layer_ids sql head text row_count,
       layer ∈ map_layers w /\ l_owner_uuid layer = user_id /\
       py_get_default args "layer_ids" (JArr [JNull]) = Ok layer_ids /\
       py_index0 layer_ids = Ok (JStr (l_layer_id layer)) /\
       py_get args "sql_query" = Ok sql /\
       execute_duckdb_query env sql (Some (l_layer_id layer)) head = Ok (text, row_count) /\
       (N.of_nat (String.length text) <= 25000)%N /\
       result = JObj [("status", JStr "success"); ("result", JStr text);
                      ("row_count", row_count); ("query", sql)]).
Proof.
  unfold query_duckdb_sql. intros H. crush_m.
  all: eexists;
    (split;
     [ match goal with
       | |- log_of _ (set_trace _ (insert_message _ _ ?m ?w1)) = _ =>
           exact (log_of_insert map_id _ m w1)
       end |]).
  all: try (split; [right; eexists; reflexivity|]; simpl; discriminate).
  split; [by left|]. intros _.
  match goal with
  | S : select_layer _ _ _ = Some ?l, D : db_text _ = Ok _ |- _ =>
      apply select_layer_owned in S as (In & E & O); subst; apply db_text_some in D; subst;
      exists l
  end.
  eexists _, _, _, _, _. repeat (split; [done|]). split; [|done].
  by apply N.ltb_ge.
Qed.

Lemma duckdb_queries_run_on_a_layer_of_the_caller_witness :
  let w' := snd (query_duckdb_sql service "M1" "user-1" duckdb_call duckdb_args locked_world) in
  exists result,
    log_of "M1" w' = log_of "M1" locked_world ++ [ToolMessage (tc_id duckdb_call) result] /\
    (status_of result = Some (JStr "success") \/ exists reason, result = error_result reason) /\
    (status_of result = Some (JStr "success") ->
     exists layer layer_ids sql head text row_count,
       layer ∈ map_layers locked_world /\ l_owner_uuid layer = "user-1" /\
       py_get_default duckdb_args "layer_ids" (JArr [JNull]) = Ok layer_ids /\
       py_index0 layer_ids = Ok (JStr (l_layer_id layer)) /\
       py_get duckdb_args "sql_query" = Ok sql /\
       execute_duckdb_query service sql (Some (l_layer_id layer)) head = Ok (text, row_count) /\
       (N.of_nat (String.length text) <= 25000)%N /\
       result = JObj [("status", JStr "success"); ("result", JStr text);
                      ("row_count", row_count); ("query", sql)]).
Proof.
  apply (duckdb_queries_run_on_a_layer_of_the_caller service "M1" "user-1" duckdb_call
           duckdb_args locked_world).
  vm_compute. reflexivity.
Defined.

(** A query reaches the user's database only through a connection of the
    caller and only when the text of the query, stripped, shows a LIMIT of
    at most 1000 to the pattern of the code: a success result means that
    such a connection and such a limit were found, that the stripped text
    is what was sent, unchanged, and what the result echoes, and that the
    text of the rows, when the result carries one, has no more than 25,000
    characters. *)
Theorem postgis_queries_are_limited env map_id user_id tc args w w' :
  query_postgis_database env map_id user_id tc args w = (Ok tt, w') ->
  exists result,
    log_of map_id w' = log_of map_id w ++ [ToolMessage (tc_id tc) result] /\
    (status_of result = Some (JStr "success") \/ status_of result = Some (JStr "error")) /\
    (status_of result = Some (JStr "success") ->
     exists connection text limit rows,
       py_get args "postgis_connection_id" = Ok (JStr connection) /\
       (exists row,
          row ∈ project_postgres_connections w /\ c_id row = connection /\
          c_user_id row = user_id) /\
       py_get args "sql_query" = Ok (JStr text) /\
       limit_match (strip text) = Some limit /\
       (limit <= 1000)%Z /\
       fetch_postgis env (Some connection) (strip text) = Ok rows /\
       py_get result "query" = Ok (JStr (strip text)) /\
       (forall shown,
          py_get result "result" = Ok (JStr shown) ->
          (N.of_nat (String.length shown) <= 25000)%N)).
Proof.
  unfold query_postgis_database, run_postgis_query, postgis_query_failed.
  intros H. pose (shown_rows := format_rows). change format_rows with shown_rows in H.
  clearbody shown_rows. crush_m.
  all: eexists;
    (split;
     [ match goal with
       | |- log_of _ (set_trace _ (insert_message _ _ ?m ?w1)) = _ =>
           exact (log_of_insert map_id _ m w1)
       end |]).
  all: try (split; [by right|]; simpl; discriminate).
  all: split; [by left|]; intros _.
  all: match goal with
       | T : negb (truthy ?a) || _ = false, D : db_text ?a = Ok _,
         S : select_connection _ _ _ = Some ?row |- _ =>
           destruct a; simpl in D, T; simplify_eq;
           apply select_connection_owned in S as (In & E & O); simplify_eq
       end.
  all: eexists _, _, _, _.
  all: split; [reflexivity|].
  all: split; [eexists; split; [eassumption|]; split; reflexivity|].
  all: split; [reflexivity|].
  all: split; [eassumption|].
  all: split; [by apply Z.ltb_ge|].
  all: split; [eassumption|].
  all: split; [reflexivity|].
  all: unfold py_get, py_get_default; cbn [assoc String.eqb Ascii.eqb Bool.eqb].
  all: intros shown E; try discriminate.
  all: injection E as <-; by apply N.ltb_ge.
Qed.

Lemma postgis_queries_are_limited_witness :
  let w' := snd (query_postgis_database service "M1" "user-1"
                   (mkToolCall "call_1" "query_postgis_database"
                      (Json (postgis_args "SELECT count(*) FROM parcels LIMIT 1")))
                   (postgis_args "SELECT count(*) FROM parcels LIMIT 1") connected_world) in
  exists result,
    log_of "M1" w' = log_of "M1" connected_world ++ [ToolMessage "call_1" result] /\
    (status_of result = Some (JStr "success") \/ status_of result = Some (JStr "error")) /\
    (status_of result = Some (JStr "success") ->
     exists connection text limit rows,
       py_get (postgis_args "SELECT count(*) FROM parcels LIMIT 1") "postgis_connection_id"
       = Ok (JStr connection) /\
       (exists row,
          row ∈ project_postgres_connections connected_world /\ c_id row = connection /\
          c_user_id row = "user-1") /\
       py_get (postgis_args "SELECT count(*) FROM parcels LIMIT 1") "sql_query"
       = Ok (JStr text) /\
       limit_match (strip text) = Some limit /\
       (limit <= 1000)%Z /\
       fetch_postgis service (Some connection) (strip text) = Ok rows /\
       py_get result "query" = Ok (JStr (strip text)) /\
       (forall shown,
          py_get result "result" = Ok (JStr shown) ->
          (N.of_nat (String.length shown) <= 25000)%N)).
Proof.
  apply (postgis_queries_are_limited service "M1" "user-1"
           (mkToolCall "call_1" "query_postgis_database"
              (Json (postgis_args "SELECT count(*) FROM parcels LIMIT 1")))
           (postgis_args "SELECT count(*) FROM parcels LIMIT 1") connected_world).
  vm_compute. reflexivity.
Defined.

(** A query that is not text (the tool's schema is not strict) fails on
    [sql_query.strip()] inside the [try]; the handler of the exception then
    reads the local variable [limited_query], which that statement was to
    assign.  When no earlier query of the run assigned it, the handler
    itself fails: an [UnboundLocalError] leaves the tool handler and no tool
    message is stored.  When an earlier query did, the error is reported
    with the text of that earlier query. *)
Theorem a_query_that_is_not_text_is_reported_with_the_previous_query
    env map_id user_id tc args connection row sql w :
  py_get args "postgis_connection_id" = Ok (JStr connection) ->
  connection <> "" ->
  select_connection (Some connection) user_id w = Some row ->
  py_get args "sql_query" = Ok sql ->
  truthy sql = true ->
  (forall text, sql <> JStr text) ->
  match limited_query w with
  | None =>
      exists e,
        query_postgis_database env map_id user_id tc args w = (Raise e, w) /\
        exn_class e = UnboundLocalError
  | Some previous =>
      exists w' reason,
        query_postgis_database env map_id user_id tc args w = (Ok tt, w') /\
        log_of map_id w'
        = log_of map_id w
          ++ [ToolMessage (tc_id tc)
                (JObj [("status", JStr "error");
                       ("error", JStr ("PostgreSQL query error: " +:+ reason));
                       ("query", JStr previous)])]
  end.
Proof.
  intros Hc Nc Hsel Hq Tq Nq.
  assert (Tc : truthy (JStr connection) = true).
  { simpl. apply String.eqb_neq in Nc. by rewrite Nc. }
  assert (Run :
    query_postgis_database env map_id user_id tc args w
    = (result ← postgis_query_failed (mkExn AttributeError "object has no attribute 'strip'");
       add_chat_completion_message map_id user_id (tool_message tc result)) w).
  { unfold query_postgis_database.
    unfold mbind, M_bind, bind, lift, gets, ret. cbv beta iota zeta.
    rewrite Hc, Hq. cbv beta iota zeta. rewrite Tc, Tq. cbn [negb orb db_text].
    cbv beta iota zeta. rewrite Hsel. cbv beta iota zeta.
    destruct sql as [| | |text| |]; try (by destruct (Nq text eq_refl)); reflexivity. }
  rewrite Run. clear Run.
  unfold postgis_query_failed, add_chat_completion_message, tool_message.
  unfold mbind, M_bind, bind, gets, modify, emit, ret, raise. cbv beta iota zeta.
  destruct (limited_query w) as [previous|]; cbv beta iota zeta.
  - eexists _, _. split; [reflexivity|].
    match goal with
    | |- log_of _ (set_trace _ (insert_message _ _ ?m ?w1)) = _ =>
        exact (log_of_insert map_id user_id m w1)
    end.
  - eexists. split; reflexivity.
Qed.

Lemma a_query_that_is_not_text_is_reported_with_the_previous_query_witness :
  match limited_query connected_world with
  | None =>
      exists e,
        query_postgis_database service "M1" "user-1"
          (mkToolCall "call_1" "query_postgis_database"
             (Json (JObj [("postgis_connection_id", JStr "C1");
                          ("sql_query", JArr [JStr "SELECT 1 LIMIT 1"])])))
          (JObj [("postgis_connection_id", JStr "C1");
                 ("sql_query", JArr [JStr "SELECT 1 LIMIT 1"])]) connected_world
        = (Raise e, connected_world) /\
        exn_class e = UnboundLocalError
  | Some previous =>
      exists w' reason,
        query_postgis_database service "M1" "user-1"
          (mkToolCall "call_1" "query_postgis_database"
             (Json (JObj [("postgis_connection_id", JStr "C1");
                          ("sql_query", JArr [JStr "SELECT 1 LIMIT 1"])])))
          (JObj [("postgis_connection_id", JStr "C1");
                 ("sql_query", JArr [JStr "SELECT 1 LIMIT 1"])]) connected_world
        = (Ok tt, w') /\
        log_of "M1" w'
        = log_of "M1" connected_world
          ++ [ToolMessage
                (tc_id (mkToolCall "call_1" "query_postgis_database"
                          (Json (JObj [("postgis_connection_id", JStr "C1");
                                       ("sql_query", JArr [JStr "SELECT 1 LIMIT 1"])]))))
                (JObj [("status", JStr "error");
                       ("error", JStr ("PostgreSQL query error: " +:+ reason));
                       ("query", JStr previous)])]
  end.
Proof.
  apply (a_query_that_is_not_text_is_reported_with_the_previous_query service "M1" "user-1"
           (mkToolCall "call_1" "query_postgis_database"
              (Json (JObj [("postgis_connection_id", JStr "C1");
                           ("sql_query", JArr [JStr "SELECT 1 LIMIT 1"])])))
           (JObj [("postgis_connection_id", JStr "C1");
                  ("sql_query", JArr [JStr "SELECT 1 LIMIT 1"])])
           "C1" (mkPgConnRow "C1" "user-1") (JArr [JStr "SELECT 1 LIMIT 1"]) connected_world);
    done.
Defined.

(** The variable is local to one call of the task: a run whose query
    assigned it returns, and the next run on the map starts with it
    unbound again, so that a query that is not text ends that run with the
    [UnboundLocalError]. *)
Example a_new_run_starts_with_limited_query_unbound :
  let first := process_chat_interaction_task (in_service (scripted query_reply qgis_down))
                 "M1" owner "user-1" connected_world in
  let second := process_chat_interaction_task
                  (in_service (scripted query_list_reply qgis_down)) "M1" owner "user-1"
                  (snd first) in
  fst first = Ok tt /\
  limited_query (snd first) = Some "SELECT count(*) FROM parcels LIMIT 1" /\
  match fst second with
  | Ok _ => False
  | Raise e => exn_class e = UnboundLocalError
  end.
Proof. vm_compute. repeat split; reflexivity. Qed.

(** ** The inputs of a geoprocessing run *)

Lemma is_layer_id_true val :
  is_layer_id val = Ok true ->
  exists text, val = JStr text /\ String.length text = 12.
Proof.
  destruct val as [| | |[|c rest]| |]; try discriminate. unfold is_layer_id. intros E.
  injection E as E. apply andb_true_iff in E as [_ E]. apply Nat.eqb_eq in E.
  exists (String c rest). split; [done|]. simpl. by rewrite E.
Qed.

Lemma resolve_inputs_reads env user_id tc items w :
  snd (resolve_inputs env user_id tc items w) = w.
Proof.
  induction items as [|[key val] items IH]; [done|]. simpl.
  destruct (String.eqb key "OUTPUT"); [done|].
  unfold mbind, M_bind, bind, lift, gets, raise, ret. cbv beta iota zeta.
  destruct (is_layer_id val) as [[|]|e]; [| |done].
  - destruct (select_layer (Some (py_str env val)) user_id w) as [layer|]; simpl; [|done].
    destruct (l_s3_key layer) as [s3_key|]; [|done].
    destruct (String.eqb s3_key ""); [done|].
    destruct (resolve_inputs env user_id tc items w) as [[others|e] w1]; exact IH.
  - destruct (resolve_inputs env user_id tc items w) as [[others|e] w1]; exact IH.
Qed.

Lemma resolve_inputs_cons env user_id tc key val items params urls w w' :
  resolve_inputs env user_id tc ((key, val) :: items) w = (Ok (params, urls), w') ->
  exists params0 urls0,
    resolve_inputs env user_id tc items w = (Ok (params0, urls0), w') /\
    ((key = "OUTPUT" /\ params = params0 /\ urls = urls0) \/
     (key <> "OUTPUT" /\ is_layer_id val = Ok false /\
      params = (key, py_str env val) :: params0 /\ urls = urls0) \/
     (key <> "OUTPUT" /\ params = params0 /\
      exists text layer s3_key,
        val = JStr text /\ String.length text = 12 /\
        layer ∈ map_layers w /\ l_layer_id layer = text /\ l_owner_uuid layer = user_id /\
        l_s3_key layer = Some s3_key /\ s3_key <> "" /\
        urls = (key, generate_presigned_url env "get_object" s3_key) :: urls0)).
Proof.
  simpl. destruct (String.eqb key "OUTPUT") eqn:K.
  { apply String.eqb_eq in K. intros H. exists params, urls. split; [done|]. by left. }
  apply String.eqb_neq in K.
  unfold mbind, M_bind, bind, lift, gets, raise, ret. cbv beta iota zeta.
  destruct (is_layer_id val) as [[|]|e] eqn:L; [| |done].
  - apply is_layer_id_true in L as (text & -> & Len).
    change (py_str env (JStr text)) with text.
    destruct (select_layer (Some text) user_id w) as [layer|] eqn:Sel; simpl; [|done].
    destruct (l_s3_key layer) as [s3_key|] eqn:Key; [|done].
    destruct (String.eqb s3_key "") eqn:E; [done|]. apply String.eqb_neq in E.
    destruct (resolve_inputs env user_id tc items w) as [[[params0 urls0]|e] w1]; [|done].
    intros H. simpl in H. simplify_eq. exists params, urls0. split; [done|].
    right. right. split; [done|]. split; [done|].
    apply select_layer_owned in Sel as (In & Id & Own). simplify_eq.
    by exists (l_layer_id layer), layer, s3_key.
  - destruct (resolve_inputs env user_id tc items w) as [[[params0 urls0]|e] w1]; [|done].
    intros H. simpl in H. simplify_eq. exists params0, urls. split; [done|].
    right. left. done.
Qed.

(** Every argument that looks like a layer id was found among the layers of
    the caller, with an S3 key. *)
Lemma resolve_inputs_layers env user_id tc items params urls w w' :
  resolve_inputs env user_id tc items w = (Ok (params, urls), w') ->
  forall key val,
    (key, val) ∈ items -> key <> "OUTPUT" -> is_layer_id val = Ok true ->
    exists layer s3_key,
      layer ∈ map_layers w /\ val = JStr (l_layer_id layer) /\ l_owner_uuid layer = user_id /\
      l_s3_key layer = Some s3_key /\ s3_key <> "" /\
      (key, generate_presigned_url env "get_object" s3_key) ∈ urls.
Proof.
  revert params urls. induction items as [|[k v] items IH]; intros params urls H key val In NO L.
  { by apply elem_of_nil in In. }
  apply resolve_inputs_cons in H as (params0 & urls0 & H & Cases).
  apply elem_of_cons in In as [E|In].
  - injection E as <- <-.
    destruct Cases as [(? & _)|[(_ & L' & _)|(_ & _ & text & layer & s3_key & Cs)]];
      [done|congruence|].
    destruct Cs as (-> & _ & In & <- & Own & Key & Ne & ->).
    exists layer, s3_key. repeat split; try done. apply elem_of_cons. by left.
  - destruct (IH _ _ H key val In NO L) as (layer & s3_key & ? & ? & ? & ? & ? & U).
    exists layer, s3_key. repeat split; try done.
    destruct Cases as [(_ & _ & ->)|[(_ & _ & _ & ->)|(_ & _ & ? & ? & ? & Cs)]]; [done|done|].
    destruct Cs as (_ & _ & _ & _ & _ & _ & _ & ->). apply elem_of_cons. by right.
Qed.

(** The loop over the arguments of a geoprocessing tool reads and writes
    nothing but the layers table, and hands on only what the caller may
    read: every input URL is the presigned URL of the S3 key of a layer that
    the caller owns and that an argument of twelve characters names; every
    other argument is passed as its text; the argument OUTPUT is passed in
    neither form. *)
Theorem resolve_inputs_presigns_layers_of_the_caller_only
    env user_id tc items params urls w w' :
  resolve_inputs env user_id tc items w = (Ok (params, urls), w') ->
  w' = w /\
  (forall key url,
     (key, url) ∈ urls ->
     key <> "OUTPUT" /\
     exists layer s3_key,
       (key, JStr (l_layer_id layer)) ∈ items /\
       layer ∈ map_layers w /\ l_owner_uuid layer = user_id /\
       l_s3_key layer = Some s3_key /\ s3_key <> "" /\
       url = generate_presigned_url env "get_object" s3_key) /\
  (forall key text,
     (key, text) ∈ params ->
     key <> "OUTPUT" /\
     exists val, (key, val) ∈ items /\ is_layer_id val = Ok false /\ text = py_str env val).
Proof.
  intros H. split.
  { pose proof (resolve_inputs_reads env user_id tc items w) as R. by rewrite H in R. }
  revert params urls H. induction items as [|[k v] items IH]; intros params urls H.
  { simpl in H. injection H as <- <- _. split; intros ? ? In; by apply elem_of_nil in In. }
  apply resolve_inputs_cons in H as (params0 & urls0 & H & Cases).
  destruct (IH _ _ H) as [IHu IHp]. clear IH.
  assert (Urls : forall key url,
             (key, url) ∈ urls0 ->
             key <> "OUTPUT" /\
             exists layer s3_key,
               (key, JStr (l_layer_id layer)) ∈ (k, v) :: items /\
               layer ∈ map_layers w /\ l_owner_uuid layer = user_id /\
               l_s3_key layer = Some s3_key /\ s3_key <> "" /\
               url = generate_presigned_url env "get_object" s3_key).
  { intros key url In. destruct (IHu key url In) as (NO & layer & s3_key & I & Rest).
    split; [done|]. exists layer, s3_key. split; [|done]. apply elem_of_cons. by right. }
  assert (Params : forall key text,
             (key, text) ∈ params0 ->
             key <> "OUTPUT" /\
             exists val, (key, val) ∈ (k, v) :: items /\ is_layer_id val = Ok false /\
                         text = py_str env val).
  { intros key text In. destruct (IHp key text In) as (NO & val & I & Rest).
    split; [done|]. exists val. split; [|done]. apply elem_of_cons. by right. }
  destruct Cases as [(_ & -> & ->)|[(NO & L & -> & ->)|(NO & -> & text & layer & s3_key & Cs)]].
  - done.
  - split; [done|]. intros key text [E|In]%elem_of_cons; [|by apply Params].
    injection E as -> ->. split; [done|]. exists v. split; [|done]. apply elem_of_cons. by left.
  - destruct Cs as (-> & _ & In & <- & Own & Key & Ne & ->). split; [|done].
    intros key url [E|In']%elem_of_cons; [|by apply Urls].
    injection E as -> ->. split; [done|]. exists layer, s3_key.
    split; [apply elem_of_cons; by left|done].
Qed.

Lemma resolve_inputs_presigns_layers_of_the_caller_only_witness :
  let items := [("INPUT", JStr "L0123456789a"); ("DISTANCE", JNum (inject_Z 100));
                ("OUTPUT", JStr "TEMPORARY_OUTPUT"); ("map_id", JStr "M1");
                ("user_uuid", JStr "user-1")] in
  let env := scripted zoom_reply qgis_up in
  let params := [("DISTANCE", "<value>"); ("map_id", "M1"); ("user_uuid", "user-1")] in
  let urls := [("INPUT", "https://s3.example/uploads/user-1/P1/L0123456789a.fgb?get_object")] in
  locked_world = locked_world /\
  (forall key url,
     (key, url) ∈ urls ->
     key <> "OUTPUT" /\
     exists layer s3_key,
       (key, JStr (l_layer_id layer)) ∈ items /\
       layer ∈ map_layers locked_world /\ l_owner_uuid layer = "user-1" /\
       l_s3_key layer = Some s3_key /\ s3_key <> "" /\
       url = generate_presigned_url env "get_object" s3_key) /\
  (forall key text,
     (key, text) ∈ params ->
     key <> "OUTPUT" /\
     exists val, (key, val) ∈ items /\ is_layer_id val = Ok false /\ text = py_str env val).
Proof.
  apply (resolve_inputs_presigns_layers_of_the_caller_only (scripted zoom_reply qgis_up) "user-1"
           buffer_call
           [("INPUT", JStr "L0123456789a"); ("DISTANCE", JNum (inject_Z 100));
            ("OUTPUT", JStr "TEMPORARY_OUTPUT"); ("map_id", JStr "M1");
            ("user_uuid", JStr "user-1")]
           [("DISTANCE", "<value>"); ("map_id", "M1"); ("user_uuid", "user-1")]
           [("INPUT", "https://s3.example/uploads/user-1/P1/L0123456789a.fgb?get_object")]
           locked_world locked_world).
  vm_compute. reflexivity.
Defined.

Lemma dict_set_keeps k v key val fields :
  (key, val) ∈ fields -> key <> k -> (key, val) ∈ dict_set k v fields.
Proof.
  intros In Ne. induction fields as [|[k0 v0] fields IH]; [by apply elem_of_nil in In|].
  simpl. destruct (String.eqb k k0) eqn:E.
  - apply String.eqb_eq in E. subst k0.
    apply elem_of_cons in In as [?|In]; [congruence|]. apply elem_of_cons. by right.
  - apply elem_of_cons in In as [->|In]; apply elem_of_cons; [by left|right; by apply IH].
Qed.

Lemma geoprocessing_body_resolved env map_id user_id tc tool algorithm mapped w res w' :
  geoprocessing_body env map_id user_id tc tool algorithm mapped w = (Ok res, w') ->
  exists params urls, resolve_inputs env user_id tc mapped w = (Ok (params, urls), w).
Proof.
  unfold geoprocessing_body. unfold mbind at 1, M_bind at 1, bind at 1.
  pose proof (resolve_inputs_reads env user_id tc mapped w) as R.
  destruct (resolve_inputs env user_id tc mapped w) as [[[params urls]|e] w1]; [|done].
  simpl in R. subst w1. intros _. by exists params, urls.
Qed.

(** A geoprocessing run succeeds only on layers of the caller: when the
    result is a success, every argument of the call that is a text of
    twelve characters starting with L (other than OUTPUT and the two
    arguments that the code overwrites) is the id of a layer that the caller
    owns and that has an S3 key. *)
Theorem geoprocessing_succeeds_on_layers_of_the_caller_only
    env map_id user_id tc fields w res w' :
  tc_arguments tc = Json (JObj fields) ->
  run_geoprocessing_tool env map_id user_id tc w = (Ok res, w') ->
  status_of res = Some (JStr "success") ->
  forall key val,
    (key, val) ∈ fields ->
    key <> "OUTPUT" -> key <> "map_id" -> key <> "user_uuid" ->
    is_layer_id val = Ok true ->
    exists layer s3_key,
      layer ∈ map_layers w /\ val = JStr (l_layer_id layer) /\ l_owner_uuid layer = user_id /\
      l_s3_key layer = Some s3_key /\ s3_key <> "".
Proof.
  intros Hargs Run St key val In NO NM NU L.
  unfold run_geoprocessing_tool in Run.
  unfold mbind, M_bind, bind, lift, ret, raise, try_except in Run. cbv beta iota zeta in Run.
  rewrite Hargs in Run. simpl loads in Run. cbv beta iota zeta in Run.
  destruct (find _ (get_tools env)) as [tool|]; [|done].
  set (mapped := dict_set "user_uuid" _ _) in Run.
  destruct (geoprocessing_body env map_id user_id tc tool _ mapped w) as [[r|e] w1] eqn:B.
  - apply geoprocessing_body_resolved in B as (params & urls & R).
    assert (In' : (key, val) ∈ mapped).
    { apply dict_set_keeps; [|done]. by apply dict_set_keeps. }
    destruct (resolve_inputs_layers _ _ _ _ _ _ _ _ R key val In' NO L)
      as (layer & s3_key & ? & ? & ? & ? & ? & _).
    by exists layer, s3_key.
  - destruct (exn_class e); simplify_eq; simpl in St; discriminate.
Qed.

Lemma geoprocessing_succeeds_on_layers_of_the_caller_only_witness :
  exists layer s3_key,
    layer ∈ map_layers locked_world /\ JStr "L0123456789a" = JStr (l_layer_id layer) /\
    l_owner_uuid layer = "user-1" /\ l_s3_key layer = Some s3_key /\ s3_key <> "".
Proof.
  eapply (geoprocessing_succeeds_on_layers_of_the_caller_only (scripted zoom_reply qgis_up) "M1"
            "user-1" buffer_call
            [("INPUT", JStr "L0123456789a"); ("DISTANCE", JNum (inject_Z 100));
             ("OUTPUT", JStr "TEMPORARY_OUTPUT")]
            locked_world _ _ eq_refl) with (key := "INPUT").
  - vm_compute. reflexivity.
  - vm_compute. reflexivity.
  - apply elem_of_cons. by left.
  - discriminate.
  - discriminate.
  - discriminate.
  - reflexivity.
Defined.

(** ** The layers offered to [add_layer_to_map] *)

Lemma mem_elem_of x xs : mem x xs = true <-> x ∈ xs.
Proof.
  unfold mem. rewrite existsb_exists. split.
  - intros (y & In & E). apply String.eqb_eq in E. subst y. by apply list_elem_of_In.
  - intros In. exists x. split; [by apply list_elem_of_In|apply String.eqb_refl].
Qed.

Lemma in_a_map_of_true user_id layer_id w :
  in_a_map_of user_id layer_id w = true <->
  exists m layers,
    m ∈ user_mundiai_maps w /\ m_owner_uuid m = user_id /\ m_layers m = Some layers /\
    layer_id ∈ layers.
Proof.
  unfold in_a_map_of. rewrite existsb_exists. split.
  - intros (m & In & H). apply andb_true_iff in H as [H O]. apply String.eqb_eq in O.
    destruct (m_layers m) as [layers|] eqn:L; [|discriminate]. apply mem_elem_of in H.
    exists m, layers. split; [by apply list_elem_of_In|done].
  - intros (m & layers & In & O & L & H). exists m. split; [by apply list_elem_of_In|].
    rewrite L. apply andb_true_iff. split; [by apply mem_elem_of|by apply String.eqb_eq].
Qed.

Lemma unattached_layers_spec user_id w layer :
  layer ∈ unattached_layers user_id w ->
  layer ∈ map_layers w /\ l_owner_uuid layer = user_id /\
  in_a_map_of user_id (l_layer_id layer) w = false.
Proof.
  unfold unattached_layers. intros In.
  pose proof (elem_of_sublist _ _ _ In (sublist_take _ 10)) as In'.
  apply list_elem_of_In in In'. rewrite <- in_rev in In'. apply filter_In in In' as [In' H].
  apply andb_true_iff in H as [O N]. apply String.eqb_eq in O. apply negb_true_iff in N.
  split; [by apply list_elem_of_In|done].
Qed.

Lemma unattached_layers_length user_id w : length (unattached_layers user_id w) <= 10.
Proof. unfold unattached_layers. rewrite length_take. lia. Qed.

Lemma unattached_layers_nil user_id w :
  unattached_layers user_id w = [] <->
  forall layer,
    layer ∈ map_layers w -> l_owner_uuid layer = user_id ->
    in_a_map_of user_id (l_layer_id layer) w = true.
Proof.
  unfold unattached_layers. split.
  - intros E layer In O.
    destruct (in_a_map_of user_id (l_layer_id layer) w) eqn:A; [done|]. exfalso.
    assert (F : layer ∈ rev (List.filter
                               (fun ml => String.eqb (l_owner_uuid ml) user_id
                                          && negb (in_a_map_of user_id (l_layer_id ml) w))
                               (map_layers w))).
    { apply list_elem_of_In. rewrite <- in_rev. apply filter_In.
      split; [by apply list_elem_of_In|].
      rewrite A. apply andb_true_iff. split; [by apply String.eqb_eq|done]. }
    destruct (rev _) as [|first rest]; [by apply elem_of_nil in F|]. discriminate.
  - intros All.
    destruct (rev _) as [|first rest] eqn:R; [done|]. exfalso.
    assert (F : first ∈ rev (List.filter
                               (fun ml => String.eqb (l_owner_uuid ml) user_id
                                          && negb (in_a_map_of user_id (l_layer_id ml) w))
                               (map_layers w))).
    { rewrite R. apply elem_of_cons. by left. }
    apply list_elem_of_In in F. rewrite <- in_rev in F. apply filter_In in F as [In H].
    apply andb_true_iff in H as [O N]. apply String.eqb_eq in O.
    rewrite (All first) in N; [discriminate|by apply list_elem_of_In|done].
Qed.

(** The keys of a dict filled in a loop: each key once, where it was first
    set. *)
Lemma dict_keys_spec (layers : list LayerRow) (keys : list string) :
  let keys' :=
    foldl (fun keys layer =>
             if mem (l_layer_id layer) keys then keys else keys ++ [l_layer_id layer])
      keys layers in
  (NoDup keys -> NoDup keys') /\
  (forall id, id ∈ keys' <-> id ∈ keys \/ id ∈ l_layer_id <$> layers) /\
  length keys' <= length keys + length layers /\
  (keys' = [] -> layers = []).
Proof.
  revert keys. induction layers as [|layer layers IH]; intros keys; simpl.
  { split; [done|]. split; [|split; [lia|done]]. intros id. rewrite elem_of_nil. tauto. }
  destruct (mem (l_layer_id layer) keys) eqn:M.
  - destruct (IH keys) as (N & E & L & Z). apply mem_elem_of in M.
    split; [done|]. split; [|split; [lia|]].
    + intros id. rewrite E, elem_of_cons. split; [tauto|]. intros [?|[->|?]]; tauto.
    + intros K. exfalso.
      assert (In : l_layer_id layer ∈ @nil string) by (rewrite <- K; apply E; by left).
      by apply elem_of_nil in In.
  - destruct (IH (keys ++ [l_layer_id layer])) as (N & E & L & Z).
    assert (NM : l_layer_id layer ∉ keys).
    { intros In. apply mem_elem_of in In. congruence. }
    split; [|split; [|split]].
    + intros ND. apply N. apply NoDup_app. split; [done|]. split; [|apply NoDup_singleton].
      intros x In ->%list_elem_of_singleton. done.
    + intros id. rewrite E, elem_of_app, list_elem_of_singleton, elem_of_cons. tauto.
    + rewrite length_app in L. simpl in L. lia.
    + intros K. exfalso.
      assert (In : l_layer_id layer ∈ @nil string).
      { rewrite <- K. apply E. left. apply elem_of_app. right. by apply list_elem_of_singleton. }
      by apply elem_of_nil in In.
Qed.

Lemma layer_enum_unattached user_id w id :
  id ∈ layer_enum user_id w ->
  exists layer,
    layer ∈ map_layers w /\ l_layer_id layer = id /\ l_owner_uuid layer = user_id /\
    in_a_map_of user_id id w = false.
Proof.
  unfold layer_enum. intros In.
  destruct (dict_keys_spec (unattached_layers user_id w) []) as (_ & E & _).
  apply E in In as [In|In]; [by apply elem_of_nil in In|].
  apply list_elem_of_fmap in In as (layer & -> & In).
  apply unattached_layers_spec in In as (In & O & A). by exists layer.
Qed.

Lemma layer_id_enum_some user_id w ids :
  layer_id_enum user_id w = Some ids -> ids = layer_enum user_id w.
Proof. unfold layer_id_enum. destruct (layer_enum user_id w); by intros [= <-]. Qed.

(** The model is offered, as the values of [layer_id] of
    [add_layer_to_map], at most ten ids, each once, and each the id of a
    layer that the caller owns and that is in none of the caller's maps.
    The list is never empty, and the schema carries no list at all exactly
    when the caller has no such layer: the placeholder NO_UNATTACHED_LAYERS
    is then taken out again, so it is never offered. *)
Theorem the_layers_offered_are_unattached_layers_of_the_caller user_id w :
  match layer_id_enum user_id w with
  | Some ids =>
      ids <> [] /\ length ids <= 10 /\ NoDup ids /\
      forall id,
        id ∈ ids ->
        exists layer,
          layer ∈ map_layers w /\ l_layer_id layer = id /\ l_owner_uuid layer = user_id /\
          forall m layers,
            m ∈ user_mundiai_maps w -> m_owner_uuid m = user_id ->
            m_layers m = Some layers -> id ∉ layers
  | None =>
      forall layer,
        layer ∈ map_layers w -> l_owner_uuid layer = user_id ->
        exists m layers,
          m ∈ user_mundiai_maps w /\ m_owner_uuid m = user_id /\
          m_layers m = Some layers /\ l_layer_id layer ∈ layers
  end.
Proof.
  unfold layer_id_enum, layer_enum.
  destruct (dict_keys_spec (unattached_layers user_id w) []) as (N & E & L & Z).
  cbv zeta in N, E, L, Z.
  destruct (foldl _ [] (unattached_layers user_id w)) as [|id0 ids0] eqn:K.
  - intros layer In O. apply in_a_map_of_true.
    exact (proj1 (unattached_layers_nil user_id w) (Z eq_refl) layer In O).
  - split; [done|]. split; [|split].
    + etrans; [exact L|]. exact (unattached_layers_length user_id w).
    + apply N. apply NoDup_nil_2.
    + intros id In. rewrite <- K in In.
      apply (layer_enum_unattached user_id w id) in In as (layer & In & Id & O & A).
      exists layer. split; [done|]. split; [done|]. split; [done|].
      intros m layers Im Om Lm Il.
      assert (T : in_a_map_of user_id id w = true).
      { apply in_a_map_of_true. by exists m, layers. }
      congruence.
Qed.

Lemma append_layer_row_attaches layer_id map_id m :
  m_id m = map_id ->
  exists layers,
    m_layers (append_layer_row layer_id map_id m) = Some layers /\ layer_id ∈ layers /\
    m_owner_uuid (append_layer_row layer_id map_id m) = m_owner_uuid m.
Proof.
  intros Id. unfold append_layer_row. apply String.eqb_eq in Id. rewrite Id.
  destruct (m_layers m) as [layers|] eqn:L.
  - destruct (mem layer_id layers) eqn:M.
    + exists layers. split; [done|]. split; [by apply mem_elem_of|done].
    + eexists. split; [reflexivity|]. split; [|done].
      apply elem_of_app. right. by apply list_elem_of_singleton.
  - eexists. split; [reflexivity|]. split; [|done]. by apply list_elem_of_singleton.
Qed.

(** Once [add_layer_to_map] has attached a layer to a map of the caller, the
    layer is no longer among those offered to the tool: a second attachment
    of the same layer is not something the schema of the next round
    suggests. *)
Theorem an_attached_layer_is_no_longer_offered
    env map_id user_id tc args layer_id layer m w w' :
  m ∈ user_mundiai_maps w -> m_id m = map_id -> m_owner_uuid m = user_id ->
  py_get args "layer_id" = Ok (JStr layer_id) ->
  select_layer (Some layer_id) user_id w = Some layer ->
  add_layer_to_map env map_id user_id tc args w = (Ok tt, w') ->
  forall ids, layer_id_enum user_id w' = Some ids -> layer_id ∉ ids.
Proof.
  intros Im Id Om Hl Sel Run ids Enum In.
  assert (A : in_a_map_of user_id layer_id w' = true).
  { apply in_a_map_of_true.
    destruct (append_layer_row_attaches layer_id map_id m Id) as (layers & L & I & O).
    exists (append_layer_row layer_id map_id m), layers.
    split; [|split; [congruence|done]].
    unfold add_layer_to_map in Run. rewrite Hl in Run.
    unfold mbind, M_bind, bind, lift, gets, modify, ret, kue_ephemeral_action,
      add_chat_completion_message, emit in Run.
    cbv beta iota zeta in Run. simpl db_text in Run. cbv beta iota zeta in Run.
    rewrite Sel in Run. cbv beta iota zeta in Run.
    destruct (py_get args "new_name") as [new_name|e]; [|discriminate].
    cbv beta iota zeta in Run.
    destruct (db_text new_name) as [name|e]; [|discriminate].
    cbv beta iota zeta in Run. injection Run as <-. simpl.
    apply list_elem_of_fmap. by exists m. }
  apply layer_id_enum_some in Enum. subst ids.
  apply layer_enum_unattached in In as (l & _ & _ & _ & No). congruence.
Qed.

Lemma an_attached_layer_is_no_longer_offered_witness :
  add_layer_to_map (scripted zoom_reply qgis_down) "M1" "user-1" (attach_call "call_1" "Roads")
    (attach_args "Roads") locked_world
  = (Ok tt, roads_attached) /\
  forall ids, layer_id_enum "user-1" roads_attached = Some ids -> "L0123456789a" ∉ ids.
Proof.
  split; [reflexivity|].
  apply (an_attached_layer_is_no_longer_offered (scripted zoom_reply qgis_down) "M1" "user-1"
           (attach_call "call_1" "Roads") (attach_args "Roads") "L0123456789a" roads
           (mkMapRow "M1" "user-1" false "P1" None) locked_world roads_attached).
  - apply elem_of_cons. by left.
  - reflexivity.
  - reflexivity.
  - reflexivity.
  - reflexivity.
  - reflexivity.
Defined.

(** ** Calls without arguments *)

Lemma find_none {A} (rows : list A) : find (fun _ => false) rows = None.
Proof. induction rows as [|row rows IH]; [done|exact IH]. Qed.

(** A call to one of the eight tools of the module itself with an empty
    arguments object is refused in words: the call is answered by one tool
    message that reports an error, the dispatch does not fail, and no map,
    layer, style or connection is changed. *)
Theorem a_call_without_arguments_is_answered_with_an_error
    env map_id session user_id names tc w :
  tc_arguments tc = Json (JObj []) ->
  tc_name tc ∈ "download_from_openstreetmap" :: core_tool_names ->
  exists reason w',
    dispatch_tool_call env map_id session user_id names tc w = (Ok tt, w') /\
    log_of map_id w' = log_of map_id w ++ [ToolMessage (tc_id tc) (error_result reason)] /\
    user_mundiai_maps w' = user_mundiai_maps w /\ map_layers w' = map_layers w /\
    layer_styles w' = layer_styles w /\ map_layer_styles w' = map_layer_styles w /\
    project_postgres_connections w' = project_postgres_connections w.
Proof.
  intros Hargs Hname. unfold dispatch_tool_call. rewrite Hargs.
  unfold core_tool_names in Hname.
  repeat (apply elem_of_cons in Hname as [->|Hname]); [..|by apply elem_of_nil in Hname].
  all: unfold new_layer_from_postgis, add_layer_to_map, query_duckdb_sql, create_layer_style,
         set_active_style, handle_download_from_openstreetmap, query_postgis_database,
         zoom_to_bounds.
  all: unfold_m; cbn; rewrite ?find_none; unfold_m; cbv beta iota zeta.
  all: eexists _, _; (split; [reflexivity|]); split; [|done].
  all: match goal with
       | |- log_of _ (set_trace _ (insert_message _ _ ?m ?w1)) = _ =>
           exact (log_of_insert map_id user_id m w1)
       end.
Qed.

Lemma a_call_without_arguments_is_answered_with_an_error_witness :
  exists reason w',
    dispatch_tool_call (scripted zoom_reply qgis_down) "M1" owner "user-1" ["native_buffer"]
      (mkToolCall "call_1" "set_active_style" (Json (JObj []))) locked_world
    = (Ok tt, w') /\
    log_of "M1" w'
    = log_of "M1" locked_world ++ [ToolMessage "call_1" (error_result reason)] /\
    user_mundiai_maps w' = user_mundiai_maps locked_world /\
    map_layers w' = map_layers locked_world /\
    layer_styles w' = layer_styles locked_world /\
    map_layer_styles w' = map_layer_styles locked_world /\
    project_postgres_connections w' = project_postgres_connections locked_world.
Proof.
  apply (a_call_without_arguments_is_answered_with_an_error (scripted zoom_reply qgis_down) "M1"
           owner "user-1" ["native_buffer"]
           (mkToolCall "call_1" "set_active_style" (Json (JObj []))) locked_world).
  - reflexivity.
  - unfold core_tool_names. do 4 (apply elem_of_cons; right). apply elem_of_cons. by left.
Defined.

(** ** The connection pool *)

Lemma pool_calls_with_a_pool connects envs s made :
  _connection_pool s = Some made ->
  (pool_calls connects envs s).1 = replicate (length envs) (Ok made) /\
  pools_made (pool_calls connects envs s).2 = pools_made s.
Proof.
  revert s. induction envs as [|env envs IH]; intros s P; [done|].
  simpl. unfold _get_connection_pool. simpl. rewrite P.
  set (s1 := mkProcess env _ _ _).
  destruct (IH s1 eq_refl) as [R M]. destruct (pool_calls connects envs s1) as [rs s2].
  simpl in *. by rewrite R, M.
Qed.

Lemma pool_calls_without_a_pool connects envs s :
  _connection_pool s = None ->
  exists failures made_after,
    (pool_calls connects envs s).1 = (Raise <$> failures) ++ made_after /\
    (made_after = [] /\ pools_made (pool_calls connects envs s).2 = pools_made s \/
     exists made,
       made_after = replicate (length made_after) (Ok made) /\
       pools_made (pool_calls connects envs s).2 = pools_made s ++ [made]).
Proof.
  revert s. induction envs as [|env envs IH]; intros s P.
  { exists [], []. split; [done|]. by left. }
  simpl. unfold _get_connection_pool. simpl. rewrite P.
  set (s0 := mkProcess env None _ _).
  destruct (postgres_url s0) as [url|e].
  - destruct (connects url (attempts s)) as [[]|e].
    + set (made := mkConnectionPool 1 10 url (attempts s)).
      set (s1 := mkProcess env (Some made) _ _).
      destruct (pool_calls_with_a_pool connects envs s1 made eq_refl) as [R M].
      destruct (pool_calls connects envs s1) as [rs s2]. simpl in *.
      exists [], (Ok made :: rs). split; [done|]. right. exists made.
      split; [|done]. simpl. by rewrite R, length_replicate.
    + set (s1 := mkProcess env None _ _).
      destruct (IH s1 eq_refl) as (failures & made_after & R & Cases).
      destruct (pool_calls connects envs s1) as [rs s2]. simpl in *.
      exists (e :: failures), made_after. split; [by rewrite R|done].
  - destruct (IH s0 eq_refl) as (failures & made_after & R & Cases).
    destruct (pool_calls connects envs s0) as [rs s2]. simpl in *.
    exists (e :: failures), made_after. split; [by rewrite R|done].
Qed.

(** The process makes its pool once.  However often
    [_get_connection_pool] is called and whatever the environment is at
    each call, the calls fail until one constructs a pool, and from then on
    every call returns that very pool, without reading the environment:
    one pool at most is ever constructed. *)
Theorem the_connection_pool_is_made_once connects envs :
  let results := (pool_calls connects envs started).1 in
  let made := pools_made (pool_calls connects envs started).2 in
  length made <= 1 /\
  (forall i pool, results !! i = Some (Ok pool) -> made = [pool]) /\
  (forall i j pool,
     results !! i = Some (Ok pool) -> i <= j -> j < length envs ->
     results !! j = Some (Ok pool)).
Proof.
  cbv zeta.
  assert (Len : forall es s, length (pool_calls connects es s).1 = length es).
  { induction es as [|env es IH]; intros s; [done|]. simpl.
    destruct (_get_connection_pool connects _) as [r s1].
    specialize (IH s1). destruct (pool_calls connects es s1) as [rs s2]. simpl in *.
    by rewrite IH. }
  specialize (Len envs started).
  destruct (pool_calls_without_a_pool connects envs started eq_refl)
    as (failures & made_after & R & Cases).
  rewrite R in *. clear R.
  assert (Failed : forall i pool, ((Raise <$> failures) ++ made_after) !! i = Some (Ok pool) ->
                     length failures <= i /\ made_after !! (i - length failures) = Some (Ok pool)).
  { intros i pool L. destruct (decide (i < length failures)) as [Lt|Ge].
    - rewrite lookup_app_l in L by (by rewrite length_fmap).
      rewrite list_lookup_fmap in L. destruct (failures !! i); discriminate.
    - rewrite lookup_app_r in L by (rewrite length_fmap; lia).
      rewrite length_fmap in L. split; [lia|done]. }
  destruct Cases as [[-> M]|(made & Rep & M)].
  - rewrite M. simpl. split; [lia|]. split.
    + intros i pool L. apply Failed in L as [_ L]. by rewrite lookup_nil in L.
    + intros i j pool L. apply Failed in L as [_ L]. by rewrite lookup_nil in L.
  - rewrite M. simpl. split; [lia|]. split.
    + intros i pool L. apply Failed in L as [_ L]. rewrite Rep in L.
      apply lookup_replicate in L as [E _]. by injection E as ->.
    + intros i j pool L Le Lt. apply Failed in L as [Ge L]. rewrite Rep in L.
      apply lookup_replicate in L as [E _]. injection E as <-.
      rewrite length_app, length_fmap in Len.
      rewrite lookup_app_r by (rewrite length_fmap; lia). rewrite length_fmap, Rep.
      apply lookup_replicate. split; [done|]. lia.
Qed.
